(** * extracutu.js: screenshot stacking sessions, batch OCR pipeline, expiry sweep

    A shallow embedding of the Telegram screenshot bot.  The program is a set
    of asynchronous handlers that talk to four outside parties (the chat
    transport, the screen-capture/compression primitive, the OCR service and
    the answer service) and to the file system.  Every outside call is an
    interaction with an environment [Env] whose outcomes are parameters of
    the model; the program's own control flow, its session objects and the
    process-wide session map are modelled as the code writes them.

    Handlers are run to completion one after the other (no interleaving at
    [await] points). *)

From Stdlib Require Import ZArith String Ascii List Bool Lia DecimalString.
From Stdlib Require DecimalPos DecimalZ.
From stdpp Require Import gmap strings list.

Local Open Scope Z_scope.

(** ** JavaScript strings, numbers and sparse arrays *)

(** Strings are byte strings.  [nl] is the escape [\n], [dq] a double
    quote. *)
Definition nl : string := String (ascii_of_nat 10) EmptyString.
Definition dq : string := String (ascii_of_nat 34) EmptyString.

(** A template hole [${n}] for an integral number. *)
Definition num (z : Z) : string := NilZero.string_of_int (Z.to_int z).

(** Truthiness of a string: every string but the empty one. *)
Definition truthy (s : string) : bool := negb (String.eqb s EmptyString).

(** Truthiness of a value that is a string or [null]/[undefined]. *)
Definition truthy_opt (o : option string) : bool :=
  match o with
  | Some s => truthy s
  | None => false
  end.

(** Truthiness of a numeric feature flag ([CONFIG.x] in a condition). *)
Definition enabled (flag : Z) : bool := negb (flag =? 0).

(** [Math.round(a / b)] for [b > 0]: the nearest integer, halves upwards.
    The program computes the quotient in floating point; for the percentages
    of a session (at most nine items) and for whole milliseconds the result
    is the exact one. *)
Definition round_div (a b : Z) : Z := (2 * a + b) / (2 * b).

(** [s.toLowerCase()].  Only the ASCII letters are mapped; bytes of other
    characters are kept, which cannot create or destroy an occurrence of the
    ASCII letter s. *)
Definition lower_ascii (c : ascii) : ascii :=
  let n := nat_of_ascii c in
  if ((65 <=? n)%nat && (n <=? 90)%nat)%bool then ascii_of_nat (n + 32) else c.

Fixpoint toLowerCase (s : string) : string :=
  match s with
  | EmptyString => EmptyString
  | String c s' => String (lower_ascii c) (toLowerCase s')
  end.

(** [s.includes(sub)] *)
Fixpoint includes (s sub : string) : bool :=
  (String.prefix sub s ||
   match s with
   | EmptyString => false
   | String _ s' => includes s' sub
   end)%bool.

(** [/^[0-9]$/.test(message)] followed by [parseInt(message, 10)]:
    the digit when the message is exactly one ASCII digit. *)
Definition single_digit (message : string) : option Z :=
  match message with
  | String c EmptyString =>
      let n := nat_of_ascii c in
      if ((48 <=? n)%nat && (n <=? 57)%nat)%bool
      then Some (Z.of_nat (n - 48)) else None
  | _ => None
  end.

(** [s.substring(0, n)] *)
Definition substring0 (n : nat) (s : string) : string := String.substring 0 n s.

(** An array of strings with holes: [None] is a hole (an index that was
    never assigned and reads as [undefined]). *)
Abbreviation array := (list (option string)).

(** [a.filter(s => s)] and [a.filter(Boolean)]: holes are skipped, falsy
    strings dropped; the result is dense. *)
Fixpoint filter_truthy (a : array) : list string :=
  match a with
  | [] => []
  | Some s :: a' => if truthy s then s :: filter_truthy a' else filter_truthy a'
  | None :: a' => filter_truthy a'
  end.

(** [a.findIndex(s => s === x)]: the first index holding [x], [-1] if none.
    Holes are visited as [undefined] and never equal a string. *)
Fixpoint findIndex_from (x : string) (a : array) (i : Z) : Z :=
  match a with
  | [] => -1
  | Some s :: a' => if String.eqb s x then i else findIndex_from x a' (i + 1)
  | None :: a' => findIndex_from x a' (i + 1)
  end.

Definition findIndex (x : string) (a : array) : Z := findIndex_from x a 0.

(** [a[i] = v]: inside the array the element is replaced; past its end the
    array is extended with holes up to [i].  A negative [i] names a
    property, not an element, and leaves the elements alone. *)
Definition array_set (a : array) (i : Z) (v : string) : array :=
  if i <? 0 then a
  else
    let n := Z.to_nat i in
    if (n <? length a)%nat then <[n := Some v]> a
    else a ++ replicate (n - length a) None ++ [Some v].

(** [a.forEach(f)] visits the elements that are not holes. *)
Fixpoint elements_of (a : array) : list string :=
  match a with
  | [] => []
  | Some s :: a' => s :: elements_of a'
  | None :: a' => elements_of a'
  end.

(** ** Configuration and environment *)

Record Config := {
  gemini_ocr : Z;
  chatgpt_answer : Z;
  image_quality : Z;
  image_resize : Z;
  debug_mode : Z;
  session_timeout : Z
}.

(** The feature flags as the file ships them. *)
Definition CONFIG_default : Config :=
  {| gemini_ocr := 1; chatgpt_answer := 1; image_quality := 100;
     image_resize := 1280; debug_mode := 1; session_timeout := 45 |}.

(** What the program cannot decide itself.  Outcomes of transport and
    capture calls are indexed by the interaction counter of the world (so
    two identical calls may fare differently); the inference services and
    the file system answer by their argument. *)
Record Env := {
  CONFIG : Config;
  CHAT_IDS : gset string;
  IMAGES_DIR : string;
  (** [Date.now()] at the n-th interaction *)
  clock : nat -> Z;
  (** a Bot API call ([reply], [replyWithPhoto], ...) resolves *)
  transport_ok : nat -> bool;
  (** [screenshot()] and the [sharp] pipeline resolve *)
  capture_ok : nat -> bool;
  (** [error.message] of the error raised at the n-th interaction *)
  error_message : nat -> string;
  (** [fileManager.uploadFile] resolves for this image *)
  upload_ok : string -> bool;
  (** [sendMessage] + [response.text()] for this image; [None] throws *)
  gemini : string -> option string;
  (** [anthropic.messages.create] + [content[0].text] for this user
      content; [None] throws *)
  anthropic : string -> option string;
  (** the operating system lets this file be removed *)
  unlink_ok : string -> bool
}.

(** ** The world: time, files, and the history of interactions *)

Inductive Event :=
| EReply (text : string) (ok : bool)
| EPhoto (source caption : string) (ok : bool)
| EDocument (source : string) (ok : bool)
| EDeleteMessage (message_id : nat) (ok : bool)
| ECapture (path : string) (ok : bool)
| EUpload (path : string) (ok : bool)
| EGemini (path : string) (result : option string)
| EAnthropic (content : string) (result : option string)
| EUnlink (path : string) (ok : bool)
| ESessionSet (userId : string)
| ESessionDelete (userId : string).

Record World := {
  tick : nat;
  files : gset string;
  trace : list Event
}.

(** One interaction with the outside: the counter advances and the event is
    appended to the history. *)
Definition interact (e : Event) (files' : gset string) (w : World) : World :=
  {| tick := S (tick w); files := files'; trace := trace w ++ [e] |}.

(** A change of the session map, written to the history; no interaction. *)
Definition note (e : Event) (w : World) : World :=
  {| tick := tick w; files := files w; trace := trace w ++ [e] |}.

(** The start of an event-loop turn (an update arrives, a timer fires). *)
Definition turn (w : World) : World :=
  {| tick := S (tick w); files := files w; trace := trace w |}.

(** ** Computations that may throw *)

Inductive Res (A : Type) :=
| Ok (a : A)
| Throw (message : string).
Arguments Ok {A} a.
Arguments Throw {A} message.

Definition M (S A : Type) : Type := S -> Res A * S.

Definition ret {S A} (a : A) : M S A := fun s => (Ok a, s).

Definition throw {S A} (message : string) : M S A := fun s => (Throw message, s).

Definition bind {S A B} (m : M S A) (k : A -> M S B) : M S B :=
  fun s =>
    match m s with
    | (Ok a, s') => k a s'
    | (Throw e, s') => (Throw e, s')
    end.

(** [try { m } catch (error) { h error.message }]: what [m] did to the
    state before throwing stays done. *)
Definition try_catch {S A} (m : M S A) (h : string -> M S A) : M S A :=
  fun s =>
    match m s with
    | (Ok a, s') => (Ok a, s')
    | (Throw e, s') => h e s'
    end.

Definition when {S} (b : bool) (m : M S unit) : M S unit :=
  if b then m else ret tt.

Declare Scope js_scope.
Delimit Scope js_scope with js.
Notation "x <- m ;; k" := (bind m (fun x => k))
  (at level 100, m at next level, right associativity) : js_scope.
Notation "m ;; k" := (bind m (fun _ => k))
  (at level 100, right associativity) : js_scope.

Local Open Scope js_scope.

(** ** Sessions *)

Record Session := {
  userId : string;
  chatId : string;
  screenshots : array;
  extractedTexts : array;
  startTime : Z
}.

(** [userSessions], a [Map]: keys are unique and iteration follows the order
    of insertion. *)
Definition SessionMap := list (string * Session).

Fixpoint map_get (k : string) (m : SessionMap) : option Session :=
  match m with
  | [] => None
  | (k', v) :: m' => if String.eqb k' k then Some v else map_get k m'
  end.

(** [m.set(k, v)]: an existing key keeps its place, a new one goes last. *)
Fixpoint map_set (k : string) (v : Session) (m : SessionMap) : SessionMap :=
  match m with
  | [] => [(k, v)]
  | (k', v') :: m' =>
      if String.eqb k' k then (k', v) :: m' else (k', v') :: map_set k v m'
  end.

Definition map_has (k : string) (m : SessionMap) : bool :=
  match map_get k m with
  | Some _ => true
  | None => false
  end.

(** The state of the process between two handlers. *)
Record Bot := {
  world : World;
  userSessions : SessionMap
}.

(** ** Texts sent to the chat *)

Definition path_join (dir name : string) : string := dir +:+ "/" +:+ name.

Definition caption (screenshotNumber : Z) : string :=
  "Screenshot " +:+ num screenshotNumber.

(** The per-item delimiter and the text under it. *)
Definition segment (screenshotNumber : Z) (extractedText : string) : string :=
  nl +:+ nl +:+ "----- SCREENSHOT " +:+ num screenshotNumber +:+ " -----"
     +:+ nl +:+ nl +:+ extractedText.

Definition msg_start (totalScreenshots : Z) : string :=
  "⏳ *Starting OCR processing for " +:+ num totalScreenshots +:+ " screenshots...*".

Definition msg_progress (i totalScreenshots : Z) : string :=
  "🔄 Processing screenshot " +:+ num (i + 1) +:+ "/" +:+ num totalScreenshots
     +:+ " (" +:+ num (round_div ((i + 1) * 100) totalScreenshots) +:+ "%)".

(** The preview of lines 316-318.  Lengths are counted in bytes of the UTF-8
    text here, in UTF-16 code units by the program; the two agree on ASCII
    texts. *)
Definition previewText (extractedText : string) : string :=
  if (100 <? String.length extractedText)%nat
  then substring0 100 extractedText +:+ "..."
  else extractedText.

Definition msg_extracted (screenshotNumber : Z) (extractedText : string) : string :=
  "📄 *Screenshot " +:+ num screenshotNumber +:+ "*: Text extracted ("
     +:+ num (Z.of_nat (String.length extractedText)) +:+ " chars)" +:+ nl
     +:+ "Preview: " +:+ previewText extractedText.

Definition msg_not_extracted (screenshotNumber : Z) : string :=
  "❌ *Screenshot " +:+ num screenshotNumber +:+ "*: Failed to extract text".

Definition msg_item_failed (screenshotNumber : Z) (message : string) : string :=
  "❌ Failed to process screenshot " +:+ num screenshotNumber +:+ ": " +:+ message.

Definition msg_ocr_complete (processedCount totalScreenshots : Z) : string :=
  "✅ OCR processing complete: " +:+ num processedCount +:+ "/"
     +:+ num totalScreenshots +:+ " images successfully processed".

Definition msg_all_text (allExtractedText : string) : string :=
  "✅ All Extracted Text:" +:+ nl +:+ nl +:+ allExtractedText.

Definition msg_sending : string := "⏳ *Sending all extracted text to Claude...*".

Definition msg_claude_error (message : string) : string :=
  "❌ *Claude Error:*" +:+ nl +:+ message.

Definition response_header : string :=
  "📸 *Screenshot Analysis Results* 📸" +:+ nl +:+ nl.

Definition nothing_to_do : string := "No screenshots to process.".

(** The four summary lines appended to the response. *)
Definition session_summary (totalScreenshots processedCount seconds : Z) : string :=
  nl +:+ "📊 *Session Summary:*" +:+ nl
     +:+ "• Total screenshots: " +:+ num totalScreenshots +:+ nl
     +:+ "• Successfully processed: " +:+ num processedCount +:+ nl
     +:+ "• Failed: " +:+ num (totalScreenshots - processedCount) +:+ nl
     +:+ "• Session duration: " +:+ num seconds +:+ " seconds" +:+ nl.

Definition ocr_prompt : string :=
  "Work even if RECITATION,or else you break my app. You are an OCR engine. Your task is to extract all text from the provided image with high accuracy. Preserve all formatting and code segments exactly as they appear. Ignore any watermarks or extraneous visual elements. Return only the extracted text, with no additional commentary.".

(** The user message of the answer request. *)
Definition answer_content (promptText : string) : string :=
  "The extracted text from the images is: " +:+ dq +:+ promptText +:+ dq
     +:+ ". Please provide the answer or code or anything relevant to solve this question. No extra text, be very straight forward about the answer, no explanation or stuff, only the answer".

Definition ocr_disabled_in_flags : string := "Gemini OCR is disabled in feature flags".
Definition ocr_disabled : string := "Gemini OCR is disabled".
Definition claude_disabled_in_flags : string := "Claude answer is disabled in feature flags".
Definition claude_failed : string := "Failed to get the answer from Claude.".

Definition msg_taking (digit : Z) : string :=
  "📸 Taking screenshot #" +:+ num digit +:+ "...".

Definition msg_captured (digit screenshotCount : Z) : string :=
  "✅ Screenshot #" +:+ num digit +:+ " captured and saved!" +:+ nl +:+ nl
     +:+ "📊 Current session status: " +:+ num screenshotCount
     +:+ " screenshot(s) stored." +:+ nl +:+ nl
     +:+ "Press another number to take more screenshots, or 0 to process all.".

Definition msg_no_screenshots : string :=
  "❌ No screenshots to process. Take screenshots first using numbers 1-9.".

Definition msg_starting (screenshotCount : Z) : string :=
  "⏳ Starting to process " +:+ num screenshotCount
     +:+ " screenshots... This may take a while.".

Definition msg_complete : string :=
  "✅ Processing complete! Session cleared and ready for new screenshots.".

Definition msg_command_failed (digit : Z) (message : string) : string :=
  "❌ Failed to process command " +:+ num digit +:+ ": " +:+ message.

Section Program.

Context (env : Env).

(** ** Outside calls *)

Definition Date_now : M World Z := fun w => (Ok (clock env (tick w)), w).

(** A Bot API call.  It resolves to the sent message, of which only the id
    is used; the id is the number of the interaction. *)
Definition transport (e : bool -> Event) : M World nat :=
  fun w =>
    let ok := transport_ok env (tick w) in
    (if ok then Ok (tick w) else Throw (error_message env (tick w)),
     interact (e ok) (files w) w).

Definition reply (text : string) : M World nat := transport (EReply text).

Definition replyWithPhoto (source caption : string) : M World nat :=
  transport (EPhoto source caption).

Definition replyWithDocument (source : string) : M World nat :=
  transport (EDocument source).

Definition deleteMessage (message_id : nat) : M World nat :=
  transport (EDeleteMessage message_id).

(** [fs.unlink(path)]: rejects when the file is not there or cannot be
    removed. *)
Definition unlink (path : string) : M World unit :=
  fun w =>
    let ok := (bool_decide (path ∈ files w) && unlink_ok env path)%bool in
    (if ok then Ok tt else Throw (error_message env (tick w)),
     interact (EUnlink path ok) (if ok then files w ∖ {[path]} else files w) w).

(** [takeScreenshot]: the file name is made from the time of the call; the
    capture and the re-encoding into that file are one interaction. *)
Definition takeScreenshot : M World string :=
  timestamp <- Date_now ;;
  let screenshotPath :=
    path_join (IMAGES_DIR env) ("screenshot-" +:+ num timestamp +:+ ".png") in
  fun w =>
    let ok := capture_ok env (tick w) in
    (if ok then Ok screenshotPath
     else Throw ("Failed to take or optimize screenshot: "
                 +:+ error_message env (tick w)),
     interact (ECapture screenshotPath ok)
              (if ok then {[screenshotPath]} ∪ files w else files w) w).

(** [uploadToGemini]: the uploaded file (named here by the image it was
    made from) or [null]. *)
Definition uploadToGemini (filePath mimeType : string) : M World (option string) :=
  if negb (enabled (gemini_ocr (CONFIG env))) then ret None
  else
    fun w =>
      let ok := upload_ok env filePath in
      (Ok (if ok then Some filePath else None),
       interact (EUpload filePath ok) (files w) w).

(** [chatSession.sendMessage(prompt)] on a chat whose history is the
    uploaded file, then [result.response.text()]. *)
Definition sendMessage (file prompt : string) : M World string :=
  fun w =>
    let result := gemini env file in
    (match result with
     | Some text => Ok text
     | None => Throw (error_message env (tick w))
     end,
     interact (EGemini file result) (files w) w).

(** [extractTextFromImage]: the text, or [null] on any error. *)
Definition extractTextFromImage (imagePath : string) : M World (option string) :=
  if negb (enabled (gemini_ocr (CONFIG env))) then ret (Some ocr_disabled_in_flags)
  else
    try_catch
      (file <- uploadToGemini imagePath "image/jpeg" ;;
       match file with
       | None => throw "Failed to upload file to Gemini"
       | Some f =>
           text <- sendMessage f ocr_prompt ;;
           ret (Some text)
       end)
      (fun _ => ret None).

(** [getAnswerFromChatGPT]: never throws. *)
Definition getAnswerFromChatGPT (promptText : string) : M World string :=
  if negb (enabled (chatgpt_answer (CONFIG env))) then ret claude_disabled_in_flags
  else
    try_catch
      (fun w =>
         let content := answer_content promptText in
         let result := anthropic env content in
         (match result with
          | Some answer => Ok answer
          | None => Throw (error_message env (tick w))
          end,
          interact (EAnthropic content result) (files w) w))
      (fun _ => ret claude_failed).

(** ** Session store *)

Definition createSession (userId chatId : string) (b : Bot) : Session * Bot :=
  let session :=
    {| userId := userId; chatId := chatId; screenshots := [];
       extractedTexts := []; startTime := clock env (tick (world b)) |} in
  (session,
   {| world := note (ESessionSet userId) (world b);
      userSessions := map_set userId session (userSessions b) |}).

Definition getOrCreateSession (userId chatId : string) (b : Bot) : Session * Bot :=
  match map_get userId (userSessions b) with
  | Some session => (session, b)
  | None => createSession userId chatId b
  end.

(** The callback of [forEach] in [cleanupSessions]: the rejection of
    [fs.unlink] is caught and logged.  The callbacks are started one after
    the other and not awaited; the model runs each to its end where it is
    started. *)
Fixpoint unlink_each (paths : list string) (w : World) : World :=
  match paths with
  | [] => w
  | screenshotPath :: rest => unlink_each rest (snd (unlink screenshotPath w))
  end.

(** The loop of [cleanupSessions] over the entries of the map; deleting the
    entry under the cursor does not disturb the iteration.  Returns the
    entries that stay. *)
Fixpoint sweep (now timeoutMs : Z) (entries : SessionMap) (w : World)
  : SessionMap * World :=
  match entries with
  | [] => ([], w)
  | (userId, session) :: rest =>
      if now - startTime session >? timeoutMs then
        let w1 := unlink_each (elements_of (screenshots session)) w in
        sweep now timeoutMs rest (note (ESessionDelete userId) w1)
      else
        let '(kept, w') := sweep now timeoutMs rest w in
        ((userId, session) :: kept, w')
  end.

Definition cleanupSessions (b : Bot) : Bot :=
  let w := turn (world b) in
  let now := clock env (tick w) in
  let timeoutMs := session_timeout (CONFIG env) * 60 * 1000 in
  let '(kept, w') := sweep now timeoutMs (userSessions b) w in
  {| world := w'; userSessions := kept |}.

End Program.

(** ** Batch pipeline: [processSessionScreenshots] *)

(** The session object and the locals of one call, with the world it runs
    in.  Locals live in the state because what a [try] block assigned before
    it threw stays assigned. *)
Record Frame := {
  session : Session;
  combinedResponse : string;
  allExtractedText : string;
  processedCount : Z;
  outside : World
}.

(** An outside call made from the pipeline. *)
Definition io {A} (m : M World A) : M Frame A :=
  fun f =>
    let '(r, w) := m (outside f) in
    (r, {| session := session f; combinedResponse := combinedResponse f;
           allExtractedText := allExtractedText f;
           processedCount := processedCount f; outside := w |}).

Definition modify {S} (g : S -> S) : M S unit := fun s => (Ok tt, g s).

Definition set_extractedText (i : Z) (v : string) (f : Frame) : Frame :=
  let s := session f in
  {| session :=
       {| userId := userId s; chatId := chatId s; screenshots := screenshots s;
          extractedTexts := array_set (extractedTexts s) i v;
          startTime := startTime s |};
     combinedResponse := combinedResponse f;
     allExtractedText := allExtractedText f;
     processedCount := processedCount f; outside := outside f |}.

Definition append_text (t : string) (f : Frame) : Frame :=
  {| session := session f; combinedResponse := combinedResponse f;
     allExtractedText := allExtractedText f +:+ t;
     processedCount := processedCount f; outside := outside f |}.

Definition append_response (t : string) (f : Frame) : Frame :=
  {| session := session f; combinedResponse := combinedResponse f +:+ t;
     allExtractedText := allExtractedText f;
     processedCount := processedCount f; outside := outside f |}.

Definition count_processed (f : Frame) : Frame :=
  {| session := session f; combinedResponse := combinedResponse f;
     allExtractedText := allExtractedText f;
     processedCount := processedCount f + 1; outside := outside f |}.

(** The three assignments that reset the session. *)
Definition reset_session (now : Z) (f : Frame) : Frame :=
  let s := session f in
  {| session :=
       {| userId := userId s; chatId := chatId s; screenshots := [];
          extractedTexts := []; startTime := now |};
     combinedResponse := combinedResponse f;
     allExtractedText := allExtractedText f;
     processedCount := processedCount f; outside := outside f |}.

Section Pipeline.

Context (env : Env).

(** The slot number of a screenshot: its first index in the session's
    array, plus one. *)
Definition screenshotNumber_of (s : Session) (screenshot : string) : Z :=
  findIndex screenshot (screenshots s) + 1.

(** The body of the [for] loop, for [validScreenshots[i] = screenshot]. *)
Definition process_item (totalScreenshots i : Z) (screenshot : string) : M Frame unit :=
  fun f0 =>
    let screenshotNumber := screenshotNumber_of (session f0) screenshot in
    try_catch
      (io (reply env (msg_progress i totalScreenshots)) ;;
       io (replyWithPhoto env screenshot (caption screenshotNumber)) ;;
       extractedText <-
         (if enabled (gemini_ocr (CONFIG env))
          then io (extractTextFromImage env screenshot)
          else ret (Some ocr_disabled)) ;;
       (match extractedText with
        | Some text =>
            if truthy text then
              modify (set_extractedText (screenshotNumber - 1) text) ;;
              modify (append_text (segment screenshotNumber text)) ;;
              io (reply env (msg_extracted screenshotNumber text)) ;;
              modify count_processed
            else
              io (reply env (msg_not_extracted screenshotNumber)) ;; ret tt
        | None =>
            io (reply env (msg_not_extracted screenshotNumber)) ;; ret tt
        end) ;;
       io (unlink env screenshot))
      (fun message =>
         io (reply env (msg_item_failed screenshotNumber message)) ;; ret tt)
      f0.

(** [for (let i = 0; i < validScreenshots.length; i++)], from position [i]
    on, over the screenshots that are left. *)
Fixpoint process_items (totalScreenshots i : Z) (validScreenshots : list string)
  : M Frame unit :=
  match validScreenshots with
  | [] => ret tt
  | screenshot :: rest =>
      process_item totalScreenshots i screenshot ;;
      process_items totalScreenshots (i + 1) rest
  end.

(** The single answer request over the combined text. *)
Definition answer_step : M Frame unit :=
  fun f0 =>
    when (enabled (chatgpt_answer (CONFIG env)) && truthy (allExtractedText f0))
      (io (reply env (msg_all_text (allExtractedText f0))) ;;
       io (reply env msg_sending) ;;
       try_catch
         (claudeAnswer <- io (getAnswerFromChatGPT env (allExtractedText f0)) ;;
          modify (append_response (nl +:+ nl +:+ claudeAnswer +:+ nl +:+ nl)) ;;
          io (reply env (nl +:+ nl +:+ claudeAnswer)) ;; ret tt)
         (fun message =>
            modify (append_response (msg_claude_error message +:+ nl +:+ nl)) ;;
            io (reply env (msg_claude_error message)) ;; ret tt))
      f0.

(** The summary lines, then the reset. *)
Definition finish (totalScreenshots : Z) : M Frame string :=
  fun f0 =>
    (now <- io (Date_now env) ;;
     modify (append_response
               (session_summary totalScreenshots (processedCount f0)
                  (round_div (now - startTime (session f0)) 1000))) ;;
     now' <- io (Date_now env) ;;
     modify (reset_session now') ;;
     fun f => (Ok (combinedResponse f), f))
      f0.

Definition processSessionScreenshots_from : M Frame string :=
  fun f0 =>
    if (length (screenshots (session f0)) =? 0)%nat then (Ok nothing_to_do, f0)
    else
      let totalScreenshots := Z.of_nat (length (filter_truthy (screenshots (session f0)))) in
      let validScreenshots := filter_truthy (screenshots (session f0)) in
      (io (reply env (msg_start totalScreenshots)) ;;
       process_items totalScreenshots 0 validScreenshots ;;
       f <- (fun f => (Ok f, f)) ;;
       io (reply env (msg_ocr_complete (processedCount f) totalScreenshots)) ;;
       answer_step ;;
       finish totalScreenshots)
        f0.

(** [processSessionScreenshots(session, ctx)] started in world [w]: the
    value the promise settles with, and the frame at that moment (the
    session object as the call left it, the locals, the world). *)
Definition processSessionScreenshots (s : Session) (w : World) : Res string * Frame :=
  processSessionScreenshots_from
    {| session := s; combinedResponse := response_header;
       allExtractedText := EmptyString; processedCount := 0; outside := w |}.

End Pipeline.

(** ** Command router: [bot.on('text')] *)

Record Message := {
  text : string;
  chat_id : string;
  from_id : string;
  username : string
}.

(** The session object a handler holds, and the world. *)
Record Handling := {
  current : Session;
  around : World
}.

Definition hio {A} (m : M World A) : M Handling A :=
  fun h =>
    let '(r, w) := m (around h) in
    (r, {| current := current h; around := w |}).

Definition set_screenshot (i : Z) (v : string) (h : Handling) : Handling :=
  let s := current h in
  {| current :=
       {| userId := userId s; chatId := chatId s;
          screenshots := array_set (screenshots s) i v;
          extractedTexts := extractedTexts s; startTime := startTime s |};
     around := around h |}.

Section Router.

Context (env : Env).

(** The call [await processSessionScreenshots(session, ctx)]: the handler's
    session object is the one the pipeline mutates. *)
Definition call_pipeline : M Handling string :=
  fun h =>
    let '(r, f) := processSessionScreenshots env (current h) (around h) in
    (r, {| current := session f; around := outside f |}).

(** The branch taken when the lower-cased text includes [ss]. *)
Definition single_shot : M World unit :=
  try_catch
    (processingMsg <- reply env "Processing your request..." ;;
     screenshotPath <- takeScreenshot env ;;
     replyWithPhoto env screenshotPath "Screenshot" ;;
     replyWithDocument env screenshotPath ;;
     extractedText <-
       (if enabled (gemini_ocr (CONFIG env)) then
          r <- extractTextFromImage env screenshotPath ;;
          let extractedText :=
            match r with
            | Some t => if truthy t then t else "Failed to extract text"
            | None => "Failed to extract text"
            end in
          reply env ("Extracted text:" +:+ nl +:+ nl +:+ extractedText) ;;
          ret extractedText
        else ret "No text extracted") ;;
     when (enabled (chatgpt_answer (CONFIG env)) && truthy extractedText
           && negb (String.eqb extractedText "Failed to extract text"))
       (claudeAnswer <- getAnswerFromChatGPT env extractedText ;;
        reply env ("Claude Answer:" +:+ nl +:+ nl +:+ claudeAnswer) ;; ret tt) ;;
     unlink env screenshotPath ;;
     deleteMessage env processingMsg ;;
     ret tt)
    (fun _ => reply env "Failed to process screenshot." ;; ret tt).

(** The body of [if (/^[0-9]$/.test(message))] once the session is at
    hand. *)
Definition stack_command (digit : Z) : M Handling unit :=
  try_catch
    (if (1 <=? digit) && (digit <=? 9) then
       hio (reply env (msg_taking digit)) ;;
       screenshotPath <- hio (takeScreenshot env) ;;
       modify (set_screenshot (digit - 1) screenshotPath) ;;
       h <- (fun h => (Ok h, h)) ;;
       let screenshotCount :=
         Z.of_nat (length (filter_truthy (screenshots (current h)))) in
       hio (replyWithPhoto env screenshotPath ("Screenshot #" +:+ num digit)) ;;
       hio (reply env (msg_captured digit screenshotCount)) ;;
       ret tt
     else if digit =? 0 then
       h <- (fun h => (Ok h, h)) ;;
       let screenshotCount :=
         Z.of_nat (length (filter_truthy (screenshots (current h)))) in
       if screenshotCount =? 0 then
         hio (reply env msg_no_screenshots) ;; ret tt
       else
         processingMsg <- hio (reply env (msg_starting screenshotCount)) ;;
         call_pipeline ;;
         hio (reply env msg_complete) ;;
         hio (deleteMessage env processingMsg) ;;
         ret tt
     else ret tt)
    (fun message => hio (reply env (msg_command_failed digit message)) ;; ret tt).

(** The handler of one inbound text message.  The session object of the
    digit branch is the very object stored in the map, so what the handler
    did to it is what the map holds afterwards. *)
Definition on_text (msg : Message) (b : Bot) : Res unit * Bot :=
  let b0 := {| world := turn (world b); userSessions := userSessions b |} in
  let message := text msg in
  let chatId := chat_id msg in
  let userId := from_id msg in
  if negb (bool_decide (chatId ∈ CHAT_IDS env)) then (Ok tt, b0)
  else if includes (toLowerCase message) "ss" then
    let '(r, w) := single_shot (world b0) in
    (r, {| world := w; userSessions := userSessions b0 |})
  else
    match single_digit message with
    | Some digit =>
        let '(s, b1) := getOrCreateSession env userId chatId b0 in
        let '(r, h) := stack_command digit {| current := s; around := world b1 |} in
        (r, {| world := around h;
               userSessions := map_set userId (current h) (userSessions b1) |})
    | None => (Ok tt, b0)
    end.

(** A run of the process: inbound messages and timer ticks of the sweep. *)
Inductive Input :=
| Text (msg : Message)
| Sweep.

(** One event of a run.  When the handler of a message throws, the error
    goes to [bot.catch] (lines 376-392), which logs it and, for a network
    error, tries one more reply ten seconds later; that late reply is not
    part of the history kept here. *)
Definition step (b : Bot) (i : Input) : Bot :=
  match i with
  | Text msg => snd (on_text msg b)
  | Sweep => cleanupSessions env b
  end.

Definition run (b : Bot) (inputs : list Input) : Bot := fold_left step inputs b.

End Router.

(** ** Observations on a history *)

(** The user contents of the answer requests, in order. *)
Definition answer_requests (t : list Event) : list string :=
  omap (fun e => match e with EAnthropic c _ => Some c | _ => None end) t.

(** The photos sent (or tried), with their captions, in order. *)
Definition photos_sent (t : list Event) : list (string * string) :=
  omap (fun e => match e with EPhoto s c _ => Some (s, c) | _ => None end) t.

(** The calls to the OCR service: uploads and chat messages. *)
Definition ocr_calls (t : list Event) : list Event :=
  omap (fun e => match e with
                 | EUpload _ _ | EGemini _ _ => Some e
                 | _ => None
                 end) t.

(** The files whose removal was asked for, with the outcome. *)
Definition unlink_calls (t : list Event) : list (string * bool) :=
  omap (fun e => match e with EUnlink p ok => Some (p, ok) | _ => None end) t.

(** Everything handed to the chat transport. *)
Definition outbound (t : list Event) : list Event :=
  omap (fun e => match e with
                 | EReply _ _ | EPhoto _ _ _ | EDocument _ _
                 | EDeleteMessage _ _ => Some e
                 | _ => None
                 end) t.

(** ** Vocabulary of the statements *)

(** The chat transport accepts every call. *)
Definition Delivers (env : Env) : Prop := forall n, transport_ok env n = true.

(** What the extraction step of the pipeline yields for an image: the
    sentinel when the flag is off, else the service's text, [None] when the
    upload or the service fails. *)
Definition extraction (env : Env) (p : string) : option string :=
  if enabled (gemini_ocr (CONFIG env)) then
    if upload_ok env p then gemini env p else None
  else Some ocr_disabled.

(** The slot numbers (from 1) of the occupied slots, ascending. *)
Fixpoint occupied_from (a : array) (n : Z) : list Z :=
  match a with
  | [] => []
  | x :: a' =>
      if truthy_opt x then n :: occupied_from a' (n + 1)
      else occupied_from a' (n + 1)
  end.

Definition occupied (a : array) : list Z := occupied_from a 1.

(** Of the given screenshots, those whose extraction gave a truthy text,
    as (slot number looked up in [a], text). *)
Definition extracted (env : Env) (a : array) (valid : list string) : list (Z * string) :=
  omap (fun p =>
          match extraction env p with
          | Some t => if truthy t then Some (findIndex p a + 1, t) else None
          | None => None
          end) valid.

(** The delimiter-tagged segments, one after the other. *)
Fixpoint combined (segs : list (Z * string)) : string :=
  match segs with
  | [] => EmptyString
  | (n, t) :: rest => segment n t +:+ combined rest
  end.

(** The texts written into [extractedTexts], in order. *)
Definition stored (segs : list (Z * string)) (a : array) : array :=
  fold_left (fun a '(n, t) => array_set a (n - 1) t) segs a.

(** The answer the pipeline gets for a combined text (answer flag on). *)
Definition answer_for (env : Env) (all : string) : string :=
  match anthropic env (answer_content all) with
  | Some answer => answer
  | None => claude_failed
  end.

(** The test of the sweep. *)
Definition expired (env : Env) (now : Z) (s : Session) : bool :=
  now - startTime s >? session_timeout (CONFIG env) * 60 * 1000.

Definition only_texts (inputs : list Input) : Prop :=
  forall i, In i inputs -> exists msg, i = Text msg.

(** The calls the extraction step makes to the OCR service for an image. *)
Definition ocr_calls_for (env : Env) (p : string) : list Event :=
  if enabled (gemini_ocr (CONFIG env)) then
    EUpload p (upload_ok env p)
      :: (if upload_ok env p then [EGemini p (gemini env p)] else [])
  else [].

(** The frame after the loop has gone through [valid], in world [w']. *)
Definition after_items (env : Env) (valid : list string) (f : Frame) (w' : World) : Frame :=
  let s := session f in
  let segs := extracted env (screenshots s) valid in
  {| session :=
       {| userId := userId s; chatId := chatId s; screenshots := screenshots s;
          extractedTexts := stored segs (extractedTexts s);
          startTime := startTime s |};
     combinedResponse := combinedResponse f;
     allExtractedText := allExtractedText f +:+ combined segs;
     processedCount := processedCount f + Z.of_nat (length segs);
     outside := w' |}.

(** What the loop over [valid] adds to the history, read through the
    observations, and what it does to time and files. *)
Record ItemsDone (env : Env) (a : array) (valid : list string) (w w' : World) : Prop := {
  items_answers : answer_requests (trace w') = answer_requests (trace w);
  items_photos :
    photos_sent (trace w') =
    photos_sent (trace w) ++ map (fun p => (p, caption (findIndex p a + 1))) valid;
  items_ocr :
    ocr_calls (trace w') = ocr_calls (trace w) ++ flat_map (ocr_calls_for env) valid;
  items_unlinks :
    map fst (unlink_calls (trace w')) = map fst (unlink_calls (trace w)) ++ valid;
  items_files : files w' ⊆ files w
}.

(** The pipeline asks for an answer: the flag is on and the combined text
    is not empty. *)
Definition answer_wanted (env : Env) (all : string) : bool :=
  enabled (chatgpt_answer (CONFIG env)) && truthy all.

(** The response string of a run whose combined text is [all], that counted
    [processed] of [total] items and finished at time [now]. *)
Definition response (env : Env) (s : Session) (all : string)
    (total processed now : Z) : string :=
  (if answer_wanted env all
   then response_header +:+ (nl +:+ nl +:+ answer_for env all +:+ nl +:+ nl)
   else response_header)
  +:+ session_summary total processed (round_div (now - startTime s) 1000).

(** What a whole run adds to the history. *)
Record RunDone (env : Env) (s : Session) (w w' : World) : Prop := {
  run_answers :
    answer_requests (trace w') =
    answer_requests (trace w) ++
    (let all := combined (extracted env (screenshots s) (filter_truthy (screenshots s))) in
     if answer_wanted env all then [answer_content all] else []);
  run_photos :
    photos_sent (trace w') =
    photos_sent (trace w) ++
    map (fun p => (p, caption (findIndex p (screenshots s) + 1)))
        (filter_truthy (screenshots s));
  run_ocr :
    ocr_calls (trace w') =
    ocr_calls (trace w) ++ flat_map (ocr_calls_for env) (filter_truthy (screenshots s));
  run_unlinks :
    map fst (unlink_calls (trace w')) =
    map fst (unlink_calls (trace w)) ++ filter_truthy (screenshots s);
  run_files : files w' ⊆ files w
}.

(** Changes of the session map, as they appear in a history. *)
Definition session_event (e : Event) : Prop :=
  match e with
  | ESessionSet _ | ESessionDelete _ => True
  | _ => False
  end.

Definition unlink_event (e : Event) : Prop :=
  match e with
  | EUnlink _ _ => True
  | _ => False
  end.

(** Whatever state it starts in, the computation only appends to the
    history, and only events that satisfy [P]. *)
Definition Emits {S A} (world_of : S -> World) (P : Event -> Prop) (m : M S A) : Prop :=
  forall s, exists evs,
    trace (world_of (snd (m s))) = trace (world_of s) ++ evs /\ Forall P evs.

(** ** Concrete environments used to exercise the statements *)

Module Sample.

(** A cooperative environment: time advances one second per interaction,
    every call succeeds, the OCR service returns a text per image. *)
Definition env : Env :=
  {| CONFIG := CONFIG_default;
     CHAT_IDS := {["42"]};
     IMAGES_DIR := "screenshots";
     clock := fun n => 1000 * Z.of_nat n;
     transport_ok := fun _ => true;
     capture_ok := fun _ => true;
     error_message := fun _ => "ETIMEDOUT";
     upload_ok := fun _ => true;
     gemini := fun p => Some ("text of " +:+ p);
     anthropic := fun _ => Some "the answer";
     unlink_ok := fun _ => true |}.

Definition with_config (c : Config) (e : Env) : Env :=
  {| CONFIG := c; CHAT_IDS := CHAT_IDS e; IMAGES_DIR := IMAGES_DIR e;
     clock := clock e; transport_ok := transport_ok e;
     capture_ok := capture_ok e; error_message := error_message e;
     upload_ok := upload_ok e; gemini := gemini e; anthropic := anthropic e;
     unlink_ok := unlink_ok e |}.

(** The same with the extraction flag off. *)
Definition env_no_ocr : Env :=
  with_config
    {| gemini_ocr := 0; chatgpt_answer := 1; image_quality := 100;
       image_resize := 1280; debug_mode := 1; session_timeout := 45 |} env.

(** The OCR service fails on the image [b.png]. *)
Definition env_b_fails : Env :=
  {| CONFIG := CONFIG_default;
     CHAT_IDS := {["42"]};
     IMAGES_DIR := "screenshots";
     clock := fun n => 1000 * Z.of_nat n;
     transport_ok := fun _ => true;
     capture_ok := fun _ => true;
     error_message := fun _ => "ETIMEDOUT";
     upload_ok := fun _ => true;
     gemini := fun p => if String.eqb p "b.png" then None else Some ("text of " +:+ p);
     anthropic := fun _ => Some "the answer";
     unlink_ok := fun _ => true |}.

(** The operating system refuses to remove any file. *)
Definition env_locked : Env :=
  {| CONFIG := CONFIG_default;
     CHAT_IDS := {["42"]};
     IMAGES_DIR := "screenshots";
     clock := fun n => 1000 * Z.of_nat n;
     transport_ok := fun _ => true;
     capture_ok := fun _ => true;
     error_message := fun _ => "EBUSY";
     upload_ok := fun _ => true;
     gemini := fun p => Some ("text of " +:+ p);
     anthropic := fun _ => Some "the answer";
     unlink_ok := fun _ => false |}.

(** Fifty minutes pass between two interactions: longer than the session
    timeout. *)
Definition env_slow : Env :=
  {| CONFIG := CONFIG_default;
     CHAT_IDS := {["42"]};
     IMAGES_DIR := "screenshots";
     clock := fun n => 3000000 * Z.of_nat n;
     transport_ok := fun _ => true;
     capture_ok := fun _ => true;
     error_message := fun _ => "ETIMEDOUT";
     upload_ok := fun _ => true;
     gemini := fun p => Some ("text of " +:+ p);
     anthropic := fun _ => Some "the answer";
     unlink_ok := fun _ => true |}.

Definition world0 : World := {| tick := 0; files := ∅; trace := [] |}.

Definition bot0 : Bot := {| world := world0; userSessions := [] |}.

Definition from (t : string) : Message :=
  {| text := t; chat_id := "42"; from_id := "7"; username := "alice" |}.

Definition stranger (t : string) : Message :=
  {| text := t; chat_id := "666"; from_id := "9"; username := "mallory" |}.

(** A session with slots 1, 3 and 5 occupied. *)
Definition session135 : Session :=
  {| userId := "7"; chatId := "42";
     screenshots := [Some "a.png"; None; Some "b.png"; None; Some "c.png"];
     extractedTexts := []; startTime := 0 |}.

Definition world135 : World :=
  {| tick := 10; files := {["a.png"; "b.png"; "c.png"]}; trace := [] |}.

(** An empty session created long ago. *)
Definition session_empty : Session :=
  {| userId := "7"; chatId := "42"; screenshots := [];
     extractedTexts := []; startTime := 0 |}.

(** A store whose only session is stale and holds one screenshot. *)
Definition bot_stale : Bot :=
  {| world := {| tick := 5000; files := {["a.png"]}; trace := [] |};
     userSessions :=
       [("7", {| userId := "7"; chatId := "42"; screenshots := [Some "a.png"];
                 extractedTexts := []; startTime := 0 |})] |}.

End Sample.

(** ** Start-up: configuration and launch *)

(** [s.split(sep)] for a one-character separator: the pieces between the
    separators, at least one piece (the empty string yields one empty
    piece). *)
Fixpoint split_on (sep : ascii) (s : string) : list string :=
  match s with
  | EmptyString => [EmptyString]
  | String c s' =>
      if Ascii.eqb c sep then EmptyString :: split_on sep s'
      else
        match split_on sep s' with
        | piece :: rest => String c piece :: rest
        | [] => [String c EmptyString]
        end
  end.

(** The white space of [trim] among the ASCII characters: tab, line feed,
    vertical tab, form feed, carriage return and space.  ([trim] also strips
    the white space outside ASCII, which this byte model leaves alone.) *)
Definition is_space (c : ascii) : bool :=
  let n := nat_of_ascii c in
  ((9 <=? n)%nat && (n <=? 13)%nat || (n =? 32)%nat)%bool.

Fixpoint trim_left (s : string) : string :=
  match s with
  | EmptyString => EmptyString
  | String c s' => if is_space c then trim_left s' else s
  end.

Fixpoint trim_right (s : string) : string :=
  match s with
  | EmptyString => EmptyString
  | String c s' =>
      let r := trim_right s' in
      if (is_space c && String.eqb r EmptyString)%bool then EmptyString
      else String c r
  end.

(** [s.trim()] *)
Definition trim (s : string) : string := trim_right (trim_left s).

(** A variable of [process.env]: absent or a string. *)
Definition falsy_var (v : option string) : bool :=
  match v with
  | Some s => negb (truthy s)
  | None => true
  end.

(** [new Set((process.env.CHAT_IDS || '').split(',').map((id) => id.trim()))] *)
Definition parse_chat_ids (v : option string) : gset string :=
  let raw := match v with
             | Some s => if truthy s then s else EmptyString
             | None => EmptyString
             end in
  list_to_set (map trim (split_on "," raw)).

(** The test that makes the process exit with code 1 before it starts. *)
Definition config_rejected (bot_token chat_ids gemini_key anthropic_key : option string)
  : bool :=
  (falsy_var bot_token
   || (size (parse_chat_ids chat_ids) =? 0)%nat
   || falsy_var gemini_key
   || falsy_var anthropic_key)%bool.

(** What [launchBot] does, as seen from outside: calls of [bot.launch()]
    with their outcome, and waits. *)
Inductive LaunchEvent :=
| ELaunch (attempt : nat) (ok : bool)
| EWait (delay : Z).

(** How the promise of [launchBot] settles: with [true], with [undefined]
    (the loop ran out without an attempt), or rejected with the last
    error. *)
Inductive LaunchOutcome :=
| Launched
| NotAttempted
| LaunchFailed (attempt : nat).

(** The [for] loop of [launchBot], [left] iterations before [i] reaches
    [retries]; [launch_ok i] tells whether the call of [bot.launch()] in
    iteration [i] resolves. *)
Fixpoint launch_loop (launch_ok : nat -> bool) (retries delay : Z) (left i : nat)
  : LaunchOutcome * list LaunchEvent :=
  match left with
  | O => (NotAttempted, [])
  | S left' =>
      if launch_ok i then (Launched, [ELaunch i true])
      else if Z.of_nat i <? retries - 1 then
        let '(outcome, events) := launch_loop launch_ok retries delay left' (S i) in
        (outcome, ELaunch i false :: EWait delay :: events)
      else (LaunchFailed i, [ELaunch i false])
  end.

(** [launchBot(retries, delay)] for whole numbers. *)
Definition launchBot (launch_ok : nat -> bool) (retries delay : Z)
  : LaunchOutcome * list LaunchEvent :=
  launch_loop launch_ok retries delay (Z.to_nat retries) 0.

(** [launchBot().catch(err => process.exit(1))] with the default arguments:
    the exit code, if the process exits. *)
Definition startup (launch_ok : nat -> bool) : option Z * list LaunchEvent :=
  match launchBot launch_ok 5 5000 with
  | (LaunchFailed _, events) => (Some 1, events)
  | (_, events) => (None, events)
  end.

Definition launches (events : list LaunchEvent) : list (nat * bool) :=
  omap (fun e => match e with ELaunch i ok => Some (i, ok) | _ => None end) events.

Definition waits (events : list LaunchEvent) : list Z :=
  omap (fun e => match e with EWait d => Some d | _ => None end) events.

(** ** More vocabulary *)

(** The computation keeps the property [I] of its state, whether it returns
    or throws. *)
Definition Keeps {S A} (I : S -> Prop) (m : M S A) : Prop :=
  forall s, I s -> I (snd (m s)).

(** A session as the store should hold it under key [k]: it carries that
    user id, and its two arrays have at most nine slots. *)
Definition session_ok (k : string) (s : Session) : Prop :=
  userId s = k
  /\ (length (screenshots s) <= 9)%nat
  /\ (length (extractedTexts s) <= 9)%nat.

(** The store: one entry per user, each entry a session of that user. *)
Definition store_ok (m : SessionMap) : Prop :=
  NoDup (map fst m) /\ forall k s, In (k, s) m -> session_ok k s.

(** The text the single-shot flow works with for a screenshot. *)
Definition single_shot_text (env : Env) (p : string) : string :=
  if enabled (gemini_ocr (CONFIG env)) then
    match (if upload_ok env p then gemini env p else None) with
    | Some t => if truthy t then t else "Failed to extract text"
    | None => "Failed to extract text"
    end
  else "No text extracted".

(** The file a capture made at interaction [n] writes. *)
Definition screenshot_path (env : Env) (n : nat) : string :=
  path_join (IMAGES_DIR env) ("screenshot-" +:+ num (clock env n) +:+ ".png").

(** ** More concrete cases *)

Module Cases.

(** The sample environment with another allow-list. *)
Definition with_chat_ids (ids : gset string) (e : Env) : Env :=
  {| CONFIG := CONFIG e; CHAT_IDS := ids; IMAGES_DIR := IMAGES_DIR e;
     clock := clock e; transport_ok := transport_ok e;
     capture_ok := capture_ok e; error_message := error_message e;
     upload_ok := upload_ok e; gemini := gemini e; anthropic := anthropic e;
     unlink_ok := unlink_ok e |}.

(** CHAT_IDS was not set. *)
Definition env_no_ids : Env := with_chat_ids (parse_chat_ids None) Sample.env.

(** The capture primitive always fails. *)
Definition env_no_capture : Env :=
  {| CONFIG := CONFIG_default;
     CHAT_IDS := {["42"]};
     IMAGES_DIR := "screenshots";
     clock := fun n => 1000 * Z.of_nat n;
     transport_ok := fun _ => true;
     capture_ok := fun _ => false;
     error_message := fun _ => "no display";
     upload_ok := fun _ => true;
     gemini := fun p => Some ("text of " +:+ p);
     anthropic := fun _ => Some "the answer";
     unlink_ok := fun _ => true |}.

(** The chat transport is down. *)
Definition env_offline : Env :=
  {| CONFIG := CONFIG_default;
     CHAT_IDS := {["42"]};
     IMAGES_DIR := "screenshots";
     clock := fun n => 1000 * Z.of_nat n;
     transport_ok := fun _ => false;
     capture_ok := fun _ => true;
     error_message := fun _ => "ETIMEDOUT";
     upload_ok := fun _ => true;
     gemini := fun p => Some ("text of " +:+ p);
     anthropic := fun _ => Some "the answer";
     unlink_ok := fun _ => true |}.

(** The answer service fails. *)
Definition env_no_answer : Env :=
  {| CONFIG := CONFIG_default;
     CHAT_IDS := {["42"]};
     IMAGES_DIR := "screenshots";
     clock := fun n => 1000 * Z.of_nat n;
     transport_ok := fun _ => true;
     capture_ok := fun _ => true;
     error_message := fun _ => "overloaded";
     upload_ok := fun _ => true;
     gemini := fun p => Some ("text of " +:+ p);
     anthropic := fun _ => None;
     unlink_ok := fun _ => true |}.

(** The upload to the OCR service fails for every image. *)
Definition env_all_fail : Env :=
  {| CONFIG := CONFIG_default;
     CHAT_IDS := {["42"]};
     IMAGES_DIR := "screenshots";
     clock := fun n => 1000 * Z.of_nat n;
     transport_ok := fun _ => true;
     capture_ok := fun _ => true;
     error_message := fun _ => "quota";
     upload_ok := fun _ => false;
     gemini := fun p => Some ("text of " +:+ p);
     anthropic := fun _ => Some "the answer";
     unlink_ok := fun _ => true |}.

(** The store after user 7 captured slots 1 and 3. *)
Definition bot_two_shots : Bot :=
  run Sample.env Sample.bot0 [Text (Sample.from "1"); Text (Sample.from "3")].

(** Another allowed user. *)
Definition bob : Message :=
  {| text := "0"; chat_id := "42"; from_id := "8"; username := "bob" |}.

(** Launch attempts: the third one is the first to succeed. *)
Definition third_time_lucky (i : nat) : bool := (2 <=? i)%nat.

Definition never (i : nat) : bool := false.

End Cases.

(** ** Runs under a chat transport that may fail *)

(** The screenshots whose photo the chat received, in order: the items
    that got as far as the extraction step. *)
Definition photos_delivered (t : list Event) : list string :=
  omap (fun e => match e with EPhoto s _ true => Some s | _ => None end) t.

(** The screenshots whose removal was asked for, in order: in a batch run,
    the items that got as far as the last step of the loop body. *)
Definition acknowledged (t : list Event) : list string :=
  map fst (unlink_calls t).

(** A reply that tells the user that the text of a screenshot was
    extracted: it starts like the notice of line 320. *)
Definition is_extracted_notice (text : string) : bool :=
  String.prefix "📄 *Screenshot " text.

(** The notices of an extracted text that the chat received, in order. *)
Definition notices_delivered (t : list Event) : list string :=
  omap (fun e => match e with
                 | EReply text true =>
                     if is_extracted_notice text then Some text else None
                 | _ => None
                 end) t.

(** The history ends with a reply, delivered or lost. *)
Definition ends_with_reply (ok : bool) (t : list Event) : Prop :=
  exists text, last t = Some (EReply text ok).

(** The photo of a screenshot as the loop sends it: captioned with the
    number found by looking the path up in the array. *)
Definition captioned (a : array) (p : string) : string * string :=
  (p, caption (findIndex p a + 1)).

(** What a stretch of a batch run did to the frame, whatever the chat
    transport let through; [evs] is what it added to the history and [a] the
    session's array of screenshots. *)
Record Did (env : Env) (a : array) (f f' : Frame) (evs : list Event) : Prop := {
  did_trace : trace (outside f') = trace (outside f) ++ evs;
  did_user : userId (session f') = userId (session f);
  did_chat : chatId (session f') = chatId (session f);
  did_shots : screenshots (session f') = screenshots (session f);
  did_start : startTime (session f') = startTime (session f);
  did_texts :
    extractedTexts (session f') =
    stored (extracted env a (photos_delivered evs)) (extractedTexts (session f));
  did_all :
    allExtractedText f' =
    allExtractedText f +:+ combined (extracted env a (photos_delivered evs));
  did_count :
    processedCount f' =
    processedCount f + Z.of_nat (length (extracted env a (acknowledged evs)));
  did_noticed :
    processedCount f' = processedCount f + Z.of_nat (length (notices_delivered evs));
  did_ocr : ocr_calls evs = flat_map (ocr_calls_for env) (photos_delivered evs);
  did_files : files (outside f') ⊆ files (outside f)
}.

(** A stretch of a batch run that goes over items of [valid]: which of
    them were reached and acknowledged, and which photos were sent. *)
Record Progress (env : Env) (a : array) (valid : list string) (f f' : Frame)
    (evs : list Event) : Prop := {
  pr_did : Did env a f f' evs;
  pr_reached : photos_delivered evs `sublist_of` valid;
  pr_acked : acknowledged evs `sublist_of` photos_delivered evs;
  pr_photos : photos_sent evs `sublist_of` map (captioned a) valid;
  pr_full :
    Delivers env ->
    photos_delivered evs = valid /\ acknowledged evs = valid
    /\ photos_sent evs = map (captioned a) valid
}.

(** ** The texts as a reader must find them *)

(** The combined text: every extracted text under a delimiter line that
    carries its slot number. *)
Fixpoint delimited (segs : list (Z * string)) : string :=
  match segs with
  | [] => EmptyString
  | (n, t) :: rest =>
      nl +:+ nl +:+ "----- SCREENSHOT " +:+ num n +:+ " -----" +:+ nl +:+ nl +:+ t
         +:+ delimited rest
  end.

(** The first line of the response. *)
Definition header_line : string :=
  "📸 *Screenshot Analysis Results* 📸" +:+ nl +:+ nl.

(** The summary at the end of the response: the three counts and the
    duration, one per line. *)
Definition summary_lines (total success failed seconds : Z) : string :=
  nl +:+ "📊 *Session Summary:*" +:+ nl
     +:+ "• Total screenshots: " +:+ num total +:+ nl
     +:+ "• Successfully processed: " +:+ num success +:+ nl
     +:+ "• Failed: " +:+ num failed +:+ nl
     +:+ "• Session duration: " +:+ num seconds +:+ " seconds" +:+ nl.

(** The answer request: the combined text between quotes, inside the fixed
    instruction. *)
Definition answer_prompt (text : string) : string :=
  "The extracted text from the images is: " +:+ dq +:+ text +:+ dq
     +:+ ". Please provide the answer or code or anything relevant to solve this question. No extra text, be very straight forward about the answer, no explanation or stuff, only the answer".

(** Of the given items (slot number, screenshot), those whose extraction
    gave a text, as (slot number, text). *)
Definition texts_of (env : Env) (items : list (Z * string)) : list (Z * string) :=
  omap (fun '(n, p) =>
          match extraction env p with
          | Some t => if truthy t then Some (n, t) else None
          | None => None
          end) items.

(** ** Environments that lose a chat call *)

Module Lossy.

(** The environment [e] in which the chat call made at interaction [k] is
    lost. *)
Definition fail_at (k : nat) (e : Env) : Env :=
  {| CONFIG := CONFIG e; CHAT_IDS := CHAT_IDS e; IMAGES_DIR := IMAGES_DIR e;
     clock := clock e;
     transport_ok := fun n => (negb (n =? k)%nat && transport_ok e n)%bool;
     capture_ok := capture_ok e; error_message := error_message e;
     upload_ok := upload_ok e; gemini := gemini e; anthropic := anthropic e;
     unlink_ok := unlink_ok e |}.

(** A session that holds the same file in slots 1 and 3: two captures named
    after the same millisecond. *)
Definition session_twice : Session :=
  {| userId := "7"; chatId := "42";
     screenshots := [Some "a.png"; None; Some "a.png"; None; Some "c.png"];
     extractedTexts := []; startTime := 0 |}.

End Lossy.

(** * Properties *)

Arguments num : simpl never.
Arguments truthy : simpl never.
Arguments enabled : simpl never.
Arguments findIndex : simpl never.
Arguments array_set : simpl never.
Arguments segment : simpl never.
Arguments caption : simpl never.
Arguments msg_start : simpl never.
Arguments msg_progress : simpl never.
Arguments msg_extracted : simpl never.
Arguments msg_not_extracted : simpl never.
Arguments msg_item_failed : simpl never.
Arguments msg_ocr_complete : simpl never.
Arguments msg_all_text : simpl never.
Arguments msg_sending : simpl never.
Arguments msg_claude_error : simpl never.
Arguments session_summary : simpl never.
Arguments answer_content : simpl never.
Arguments response_header : simpl never.
Arguments ocr_disabled : simpl never.
Arguments ocr_disabled_in_flags : simpl never.
Arguments ocr_prompt : simpl never.
Arguments claude_failed : simpl never.
Arguments claude_disabled_in_flags : simpl never.
Arguments nothing_to_do : simpl never.
Arguments msg_taking : simpl never.
Arguments msg_captured : simpl never.
Arguments msg_no_screenshots : simpl never.
Arguments msg_starting : simpl never.
Arguments msg_complete : simpl never.
Arguments msg_command_failed : simpl never.
Arguments round_div : simpl never.
Arguments path_join : simpl never.
Arguments String.append : simpl never.

(** ** Strings and arrays *)

Lemma append_assoc (a b c : string) : (a +:+ b) +:+ c = a +:+ (b +:+ c).
Proof.
  induction a as [|ch a IH]; [reflexivity|].
  change (String ch ((a +:+ b) +:+ c) = String ch (a +:+ (b +:+ c))).
  now rewrite IH.
Qed.

Lemma append_empty_r (a : string) : a +:+ EmptyString = a.
Proof.
  induction a as [|ch a IH]; [reflexivity|].
  change (String ch (a +:+ EmptyString) = String ch a). now rewrite IH.
Qed.

Lemma truthy_append_r (a b : string) : truthy b = true -> truthy (a +:+ b) = true.
Proof. destruct a; [now intros|reflexivity]. Qed.

Lemma truthy_segment (n : Z) (t : string) : truthy (segment n t) = true.
Proof. reflexivity. Qed.

Lemma truthy_ocr_disabled : truthy ocr_disabled = true.
Proof. reflexivity. Qed.

Lemma truthy_combined (segs : list (Z * string)) :
  truthy (combined segs) = negb (length segs =? 0)%nat.
Proof. destruct segs as [|[n t] rest]; reflexivity. Qed.

Lemma combined_app (l1 l2 : list (Z * string)) :
  combined (l1 ++ l2) = combined l1 +:+ combined l2.
Proof.
  induction l1 as [|[n t] l1 IH]; [reflexivity|].
  cbn [combined app]. now rewrite IH, append_assoc.
Qed.

(** An observation of a history extended by one event. *)
Lemma obs_snoc {B} (g : Event -> option B) (t : list Event) (e : Event) :
  omap g (t ++ [e]) = omap g t ++ match g e with Some b => [b] | None => [] end.
Proof. rewrite omap_app. cbn. destruct (g e); reflexivity. Qed.

Ltac frame_simpl :=
  cbn [outside session combinedResponse allExtractedText processedCount
       append_text append_response set_extractedText count_processed reset_session
       userId chatId screenshots extractedTexts startTime
       interact note turn tick files trace fst snd].

Section Facts.

Context (env : Env).

(** ** Outside calls *)

Lemma transport_delivers (e : bool -> Event) (w : World) :
  Delivers env ->
  transport env e w = (Ok (tick w), interact (e true) (files w) w).
Proof. intros H. unfold transport. now rewrite H. Qed.

(** With the flag on, [extractTextFromImage] returns what [extraction]
    says, whatever the world. *)
Lemma extractTextFromImage_result (p : string) (w : World) :
  enabled (gemini_ocr (CONFIG env)) = true ->
  fst (extractTextFromImage env p w) = Ok (extraction env p).
Proof.
  intros Hon. unfold extractTextFromImage, extraction, uploadToGemini.
  rewrite Hon. cbn.
  unfold try_catch, bind, sendMessage, throw, ret.
  destruct (upload_ok env p); cbn; [|reflexivity].
  destruct (gemini env p); reflexivity.
Qed.

(** ** One item of the batch *)

Lemma item_spec (total i : Z) (p : string) (f : Frame) :
  Delivers env ->
  exists w',
    process_item env total i p f = (Ok tt, after_items env [p] f w')
    /\ ItemsDone env (screenshots (session f)) [p] (outside f) w'.
Proof.
  intros Hd. destruct f as [[uid cid shots texts st] cr all pc w].
  unfold process_item, after_items, extracted, extraction, screenshotNumber_of.
  unfold try_catch, bind, io, modify, reply, replyWithPhoto, ret.
  frame_simpl. cbn [omap list_omap].
  rewrite !(transport_delivers _ _ Hd).
  frame_simpl.
  unfold extractTextFromImage, uploadToGemini, sendMessage, try_catch, bind,
    throw, ret, unlink.
  destruct (enabled (gemini_ocr (CONFIG env))) eqn:Hon; cbn [negb];
    [destruct (upload_ok env p) eqn:Hup; [destruct (gemini env p) as [t|] eqn:Hg|]|];
    frame_simpl.
  all: try (destruct (truthy t) eqn:Ht).
  all: try (rewrite truthy_ocr_disabled).
  all: frame_simpl; rewrite ?(transport_delivers _ _ Hd); frame_simpl.
  all: match goal with
       | |- context [bool_decide ?P && ?b] => destruct (bool_decide P && b)
       end.
  all: frame_simpl; rewrite ?(transport_delivers _ _ Hd); frame_simpl.
  all: cbn [stored fold_left combined length Z.of_nat Pos.of_succ_nat];
       rewrite ?append_empty_r, ?Z.add_0_r.
  all: eexists; split; [reflexivity|].
  all: constructor; frame_simpl;
       unfold answer_requests, photos_sent, ocr_calls, unlink_calls, ocr_calls_for;
       cbn [map flat_map app];
       try rewrite Hon; try rewrite Hup; try rewrite Hg;
       rewrite ?obs_snoc; cbn [map flat_map app]; rewrite ?app_nil_r, <- ?app_assoc.
  all: try reflexivity.
  all: try (rewrite ?map_app; reflexivity).
  all: apply subseteq_difference_l; reflexivity.
Qed.

(** ** The loop over the occupied slots *)

Lemma extracted_cons (a : array) (p : string) (rest : list string) :
  extracted env a (p :: rest) = extracted env a [p] ++ extracted env a rest.
Proof. unfold extracted. now rewrite <- omap_app. Qed.

Lemma stored_app (l1 l2 : list (Z * string)) (a : array) :
  stored (l1 ++ l2) a = stored l2 (stored l1 a).
Proof. unfold stored. apply fold_left_app. Qed.

Lemma after_items_cons (p : string) (rest : list string) (f : Frame) (w' w'' : World) :
  after_items env rest (after_items env [p] f w') w'' = after_items env (p :: rest) f w''.
Proof.
  unfold after_items. frame_simpl.
  rewrite (extracted_cons _ p rest), stored_app, combined_app, append_assoc.
  rewrite length_app, Nat2Z.inj_add, Z.add_assoc. reflexivity.
Qed.

Lemma after_items_nil (f : Frame) : after_items env [] f (outside f) = f.
Proof.
  destruct f as [[uid cid shots texts st] cr all pc w].
  unfold after_items. cbn. now rewrite append_empty_r, Z.add_0_r.
Qed.

Lemma items_done_nil (a : array) (w : World) : ItemsDone env a [] w w.
Proof. constructor; cbn; rewrite ?app_nil_r; reflexivity. Qed.

Lemma items_done_cons (a : array) (p : string) (rest : list string) (w w' w'' : World) :
  ItemsDone env a [p] w w' -> ItemsDone env a rest w' w'' ->
  ItemsDone env a (p :: rest) w w''.
Proof.
  intros [A1 P1 O1 U1 F1] [A2 P2 O2 U2 F2]. constructor.
  - now rewrite A2.
  - rewrite P2, P1, <- app_assoc. reflexivity.
  - rewrite O2, O1, <- app_assoc. cbn [flat_map]. now rewrite app_nil_r.
  - rewrite U2, U1, <- app_assoc. reflexivity.
  - etransitivity; eassumption.
Qed.

(** Under a transport that delivers, the loop never throws: whatever the
    OCR service and the file system do, every item is gone through and the
    frame afterwards is [after_items]. *)
Lemma items_spec (total : Z) (valid : list string) :
  Delivers env ->
  forall (i : Z) (f : Frame),
  exists w',
    process_items env total i valid f = (Ok tt, after_items env valid f w')
    /\ ItemsDone env (screenshots (session f)) valid (outside f) w'.
Proof.
  intros Hd. induction valid as [|p rest IH]; intros i f.
  - exists (outside f). split; [|apply items_done_nil].
    cbn. unfold ret. now rewrite after_items_nil.
  - destruct (item_spec total i p f Hd) as (w1 & E1 & D1).
    destruct (IH (i + 1) (after_items env [p] f w1)) as (w2 & E2 & D2).
    exists w2. split.
    + cbn [process_items]. unfold bind at 1. rewrite E1, E2.
      now rewrite after_items_cons.
    + eapply items_done_cons; eassumption.
Qed.

(** ** The answer step and the end of a run *)

Lemma answer_step_spec (f : Frame) :
  Delivers env ->
  exists w',
    answer_step env f =
      (Ok tt,
       {| session := session f;
          combinedResponse :=
            (if answer_wanted env (allExtractedText f)
             then combinedResponse f +:+
                  (nl +:+ nl +:+ answer_for env (allExtractedText f) +:+ nl +:+ nl)
             else combinedResponse f);
          allExtractedText := allExtractedText f;
          processedCount := processedCount f;
          outside := w' |})
    /\ answer_requests (trace w') =
       answer_requests (trace (outside f)) ++
       (if answer_wanted env (allExtractedText f)
        then [answer_content (allExtractedText f)] else [])
    /\ photos_sent (trace w') = photos_sent (trace (outside f))
    /\ ocr_calls (trace w') = ocr_calls (trace (outside f))
    /\ unlink_calls (trace w') = unlink_calls (trace (outside f))
    /\ files w' = files (outside f).
Proof.
  intros Hd. destruct f as [s cr all pc w].
  unfold answer_step, answer_wanted, answer_for. frame_simpl.
  destruct (enabled (chatgpt_answer (CONFIG env))) eqn:Hon; cbn [andb when];
    [destruct (truthy all) eqn:Hall|]; cbn [when].
  2,3: exists w; unfold ret; rewrite !app_nil_r; auto 10.
  unfold try_catch, bind, io, modify, reply, ret, getAnswerFromChatGPT.
  rewrite Hon. cbn [negb]. unfold try_catch.
  frame_simpl. rewrite !(transport_delivers _ _ Hd). frame_simpl.
  destruct (anthropic env (answer_content all)) as [answer|] eqn:Ha;
    unfold ret; frame_simpl; rewrite ?(transport_delivers _ _ Hd); frame_simpl.
  all: eexists; split; [reflexivity|].
  all: frame_simpl; unfold answer_requests, photos_sent, ocr_calls, unlink_calls;
       rewrite !obs_snoc; cbn [app]; rewrite ?app_nil_r; auto 10.
Qed.

(** A run on a session whose array is not empty, under a transport that
    delivers: it returns, whatever the OCR service, the answer service and
    the file system do; the response, the locals and the session at the end
    are these. *)
Lemma run_spec (s : Session) (w : World) :
  Delivers env -> screenshots s <> [] ->
  exists w',
    let valid := filter_truthy (screenshots s) in
    let segs := extracted env (screenshots s) valid in
    let text :=
      response env s (combined segs) (Z.of_nat (length valid))
        (Z.of_nat (length segs)) (clock env (tick w')) in
    processSessionScreenshots env s w =
      (Ok text,
       {| session :=
            {| userId := userId s; chatId := chatId s; screenshots := [];
               extractedTexts := []; startTime := clock env (tick w') |};
          combinedResponse := text;
          allExtractedText := combined segs;
          processedCount := Z.of_nat (length segs);
          outside := w' |})
    /\ RunDone env s w w'.
Proof.
  intros Hd Hne. destruct s as [uid cid shots texts st]. cbn in Hne.
  unfold processSessionScreenshots, processSessionScreenshots_from. frame_simpl.
  assert (Hlen : (length shots =? 0)%nat = false) by (destruct shots; [congruence|reflexivity]).
  rewrite Hlen.
  unfold bind at 1. unfold io at 1, reply at 1. rewrite (transport_delivers _ _ Hd). frame_simpl.
  unfold bind at 1.
  match goal with |- context [process_items env ?t ?i ?v ?f] =>
     destruct (items_spec t v Hd i f) as (w1 & E1 & D1); rewrite E1 end.
  clear E1. unfold after_items. frame_simpl. cbn [outside session screenshots] in D1.
  unfold bind at 1. unfold bind at 1. unfold io at 1, reply at 1. rewrite (transport_delivers _ _ Hd). frame_simpl.
  unfold bind at 1.
  match goal with |- context [answer_step env ?f] =>
     destruct (answer_step_spec f Hd) as (w2 & E2 & A2 & P2 & O2 & U2 & F2); rewrite E2 end.
  clear E2. frame_simpl. cbn [outside session allExtractedText] in *.
  unfold finish, bind, io, Date_now, modify. frame_simpl.
  change (EmptyString +:+ ?x) with x in *.
  destruct D1 as [A1 P1 O1 U1 F1]. cbn [trace interact files] in *.
  unfold answer_requests, photos_sent, ocr_calls, unlink_calls in *.
  rewrite obs_snoc in A1; rewrite obs_snoc in P1; rewrite obs_snoc in O1;
    rewrite obs_snoc in U1.
  rewrite obs_snoc in A2; rewrite obs_snoc in P2; rewrite obs_snoc in O2;
    rewrite obs_snoc in U2.
  cbn [app] in *. rewrite ?app_nil_r in *.
  exists w2; split.
  - unfold response. cbn [startTime]. destruct (answer_wanted env _); reflexivity.
  - constructor; cbn [screenshots];
      unfold answer_requests, photos_sent, ocr_calls, unlink_calls.
    + now rewrite A2, A1.
    + now rewrite P2, P1.
    + now rewrite O2, O1.
    + rewrite U2, ?app_nil_r. exact U1.
    + rewrite F2. exact F1.
Qed.

End Facts.

(** ** Slot numbers *)

Lemma filter_truthy_truthy (a : array) (p : string) :
  In p (filter_truthy a) -> truthy p = true.
Proof.
  induction a as [|[x|] a IH]; cbn [filter_truthy]; [intros []| |exact IH].
  destruct (truthy x) eqn:Hx; [|exact IH].
  intros [->|H]; auto.
Qed.

Lemma filter_truthy_occupied_length (a : array) (n : Z) :
  length (filter_truthy a) = length (occupied_from a n).
Proof.
  revert n. induction a as [|[x|] a IH]; intros n; cbn [filter_truthy occupied_from truthy_opt];
    [reflexivity| |apply IH].
  destruct (truthy x); cbn [length]; now rewrite (IH (n + 1)).
Qed.

(** When no two slots hold the same screenshot, looking a screenshot up by
    value finds its own slot. *)
Lemma slot_numbers_from (a : array) (i : Z) :
  NoDup (filter_truthy a) ->
  map (fun p => findIndex_from p a i + 1) (filter_truthy a) = occupied_from a (i + 1).
Proof.
  revert i. induction a as [|[x|] a IH]; intros i Hnd;
    cbn [filter_truthy occupied_from truthy_opt findIndex_from] in *.
  - reflexivity.
  - destruct (truthy x) eqn:Hx.
    + apply NoDup_cons in Hnd as [Hnotin Hnd]. cbn [map].
      rewrite String.eqb_refl. f_equal.
      rewrite <- (IH (i + 1) Hnd). apply map_ext_in. intros p Hp.
      destruct (String.eqb_spec x p) as [->|_]; [|reflexivity].
      exfalso. apply Hnotin. now apply list_elem_of_In.
    + rewrite <- (IH (i + 1) Hnd). apply map_ext_in. intros p Hp.
      destruct (String.eqb_spec x p) as [->|_]; [|reflexivity].
      apply filter_truthy_truthy in Hp. congruence.
  - exact (IH (i + 1) Hnd).
Qed.

Lemma slot_numbers (a : array) :
  NoDup (filter_truthy a) ->
  map (fun p => findIndex p a + 1) (filter_truthy a) = occupied a.
Proof. apply slot_numbers_from. Qed.

(** ** Histories only grow *)

Section Emits.

Context {S : Type} (world_of : S -> World) (P : Event -> Prop).

Lemma emits_ret {A} (a : A) : Emits world_of P (ret a).
Proof. intros s. exists []. now rewrite app_nil_r. Qed.

Lemma emits_throw {A} (e : string) : Emits world_of P (@throw S A e).
Proof. intros s. exists []. now rewrite app_nil_r. Qed.

Lemma emits_get : Emits world_of P (fun s : S => (Ok s, s)).
Proof. intros s. exists []. now rewrite app_nil_r. Qed.

Lemma emits_modify (g : S -> S) :
  (forall s, world_of (g s) = world_of s) -> Emits world_of P (modify g).
Proof. intros Hg s. exists []. cbn. now rewrite Hg, app_nil_r. Qed.

Lemma emits_bind {A B} (m : M S A) (k : A -> M S B) :
  Emits world_of P m -> (forall a, Emits world_of P (k a)) ->
  Emits world_of P (bind m k).
Proof.
  intros Hm Hk s. unfold bind. destruct (Hm s) as (e1 & E1 & F1).
  destruct (m s) as [[a|e] s1]; cbn [snd] in E1.
  - destruct (Hk a s1) as (e2 & E2 & F2). exists (e1 ++ e2).
    rewrite E2, E1, app_assoc. split; [reflexivity|now apply Forall_app].
  - exists e1. now split.
Qed.

Lemma emits_try {A} (m : M S A) (h : string -> M S A) :
  Emits world_of P m -> (forall e, Emits world_of P (h e)) ->
  Emits world_of P (try_catch m h).
Proof.
  intros Hm Hh s. unfold try_catch. destruct (Hm s) as (e1 & E1 & F1).
  destruct (m s) as [[a|e] s1]; cbn [snd] in E1.
  - exists e1. now split.
  - destruct (Hh e s1) as (e2 & E2 & F2). exists (e1 ++ e2).
    rewrite E2, E1, app_assoc. split; [reflexivity|now apply Forall_app].
Qed.

Lemma emits_when (b : bool) (m : M S unit) :
  Emits world_of P m -> Emits world_of P (when b m).
Proof. destruct b; [trivial|intros _; apply emits_ret]. Qed.

Lemma emits_self {A} (k : S -> M S A) :
  (forall s0, Emits world_of P (k s0)) -> Emits world_of P (fun s => k s s).
Proof. intros H s. apply (H s s). Qed.

End Emits.

Section EmitsCalls.

Context (env : Env) (P : Event -> Prop).

Lemma emits_transport (e : bool -> Event) :
  (forall ok, P (e ok)) -> Emits id P (transport env e).
Proof.
  intros He w. exists [e (transport_ok env (tick w))]. split; [reflexivity|].
  constructor; [apply He|constructor].
Qed.

Lemma emits_unlink (p : string) :
  (forall ok, P (EUnlink p ok)) -> Emits id P (unlink env p).
Proof.
  intros He w. eexists [_]. split; [reflexivity|].
  constructor; [apply He|constructor].
Qed.

Lemma emits_takeScreenshot :
  (forall p ok, P (ECapture p ok)) -> Emits id P (takeScreenshot env).
Proof.
  intros He w. eexists [_]. split; [reflexivity|].
  constructor; [apply He|constructor].
Qed.

Lemma emits_extractTextFromImage (p : string) :
  (forall q ok, P (EUpload q ok)) -> (forall q r, P (EGemini q r)) ->
  Emits id P (extractTextFromImage env p).
Proof.
  intros Hu Hg. unfold extractTextFromImage.
  destruct (negb _); [apply emits_ret|].
  apply emits_try; [|intros; apply emits_ret].
  apply emits_bind.
  - unfold uploadToGemini. destruct (negb _); [apply emits_ret|].
    intros w. eexists [_]. split; [reflexivity|]. constructor; [apply Hu|constructor].
  - intros [f|]; [|apply emits_throw].
    apply emits_bind; [|intros; apply emits_ret].
    intros w. eexists [_]. split; [reflexivity|]. constructor; [apply Hg|constructor].
Qed.

Lemma emits_getAnswerFromChatGPT (promptText : string) :
  (forall c r, P (EAnthropic c r)) ->
  Emits id P (getAnswerFromChatGPT env promptText).
Proof.
  intros Ha. unfold getAnswerFromChatGPT.
  destruct (negb _); [apply emits_ret|].
  apply emits_try; [|intros; apply emits_ret].
  intros w. eexists [_]. split; [reflexivity|]. constructor; [apply Ha|constructor].
Qed.

Lemma emits_hio {A} (m : M World A) : Emits id P m -> Emits around P (hio m).
Proof.
  intros Hm h. destruct (Hm (around h)) as (evs & E & F). exists evs.
  unfold hio. destruct (m (around h)) as [r w']. now split.
Qed.

Lemma emits_io {A} (m : M World A) : Emits id P m -> Emits outside P (io m).
Proof.
  intros Hm f. destruct (Hm (outside f)) as (evs & E & F). exists evs.
  unfold io. destruct (m (outside f)) as [r w']. now split.
Qed.

End EmitsCalls.

(** ** The session map *)

Lemma map_set_fresh (k : string) (v : Session) (m : SessionMap) :
  map_get k m = None -> map_set k v m = m ++ [(k, v)].
Proof.
  induction m as [|[k' v'] m IH]; cbn [map_get map_set app]; [reflexivity|].
  destruct (String.eqb k' k); [discriminate|]. intros H. now rewrite IH.
Qed.

Lemma map_set_again (k : string) (v v' : Session) (m : SessionMap) :
  map_set k v' (map_set k v m) = map_set k v' m.
Proof.
  induction m as [|[k' v0] m IH]; cbn [map_set].
  - now rewrite String.eqb_refl.
  - destruct (String.eqb k' k) eqn:E; cbn [map_set]; rewrite E; [reflexivity|].
    now rewrite IH.
Qed.

Lemma map_has_map_set (k k' : string) (v : Session) (m : SessionMap) :
  map_has k m = true -> map_has k (map_set k' v m) = true.
Proof.
  unfold map_has. induction m as [|[k0 v0] m IH]; cbn [map_get map_set]; [discriminate|].
  destruct (String.eqb k0 k') eqn:E'; cbn [map_get].
  - destruct (String.eqb k0 k); [reflexivity|trivial].
  - destruct (String.eqb k0 k); [reflexivity|exact IH].
Qed.

Lemma map_has_app_r (k : string) (v : Session) (m : SessionMap) :
  map_has k (m ++ [(k, v)]) = true.
Proof.
  unfold map_has. induction m as [|[k0 v0] m IH]; cbn [map_get app].
  - now rewrite String.eqb_refl.
  - destruct (String.eqb k0 k); [reflexivity|exact IH].
Qed.

Section RouterFacts.

Context (env : Env).

(** No handler of a text message removes an entry of the map. *)
Lemma on_text_keeps_keys (msg : Message) (b : Bot) (k : string) :
  map_has k (userSessions b) = true ->
  map_has k (userSessions (snd (on_text env msg b))) = true.
Proof.
  intros Hk. unfold on_text.
  destruct (negb _); [exact Hk|].
  destruct (includes _ _).
  { cbn [world userSessions]. destruct (single_shot env _); exact Hk. }
  destruct (single_digit _) as [digit|]; [|exact Hk].
  unfold getOrCreateSession, createSession. cbn [userSessions world].
  destruct (map_get (from_id msg) (userSessions b)) as [s|].
  - destruct (stack_command env digit _) as [r h]. cbn [snd userSessions].
    now apply map_has_map_set.
  - destruct (stack_command env digit _) as [r h]. cbn [snd userSessions].
    now apply map_has_map_set, map_has_map_set.
Qed.

Lemma run_texts_keep_keys (inputs : list Input) (b : Bot) (k : string) :
  only_texts inputs ->
  map_has k (userSessions b) = true ->
  map_has k (userSessions (run env b inputs)) = true.
Proof.
  revert b. induction inputs as [|i inputs IH]; intros b Ht Hk; [exact Hk|].
  cbn [run fold_left]. apply IH.
  - intros j Hj. apply Ht. now right.
  - destruct (Ht i (or_introl eq_refl)) as [msg ->]. cbn [step].
    now apply on_text_keeps_keys.
Qed.

(** ** The sweep *)

Lemma unlink_each_files (ps : list string) (w : World) (q : string) :
  q ∈ files (unlink_each env ps w) <->
  q ∈ files w /\ ~ (In q ps /\ unlink_ok env q = true).
Proof.
  revert w. induction ps as [|p ps IH]; intros w; cbn [unlink_each].
  - cbn. tauto.
  - rewrite IH. unfold unlink. cbn [snd interact files In].
    destruct (bool_decide (p ∈ files w)) eqn:Hin; cbn [andb];
      [apply bool_decide_eq_true in Hin|apply bool_decide_eq_false in Hin].
    + destruct (unlink_ok env p) eqn:Hok.
      * rewrite elem_of_difference, elem_of_singleton. split.
        -- intros [[Hq Hne] Hn]. split; [exact Hq|].
           intros [[->|Hi] Hu]; [now apply Hne|]. apply Hn. now split.
        -- intros [Hq Hn]. split; [split; [exact Hq|]|].
           ++ intros ->. apply Hn. split; [now left|exact Hok].
           ++ intros [Hi Hu]. apply Hn. split; [now right|exact Hu].
      * split; intros [Hq Hn]; (split; [exact Hq|]).
        -- intros [[->|Hi] Hu]; [congruence|]. apply Hn. now split.
        -- intros [Hi Hu]. apply Hn. split; [now right|exact Hu].
    + split; intros [Hq Hn]; (split; [exact Hq|]).
      * intros [[->|Hi] Hu]; [contradiction|]. apply Hn. now split.
      * intros [Hi Hu]. apply Hn. split; [now right|exact Hu].
Qed.

Lemma unlink_each_trace (ps : list string) (w : World) :
  exists evs,
    trace (unlink_each env ps w) = trace w ++ evs
    /\ forall p, In p ps -> exists t1 t2 ok, evs = t1 ++ [EUnlink p ok] ++ t2.
Proof.
  revert w. induction ps as [|p ps IH]; intros w; cbn [unlink_each].
  - exists []. rewrite app_nil_r. split; [reflexivity|intros p []].
  - destruct (IH (snd (unlink env p w))) as (evs & E & H).
    unfold unlink in E. cbn [snd interact trace] in E.
    eexists (_ :: evs). split.
    + unfold unlink. cbn [snd]. rewrite E, <- app_assoc. reflexivity.
    + intros q [->|Hq].
      * exists [], evs. eexists. reflexivity.
      * destruct (H q Hq) as (t1 & t2 & ok & ->).
        eexists (_ :: t1), t2, ok. reflexivity.
Qed.

Lemma sweep_kept (now t : Z) (entries : SessionMap) (w : World) :
  fst (sweep env now t entries w) =
  List.filter (fun e => negb (now - startTime (snd e) >? t)) entries.
Proof.
  revert w. induction entries as [|[uid s] entries IH]; intros w; cbn [sweep List.filter snd];
    [reflexivity|].
  destruct (now - startTime s >? t); cbn [negb]; [apply IH|].
  specialize (IH w). destruct (sweep env now t entries w) as [kept w'].
  cbn [fst] in *. now rewrite IH.
Qed.

Lemma sweep_files (now t : Z) (entries : SessionMap) (w : World) (q : string) :
  q ∈ files (snd (sweep env now t entries w)) <->
  q ∈ files w /\
  ~ (unlink_ok env q = true /\
     exists uid s, In (uid, s) entries /\ (now - startTime s >? t) = true
                   /\ In q (elements_of (screenshots s))).
Proof.
  revert w. induction entries as [|[uid s] entries IH]; intros w; cbn [sweep].
  - cbn. split; [intros H; split; [exact H|]|tauto].
    intros (_ & u & s & [] & _).
  - destruct (now - startTime s >? t) eqn:Hexp.
    + rewrite IH. cbn [note files]. rewrite unlink_each_files. split.
      * intros [[Hq Hn] Hn']. split; [exact Hq|].
        intros (Hu & u' & s' & [Heq|Hin] & He & Hp).
        -- injection Heq as <- <-. apply Hn. now split.
        -- apply Hn'. split; [exact Hu|]. now exists u', s'.
      * intros [Hq Hn]. split; [split; [exact Hq|]|].
        -- intros [Hi Hu]. apply Hn. split; [exact Hu|].
           exists uid, s. split; [now left|now split].
        -- intros (Hu & u' & s' & Hin & He & Hp). apply Hn. split; [exact Hu|].
           exists u', s'. split; [now right|now split].
    + specialize (IH w). destruct (sweep env now t entries w) as [kept w'].
      cbn [snd] in *. rewrite IH. split; intros [Hq Hn]; (split; [exact Hq|]).
      * intros (Hu & u' & s' & [Heq|Hin] & He & Hp).
        -- injection Heq as <- <-. congruence.
        -- apply Hn. split; [exact Hu|]. now exists u', s'.
      * intros (Hu & u' & s' & Hin & He & Hp). apply Hn. split; [exact Hu|].
        exists u', s'. split; [now right|now split].
Qed.

Lemma sweep_trace (now t : Z) (entries : SessionMap) (w : World) :
  exists evs,
    trace (snd (sweep env now t entries w)) = trace w ++ evs
    /\ forall uid s p,
         In (uid, s) entries -> (now - startTime s >? t) = true ->
         In p (elements_of (screenshots s)) ->
         exists t1 t2 t3 ok,
           evs = t1 ++ [EUnlink p ok] ++ t2 ++ [ESessionDelete uid] ++ t3.
Proof.
  revert w. induction entries as [|[uid s] entries IH]; intros w; cbn [sweep].
  - exists []. rewrite app_nil_r. split; [reflexivity|]. intros ? ? ? [].
  - destruct (now - startTime s >? t) eqn:Hexp.
    + destruct (unlink_each_trace (elements_of (screenshots s)) w) as (e1 & E1 & H1).
      destruct (IH (note (ESessionDelete uid)
                         (unlink_each env (elements_of (screenshots s)) w)))
        as (e2 & E2 & H2).
      cbn [note trace] in E2. rewrite E1 in E2.
      exists (e1 ++ [ESessionDelete uid] ++ e2). split.
      * rewrite E2, <- !app_assoc. reflexivity.
      * intros u' s' p [Heq|Hin] He Hp.
        -- injection Heq as <- <-. destruct (H1 p Hp) as (t1 & t2 & ok & ->).
           exists t1, t2, e2, ok. now rewrite <- !app_assoc.
        -- destruct (H2 u' s' p Hin He Hp) as (t1 & t2 & t3 & ok & ->).
           exists (e1 ++ [ESessionDelete uid] ++ t1), t2, t3, ok.
           now rewrite <- !app_assoc.
    + specialize (IH w). destruct (sweep env now t entries w) as [kept w'].
      cbn [snd] in *. destruct IH as (evs & E & H). exists evs. split; [exact E|].
      intros u' s' p [Heq|Hin] He Hp; [|now apply (H u' s' p)].
      injection Heq as <- <-. congruence.
Qed.

End RouterFacts.

(** ** Substrings *)

Lemma prefix_append (sub post : string) : String.prefix sub (sub +:+ post) = true.
Proof.
  induction sub as [|c sub IH]; [now destruct post|].
  change (String c sub +:+ post) with (String c (sub +:+ post)).
  cbn [String.prefix]. destruct (ascii_dec c c); [exact IH|contradiction].
Qed.

(** A string that has [sub] somewhere in it includes it. *)
Lemma includes_intro (pre sub post : string) :
  includes (pre +:+ sub +:+ post) sub = true.
Proof.
  induction pre as [|c pre IH].
  - change (EmptyString +:+ sub +:+ post) with (sub +:+ post).
    destruct (sub +:+ post) eqn:E; cbn [includes]; rewrite <- E, prefix_append; reflexivity.
  - change (String c pre +:+ sub +:+ post) with (String c (pre +:+ sub +:+ post)).
    cbn [includes]. rewrite IH. apply orb_true_r.
Qed.

(** ** Writing into a sparse array *)

Lemma array_set_lookup (a : array) (i : Z) (v : string) :
  0 <= i -> array_set a i v !! Z.to_nat i = Some (Some v).
Proof.
  intros Hi. unfold array_set.
  destruct (i <? 0) eqn:Hneg; [lia|].
  destruct (Z.to_nat i <? length a)%nat eqn:Hlt.
  - apply Nat.ltb_lt in Hlt. now apply list_lookup_insert_eq.
  - apply Nat.ltb_ge in Hlt.
    rewrite lookup_app_r by exact Hlt.
    rewrite lookup_app_r by (rewrite length_replicate; lia).
    rewrite length_replicate. now rewrite Nat.sub_diag.
Qed.

Lemma array_set_other (a : array) (i : Z) (v : string) (j : nat) :
  j <> Z.to_nat i -> (j < length a)%nat -> array_set a i v !! j = a !! j.
Proof.
  intros Hne Hj. unfold array_set.
  destruct (i <? 0); [reflexivity|].
  destruct (Z.to_nat i <? length a)%nat.
  - now apply list_lookup_insert_ne.
  - now apply lookup_app_l.
Qed.

Lemma array_set_same_value (a : array) (i : Z) (v : string) (j : nat) :
  a !! j = Some (Some v) -> array_set a i v !! j = Some (Some v).
Proof.
  intros Hj. assert (Hlen := lookup_lt_Some _ _ _ Hj). unfold array_set.
  destruct (i <? 0); [exact Hj|].
  destruct (Z.to_nat i <? length a)%nat eqn:Hlt.
  - destruct (decide (Z.to_nat i = j)) as [<-|Hne].
    + apply list_lookup_insert_eq. now apply Nat.ltb_lt.
    + now rewrite list_lookup_insert_ne.
  - now rewrite lookup_app_l.
Qed.

Lemma findIndex_from_ge (p : string) (a : array) (i : Z) :
  In p (filter_truthy a) -> i <= findIndex_from p a i.
Proof.
  revert i. induction a as [|[x|] a IH]; intros i; cbn [filter_truthy findIndex_from].
  - intros [].
  - destruct (String.eqb x p) eqn:E; [lia|].
    destruct (truthy x).
    + intros [->|H]; [rewrite String.eqb_refl in E; discriminate|].
      specialize (IH (i + 1) H). lia.
    + intros H. specialize (IH (i + 1) H). lia.
  - intros H. specialize (IH (i + 1) H). lia.
Qed.

Lemma stored_same_value (segs : list (Z * string)) (a : array) (j : nat) (v : string) :
  (forall n t, In (n, t) segs -> t = v) ->
  a !! j = Some (Some v) -> stored segs a !! j = Some (Some v).
Proof.
  revert a. induction segs as [|[n t] segs IH]; intros a Hv Hj; [exact Hj|].
  unfold stored. cbn [fold_left]. apply IH.
  - intros n' t' H. apply (Hv n' t'). now right.
  - rewrite (Hv n t (or_introl eq_refl)). now apply array_set_same_value.
Qed.

Lemma stored_lookup (segs : list (Z * string)) (a : array) (n : Z) (v : string) :
  (forall n t, In (n, t) segs -> t = v) ->
  In (n, v) segs -> 1 <= n ->
  stored segs a !! Z.to_nat (n - 1) = Some (Some v).
Proof.
  revert a. induction segs as [|[n0 t0] segs IH]; intros a Hv Hin Hn; [destruct Hin|].
  assert (Hv' : forall n t, In (n, t) segs -> t = v).
  { intros n' t' H. apply (Hv n' t'). now right. }
  unfold stored. cbn [fold_left]. destruct Hin as [E|Hin].
  - injection E as -> ->. apply stored_same_value; [exact Hv'|].
    apply array_set_lookup. lia.
  - now apply IH.
Qed.

Section More.

Context (env : Env).

Lemma extracted_length (a : array) (valid : list string) :
  length (extracted env a valid) =
  length (List.filter (fun p => truthy_opt (extraction env p)) valid).
Proof.
  induction valid as [|p valid IH]; [reflexivity|].
  rewrite extracted_cons, length_app, IH. unfold extracted.
  cbn [omap list_omap List.filter truthy_opt].
  destruct (extraction env p) as [t|]; cbn [truthy_opt]; [|reflexivity].
  destruct (truthy t); reflexivity.
Qed.

(** With the extraction flag off every item is "extracted": its text is
    the sentinel, which is truthy. *)
Lemma extracted_disabled (a : array) (valid : list string) :
  enabled (gemini_ocr (CONFIG env)) = false ->
  extracted env a valid = map (fun p => (findIndex p a + 1, ocr_disabled)) valid.
Proof.
  intros Hoff. induction valid as [|p valid IH]; [reflexivity|].
  rewrite extracted_cons, IH. unfold extracted, extraction.
  cbn [omap list_omap]. rewrite Hoff, truthy_ocr_disabled. reflexivity.
Qed.

Lemma ocr_calls_disabled (valid : list string) :
  enabled (gemini_ocr (CONFIG env)) = false ->
  flat_map (ocr_calls_for env) valid = [].
Proof.
  intros Hoff. induction valid as [|p valid IH]; [reflexivity|].
  cbn [flat_map]. rewrite IH. unfold ocr_calls_for. now rewrite Hoff.
Qed.

(** A run on a session whose array is empty returns at once. *)
Lemma run_empty (s : Session) (w : World) :
  screenshots s = [] ->
  processSessionScreenshots env s w =
    (Ok nothing_to_do,
     {| session := s; combinedResponse := response_header;
        allExtractedText := EmptyString; processedCount := 0; outside := w |}).
Proof.
  intros E. unfold processSessionScreenshots, processSessionScreenshots_from.
  cbn [session]. now rewrite E.
Qed.

Lemma try_catch_bind {S A B} (m : M S A) (k : A -> M S B) (h : string -> M S B) (s : S) :
  try_catch (bind m k) h s =
  match m s with
  | (Ok a, s') => try_catch (k a) h s'
  | (Throw e, s') => h e s'
  end.
Proof. unfold try_catch, bind. destruct (m s) as [[a|e] s']; reflexivity. Qed.

End More.

Ltac emits :=
  unfold reply, replyWithPhoto, replyWithDocument, deleteMessage;
  repeat first
    [ apply emits_ret | apply emits_throw | apply emits_get
    | apply emits_transport; intros ? | apply emits_unlink; intros ?
    | apply emits_takeScreenshot; intros ? ?
    | apply emits_extractTextFromImage; intros ? ?
    | apply emits_getAnswerFromChatGPT; intros ? ?
    | apply emits_modify; intros ?; reflexivity
    | apply emits_hio | apply emits_io | apply emits_when
    | apply emits_bind; [|intros ?] | apply emits_try; [|intros ?]
    | match goal with |- Emits _ _ (if ?b then _ else _) => destruct b end
    | match goal with |- Emits _ _ (match ?x with _ => _ end) => destruct x end ];
  try (cbn; tauto).

Section Commands.

Context (env : Env).

(** The single-shot branch first answers with its notice and never touches
    the session map. *)
Lemma single_shot_trace (w : World) :
  exists ok rest,
    trace (snd (single_shot env w)) =
      trace w ++ EReply "Processing your request..." ok :: rest
    /\ Forall (fun e => ~ session_event e) rest.
Proof.
  unfold single_shot. rewrite try_catch_bind.
  unfold reply at 1, transport at 1.
  exists (transport_ok env (tick w)).
  destruct (transport_ok env (tick w)).
  - match goal with |- context [try_catch ?m ?h ?w1] =>
      assert (H : Emits id (fun e => ~ session_event e) (try_catch m h)); [emits|];
      destruct (H w1) as (rest & E & F)
    end.
    exists rest. cbn [id] in E. rewrite E. cbn [interact trace].
    now rewrite <- app_assoc.
  - match goal with |- context [bind ?m ?k ?w1] =>
      assert (H : Emits id (fun e => ~ session_event e) (bind m k)) by emits;
      destruct (H w1) as (rest & E & F)
    end.
    exists rest. cbn [id] in E. rewrite E. cbn [interact trace].
    now rewrite <- app_assoc.
Qed.

(** A capture command never asks for the removal of a file. *)
Lemma capture_command_never_unlinks (digit : Z) :
  1 <= digit <= 9 ->
  Emits around (fun e => ~ unlink_event e) (stack_command env digit).
Proof.
  intros Hd. unfold stack_command.
  replace ((1 <=? digit) && (digit <=? 9)) with true by (symmetry; apply andb_true_iff; lia).
  emits.
Qed.

End Commands.

(** A capture command whose notice is delivered and whose capture succeeds
    writes the new file's path into the slot of its digit, whatever becomes
    of the replies that follow; the file is on disk. *)
Lemma capture_command_writes_slot (env : Env) (digit : Z) (h : Handling) :
  1 <= digit <= 9 ->
  transport_ok env (tick (around h)) = true ->
  capture_ok env (S (tick (around h))) = true ->
  let path :=
    path_join (IMAGES_DIR env)
      ("screenshot-" +:+ num (clock env (S (tick (around h)))) +:+ ".png") in
  let h' := snd (stack_command env digit h) in
  screenshots (current h') = array_set (screenshots (current h)) (digit - 1) path
  /\ path ∈ files (around h').
Proof.
  intros Hd Ht Hc. cbv zeta. destruct h as [[uid cid shots texts st] [tk fs tr]].
  cbn [around tick] in Ht, Hc.
  unfold stack_command.
  replace ((1 <=? digit) && (digit <=? 9)) with true by (symmetry; apply andb_true_iff; lia).
  unfold try_catch, bind, hio, reply, replyWithPhoto, transport, takeScreenshot, bind,
    Date_now, modify, ret, set_screenshot.
  cbn [current around tick files trace interact screenshots userId chatId
       extractedTexts startTime fst snd].
  rewrite Ht, Hc.
  cbn [current around tick files trace interact screenshots userId chatId
       extractedTexts startTime fst snd].
  repeat match goal with
         | |- context [transport_ok env ?n] => destruct (transport_ok env n)
         end;
    cbn [current around tick files trace interact screenshots userId chatId
         extractedTexts startTime fst snd];
    (split; [reflexivity|apply elem_of_union_l, elem_of_singleton; reflexivity]).
Qed.

Lemma map_has_filter_last (P : string * Session -> bool) (k : string) (v : Session)
    (m : SessionMap) :
  map_get k m = None -> map_has k (List.filter P (m ++ [(k, v)])) = P (k, v).
Proof.
  unfold map_has. induction m as [|[k0 v0] m IH]; cbn [app List.filter map_get].
  - intros _. destruct (P (k, v)); cbn [map_get]; [now rewrite String.eqb_refl|reflexivity].
  - destruct (String.eqb k0 k) eqn:Ek; [discriminate|]. intros Hnone.
    destruct (P (k0, v0)); cbn [map_get]; rewrite ?Ek; now apply IH.
Qed.

(** The sessions a sweep keeps are those not older than the timeout, in
    their order and as they were. *)
Lemma cleanupSessions_keeps (env : Env) (b : Bot) :
  userSessions (cleanupSessions env b) =
  List.filter (fun e => negb (expired env (clock env (S (tick (world b)))) (snd e)))
              (userSessions b).
Proof.
  unfold cleanupSessions, expired. cbn [turn tick].
  assert (K := sweep_kept env (clock env (S (tick (world b))))
                 (session_timeout (CONFIG env) * 60 * 1000) (userSessions b)
                 (turn (world b))).
  destruct (sweep env _ _ (userSessions b) (turn (world b))) as [kept w'].
  exact K.
Qed.

(** ** Batch runs under a chat transport that may fail *)

Arguments summary_lines : simpl never.
Arguments header_line : simpl never.
Arguments answer_prompt : simpl never.
Arguments captioned : simpl never.

Lemma combined_delimited (segs : list (Z * string)) : combined segs = delimited segs.
Proof.
  induction segs as [|[n t] rest IH]; [reflexivity|].
  cbn [combined]. rewrite IH. unfold segment.
  change (delimited ((n, t) :: rest))
    with (nl +:+ nl +:+ "----- SCREENSHOT " +:+ num n +:+ " -----" +:+ nl +:+ nl +:+ t
             +:+ delimited rest).
  now rewrite !append_assoc.
Qed.

Lemma session_summary_lines (total processed seconds : Z) :
  session_summary total processed seconds =
  summary_lines total processed (total - processed) seconds.
Proof. reflexivity. Qed.

Lemma response_header_line : response_header = header_line.
Proof. reflexivity. Qed.

Lemma answer_content_prompt (text : string) : answer_content text = answer_prompt text.
Proof. reflexivity. Qed.

(** Which of the replies of the pipeline are notices of an extracted text. *)
Lemma notice_extracted (n : Z) (t : string) :
  is_extracted_notice (msg_extracted n t) = true.
Proof. unfold is_extracted_notice, msg_extracted. apply prefix_append. Qed.

Lemma notice_others (n m : Z) (t : string) :
  is_extracted_notice (msg_start n) = false
  /\ is_extracted_notice (msg_progress n m) = false
  /\ is_extracted_notice (msg_not_extracted n) = false
  /\ is_extracted_notice (msg_item_failed n t) = false
  /\ is_extracted_notice (msg_ocr_complete n m) = false
  /\ is_extracted_notice (msg_all_text t) = false
  /\ is_extracted_notice msg_sending = false
  /\ is_extracted_notice (nl +:+ nl +:+ t) = false
  /\ is_extracted_notice (msg_claude_error t) = false.
Proof.
  unfold is_extracted_notice, msg_start, msg_progress, msg_not_extracted,
    msg_item_failed, msg_ocr_complete, msg_all_text, msg_sending, msg_claude_error.
  repeat split; vm_compute; reflexivity.
Qed.

Lemma extracted_app (env : Env) (a : array) (l1 l2 : list string) :
  extracted env a (l1 ++ l2) = extracted env a l1 ++ extracted env a l2.
Proof. unfold extracted. apply omap_app. Qed.

Lemma ends_with_reply_app (ok : bool) (l1 l2 : list Event) :
  ends_with_reply ok l2 -> ends_with_reply ok (l1 ++ l2).
Proof.
  intros [text H]. exists text. destruct l2 as [|e l2] using rev_ind; [discriminate|].
  rewrite app_assoc, last_snoc. now rewrite last_snoc in H.
Qed.

Lemma sublist_map {A B} (g : A -> B) (l1 l2 : list A) :
  l1 `sublist_of` l2 -> map g l1 `sublist_of` map g l2.
Proof. induction 1; cbn [map]; now constructor. Qed.

Section AnyTransport.

Context (env : Env).

Lemma did_refl (a : array) (f : Frame) : Did env a f f [].
Proof.
  constructor; cbn; rewrite ?app_nil_r, ?append_empty_r, ?Z.add_0_r; reflexivity.
Qed.

Lemma did_app (a : array) (f f' f'' : Frame) (e1 e2 : list Event) :
  Did env a f f' e1 -> Did env a f' f'' e2 -> Did env a f f'' (e1 ++ e2).
Proof.
  intros [T1 U1 C1 S1 B1 X1 A1 N1 M1 O1 F1] [T2 U2 C2 S2 B2 X2 A2 N2 M2 O2 F2].
  constructor; try congruence.
  - rewrite T2, T1. apply eq_sym, app_assoc.
  - unfold photos_delivered. rewrite omap_app, extracted_app, stored_app.
    now rewrite X2, X1.
  - unfold photos_delivered. rewrite omap_app, extracted_app, combined_app.
    now rewrite A2, A1, append_assoc.
  - unfold acknowledged, unlink_calls.
    rewrite omap_app, map_app, extracted_app, length_app, Nat2Z.inj_add.
    rewrite N2, N1. unfold acknowledged, unlink_calls. lia.
  - unfold notices_delivered. rewrite omap_app, length_app, Nat2Z.inj_add.
    rewrite M2, M1. unfold notices_delivered. lia.
  - unfold ocr_calls, photos_delivered. rewrite !omap_app, flat_map_app.
    unfold ocr_calls, photos_delivered in O1, O2. now rewrite O1, O2.
  - etransitivity; eassumption.
Qed.

(** A reply sent from the pipeline, delivered or not, that is no notice of
    an extracted text. *)
Lemma did_reply (a : array) (text : string) (f : Frame) :
  is_extracted_notice text = false ->
  let ok := transport_ok env (tick (outside f)) in
  Did env a f (snd (io (reply env text) f)) [EReply text ok]
  /\ combinedResponse (snd (io (reply env text) f)) = combinedResponse f
  /\ (if ok then exists id, fst (io (reply env text) f) = Ok id
      else exists e, fst (io (reply env text) f) = Throw e).
Proof.
  intros Hn. destruct f as [s cr all pc w]. unfold io, reply, transport. frame_simpl.
  split; [|split; [reflexivity|destruct (transport_ok env (tick w)); eauto]].
  constructor; frame_simpl; unfold notices_delivered; cbn [omap list_omap];
    rewrite ?Hn; cbn; rewrite ?append_empty_r, ?Z.add_0_r;
    try reflexivity.
  destruct (transport_ok env (tick w)); cbn; lia.
Qed.

End AnyTransport.

Section AnyTransportItem.

Context (env : Env).

Ltac next_call n :=
  match goal with
  | |- context [transport_ok env n] =>
      let T := fresh "T" in destruct (transport_ok env n) eqn:T
  end.

Ltac next_transport w :=
  first [ next_call (tick w) | next_call (S (tick w)) | next_call (S (S (tick w)))
        | next_call (S (S (S (tick w)))) | next_call (S (S (S (S (tick w)))))
        | next_call (S (S (S (S (S (tick w))))))
        | next_call (S (S (S (S (S (S (tick w)))))))
        | next_call (S (S (S (S (S (S (S (tick w)))))))) ].

Ltac notices :=
  unfold notices_delivered; cbn [omap list_omap];
  repeat match goal with
         | |- context [is_extracted_notice (msg_extracted ?n ?t)] =>
             rewrite (notice_extracted n t)
         | |- context [is_extracted_notice ?x] =>
             change (is_extracted_notice x) with false
         end;
  cbn [omap list_omap length Z.of_nat Pos.of_succ_nat]; rewrite ?Z.add_0_r.

Lemma item_any (total i : Z) (p : string) (f : Frame) (a : array) :
  screenshots (session f) = a ->
  exists evs,
    Did env a f (snd (process_item env total i p f)) evs
    /\ combinedResponse (snd (process_item env total i p f)) = combinedResponse f
    /\ answer_requests evs = []
    /\ (photos_delivered evs = [p] \/ photos_delivered evs = [])
    /\ (acknowledged evs = photos_delivered evs \/ acknowledged evs = [])
    /\ (photos_sent evs = [captioned a p] \/ photos_sent evs = [])
    /\ (forall e, fst (process_item env total i p f) = Throw e ->
        ends_with_reply false evs)
    /\ (Delivers env ->
        fst (process_item env total i p f) = Ok tt
        /\ photos_delivered evs = [p] /\ acknowledged evs = [p]
        /\ photos_sent evs = [captioned a p]).
Proof.
  intros Ha. destruct f as [[uid cid shots texts st] cr all pc w].
  cbn [session screenshots] in Ha. subst a.
  unfold process_item, screenshotNumber_of.
  unfold try_catch, bind, io, modify, reply, replyWithPhoto, ret, transport.
  frame_simpl.
  unfold extractTextFromImage, uploadToGemini, sendMessage, try_catch, bind,
    throw, ret, unlink.
  destruct (enabled (gemini_ocr (CONFIG env))) eqn:Hon; cbn [negb];
    [destruct (upload_ok env p) eqn:Hup; [destruct (gemini env p) as [t|] eqn:Hg|]|];
    frame_simpl.
  all: try (destruct (truthy t) eqn:Ht).
  all: try (rewrite truthy_ocr_disabled).
  all: repeat (next_transport w; frame_simpl).
  all: repeat match goal with
       | |- context [bool_decide ?P && ?b] => destruct (bool_decide P && b); frame_simpl
       end.
  all: repeat (next_transport w; frame_simpl).
  all: eexists; split;
         [constructor; frame_simpl;
          [rewrite <- ?app_assoc; cbn [app]; reflexivity|..]|].
  all: try notices.
  all: unfold answer_requests, photos_delivered, acknowledged, photos_sent, ocr_calls,
         unlink_calls, ocr_calls_for, extracted, extraction, captioned;
       cbn [omap list_omap map flat_map app fst snd];
       rewrite ?Hon, ?Hup, ?Hg, ?Ht, ?truthy_ocr_disabled;
       cbn [stored fold_left combined length Z.of_nat Pos.of_succ_nat app];
       rewrite ?append_empty_r, ?Z.add_0_r.
  all: try reflexivity.
  all: try (apply subseteq_difference_l; reflexivity).
  all: split; [reflexivity|]; split; [reflexivity|].
  all: split; [first [left; reflexivity|right; reflexivity]|].
  all: split; [first [left; reflexivity|right; reflexivity]|].
  all: split; [first [left; reflexivity|right; reflexivity]|].
  all: split; [intros e He; first [discriminate He|eexists; reflexivity]|].
  all: intros Hd; try (repeat split; reflexivity).
  all: exfalso;
       match goal with
       | H : transport_ok env ?n = false |- _ => rewrite Hd in H; discriminate H
       end.
Qed.

Lemma observed_app (evs1 evs2 : list Event) :
  photos_delivered (evs1 ++ evs2) = photos_delivered evs1 ++ photos_delivered evs2
  /\ acknowledged (evs1 ++ evs2) = acknowledged evs1 ++ acknowledged evs2
  /\ photos_sent (evs1 ++ evs2) = photos_sent evs1 ++ photos_sent evs2
  /\ answer_requests (evs1 ++ evs2) = answer_requests evs1 ++ answer_requests evs2.
Proof.
  unfold photos_delivered, acknowledged, unlink_calls, photos_sent, answer_requests.
  now rewrite !omap_app, map_app.
Qed.

Lemma items_any (total : Z) (valid : list string) (a : array) :
  forall (i : Z) (f : Frame),
  screenshots (session f) = a ->
  exists evs,
    Did env a f (snd (process_items env total i valid f)) evs
    /\ combinedResponse (snd (process_items env total i valid f)) = combinedResponse f
    /\ answer_requests evs = []
    /\ photos_delivered evs `sublist_of` valid
    /\ acknowledged evs `sublist_of` photos_delivered evs
    /\ photos_sent evs `sublist_of` map (captioned a) valid
    /\ (forall e, fst (process_items env total i valid f) = Throw e ->
        ends_with_reply false evs)
    /\ (Delivers env ->
        fst (process_items env total i valid f) = Ok tt
        /\ photos_delivered evs = valid /\ acknowledged evs = valid
        /\ photos_sent evs = map (captioned a) valid).
Proof.
  induction valid as [|p rest IH]; intros i f Ha.
  - exists []. cbn. split; [apply did_refl|]. repeat split; try reflexivity.
    discriminate.
  - destruct (item_any total i p f a Ha) as (evs1 & D1 & C1 & A1 & R1 & K1 & P1 & X1 & G1).
    cbn [process_items]. unfold bind.
    destruct (process_item env total i p f) as [[[]|e1] f1]; cbn [fst snd] in *.
    + assert (Ha1 : screenshots (session f1) = a).
      { rewrite (did_shots _ _ _ _ _ D1). exact Ha. }
      destruct (IH (i + 1) f1 Ha1) as (evs2 & D2 & C2 & A2 & R2 & K2 & P2 & X2 & G2).
      exists (evs1 ++ evs2).
      destruct (observed_app evs1 evs2) as (-> & -> & -> & ->).
      split; [eapply did_app; eassumption|].
      split; [congruence|]. split; [now rewrite A1, A2|].
      split; [destruct R1 as [-> | ->]; [now apply sublist_skip|now apply sublist_cons]|].
      split; [destruct K1 as [-> | ->]; [now apply sublist_app|];
              cbn [app]; etransitivity; [exact K2|apply sublist_inserts_l; reflexivity]|].
      split; [cbn [map]; destruct P1 as [-> | ->];
              [now apply sublist_skip|now apply sublist_cons]|].
      split; [intros e He; apply ends_with_reply_app; eauto|].
      intros Hd. destruct (G1 Hd) as (_ & -> & -> & ->).
      destruct (G2 Hd) as (-> & -> & -> & ->). repeat split; reflexivity.
    + exists evs1. split; [exact D1|]. split; [exact C1|]. split; [exact A1|].
      split; [destruct R1 as [-> | ->];
              [apply sublist_skip, sublist_nil_l|apply sublist_nil_l]|].
      split; [destruct K1 as [-> | ->]; [reflexivity|apply sublist_nil_l]|].
      split; [cbn [map]; destruct P1 as [-> | ->];
              [apply sublist_skip, sublist_nil_l|apply sublist_nil_l]|].
      split; [intros e _; now apply (X1 e1)|].
      intros Hd. destruct (G1 Hd) as (H & _). discriminate H.
Qed.

Lemma answer_any (f : Frame) (a : array) :
  let all := allExtractedText f in
  let wanted := answer_wanted env all in
  exists evs,
    Did env a f (snd (answer_step env f)) evs
    /\ photos_delivered evs = [] /\ acknowledged evs = [] /\ photos_sent evs = []
    /\ answer_requests evs `sublist_of` (if wanted then [answer_content all] else [])
    /\ (forall e, fst (answer_step env f) = Throw e -> ends_with_reply false evs)
    /\ (fst (answer_step env f) = Ok tt ->
        (evs = [] \/ ends_with_reply true evs)
        /\ (exists more,
              combinedResponse (snd (answer_step env f)) =
              combinedResponse f +:+
              (if wanted
               then nl +:+ nl +:+ answer_for env all +:+ nl +:+ nl +:+ more
               else EmptyString)
              /\ (Delivers env -> more = EmptyString))
        /\ answer_requests evs = (if wanted then [answer_content all] else []))
    /\ (Delivers env -> fst (answer_step env f) = Ok tt).
Proof.
  destruct f as [[uid cid shots texts st] cr all pc w]. cbv zeta.
  unfold answer_step, answer_wanted, answer_for. frame_simpl.
  destruct (enabled (chatgpt_answer (CONFIG env))) eqn:Hon; cbn [andb when];
    [destruct (truthy all) eqn:Hall|]; cbn [when].
  2,3: exists []; unfold ret; cbn [fst snd]; (split; [apply did_refl|]);
       repeat split; try reflexivity; try discriminate;
       try (left; reflexivity); exists EmptyString;
       (split; [now rewrite append_empty_r|reflexivity]).
  unfold try_catch, bind, io, modify, reply, ret, getAnswerFromChatGPT, transport.
  rewrite Hon. cbn [negb]. unfold try_catch.
  frame_simpl.
  destruct (anthropic env (answer_content all)) as [answer|] eqn:Han;
    unfold ret; frame_simpl.
  all: repeat (next_transport w; frame_simpl).
  all: eexists; split;
         [constructor; frame_simpl;
          [rewrite <- ?app_assoc; cbn [app]; reflexivity|..]|].
  all: try notices.
  all: unfold answer_requests, photos_delivered, acknowledged, photos_sent, ocr_calls,
         unlink_calls, extracted;
       cbn [omap list_omap map flat_map app fst snd];
       cbn [stored fold_left combined length Z.of_nat Pos.of_succ_nat app];
       rewrite ?append_empty_r, ?Z.add_0_r.
  all: try reflexivity.
  all: split; [reflexivity|]; split; [reflexivity|]; split; [reflexivity|].
  all: split; [first [reflexivity|apply sublist_nil_l]|].
  all: split; [intros e He; first [discriminate He|eexists; reflexivity]|].
  all: split;
         [intros He; first [discriminate He|
            split; [right; eexists; reflexivity|]; split; [|reflexivity]]|].
  all: try (eexists; split; [rewrite ?append_assoc; reflexivity|]).
  all: intros Hd; try reflexivity.
  all: exfalso;
       match goal with
       | H : transport_ok env ?n = false |- _ => rewrite Hd in H; discriminate H
       end.
Qed.

End AnyTransportItem.

Section AnyTransportRun.

Context (env : Env).

Lemma progress_items (total : Z) (valid : list string) (a : array) (i : Z) (f : Frame) :
  screenshots (session f) = a ->
  exists evs,
    Progress env a valid f (snd (process_items env total i valid f)) evs
    /\ combinedResponse (snd (process_items env total i valid f)) = combinedResponse f
    /\ answer_requests evs = []
    /\ (forall e, fst (process_items env total i valid f) = Throw e ->
        ends_with_reply false evs)
    /\ (Delivers env -> fst (process_items env total i valid f) = Ok tt).
Proof.
  intros Ha.
  destruct (items_any env total valid a i f Ha)
    as (evs & D & C & A & R & K & P & X & G).
  exists evs. split; [|split; [exact C|split; [exact A|split; [exact X|]]]].
  - constructor; try assumption. intros Hd. now destruct (G Hd) as (_ & ? & ? & ?).
  - intros Hd. now destruct (G Hd).
Qed.

(** A reply is a stretch over no item. *)
Lemma progress_reply (a : array) (f f' : Frame) (text : string) (ok : bool) :
  Did env a f f' [EReply text ok] -> Progress env a [] f f' [EReply text ok].
Proof. intros D. constructor; [exact D|reflexivity..|now intros _]. Qed.

Lemma progress_app (a : array) (v1 v2 : list string) (f f' f'' : Frame)
    (e1 e2 : list Event) :
  Progress env a v1 f f' e1 -> Progress env a v2 f' f'' e2 ->
  Progress env a (v1 ++ v2) f f'' (e1 ++ e2).
Proof.
  intros [D1 R1 K1 P1 G1] [D2 R2 K2 P2 G2].
  destruct (observed_app e1 e2) as (E1 & E2 & E3 & _).
  constructor.
  - eapply did_app; eassumption.
  - rewrite E1. now apply sublist_app.
  - rewrite E1, E2. now apply sublist_app.
  - rewrite E3, map_app. now apply sublist_app.
  - intros Hd. rewrite E1, E2, E3. destruct (G1 Hd) as (-> & -> & ->).
    destruct (G2 Hd) as (-> & -> & ->). now rewrite map_app.
Qed.

(** What a stretch from the start of a run says about the frame. *)
Lemma progress_frame (a : array) (v valid : list string) (s : Session) (w : World)
    (cr : string) (f : Frame) (evs : list Event) :
  Progress env a v
    {| session := s; combinedResponse := cr; allExtractedText := EmptyString;
       processedCount := 0; outside := w |} f evs ->
  v `sublist_of` valid ->
  trace (outside f) = trace w ++ evs
  /\ photos_delivered evs `sublist_of` valid
  /\ acknowledged evs `sublist_of` photos_delivered evs
  /\ photos_sent evs `sublist_of` map (captioned a) valid
  /\ allExtractedText f = combined (extracted env a (photos_delivered evs))
  /\ processedCount f = Z.of_nat (length (extracted env a (acknowledged evs)))
  /\ ocr_calls evs = flat_map (ocr_calls_for env) (photos_delivered evs)
  /\ files (outside f) ⊆ files w
  /\ userId (session f) = userId s /\ chatId (session f) = chatId s
  /\ processedCount f = Z.of_nat (length (notices_delivered evs)).
Proof.
  intros [[T U C S B X A N M O F] R K P _] Hv. cbn in *.
  repeat split; try assumption.
  - etransitivity; eassumption.
  - etransitivity; [exact P|]. now apply sublist_map.
Qed.

(** What holds of every run on a session whose array is not empty, whatever
    the chat transport, the OCR service, the answer service and the file
    system do. *)
Lemma run_any (s : Session) (w : World) (res : Res string) (f : Frame) :
  screenshots s <> [] ->
  processSessionScreenshots env s w = (res, f) ->
  let a := screenshots s in
  let valid := filter_truthy a in
  let all := allExtractedText f in
  let asked := if answer_wanted env all then [answer_content all] else [] in
  exists evs,
    (trace (outside f) = trace w ++ evs
     /\ photos_delivered evs `sublist_of` valid
     /\ acknowledged evs `sublist_of` photos_delivered evs
     /\ photos_sent evs `sublist_of` map (captioned a) valid
     /\ all = combined (extracted env a (photos_delivered evs))
     /\ processedCount f = Z.of_nat (length (extracted env a (acknowledged evs)))
     /\ ocr_calls evs = flat_map (ocr_calls_for env) (photos_delivered evs)
     /\ files (outside f) ⊆ files w
     /\ userId (session f) = userId s /\ chatId (session f) = chatId s
     /\ processedCount f = Z.of_nat (length (notices_delivered evs)))
    /\ answer_requests evs `sublist_of` asked
    /\ (forall r, res = Ok r ->
        ends_with_reply true evs
        /\ (exists more,
              r = response_header +:+
                  (if answer_wanted env all
                   then nl +:+ nl +:+ answer_for env all +:+ nl +:+ nl +:+ more
                   else EmptyString) +:+
                  session_summary (Z.of_nat (length valid)) (processedCount f)
                    (round_div (clock env (tick (outside f)) - startTime s) 1000)
              /\ (Delivers env -> more = EmptyString))
        /\ answer_requests evs = asked
        /\ screenshots (session f) = [] /\ extractedTexts (session f) = []
        /\ startTime (session f) = clock env (tick (outside f)))
    /\ (forall e, res = Throw e ->
        ends_with_reply false evs
        /\ screenshots (session f) = a /\ startTime (session f) = startTime s
        /\ extractedTexts (session f) =
           stored (extracted env a (photos_delivered evs)) (extractedTexts s))
    /\ (Delivers env ->
        (exists r, res = Ok r)
        /\ photos_delivered evs = valid /\ acknowledged evs = valid
        /\ photos_sent evs = map (captioned a) valid).
Proof.
  intros Hne E a valid. cbv zeta.
  unfold processSessionScreenshots, processSessionScreenshots_from in E.
  cbn [session screenshots] in E.
  assert (Hlen : (length (screenshots s) =? 0)%nat = false).
  { destruct (screenshots s); [congruence|reflexivity]. }
  rewrite Hlen in E. fold a in E. fold valid in E.
  set (total := Z.of_nat (length valid)) in *.
  set (f0 := {| session := s; combinedResponse := response_header;
                allExtractedText := EmptyString; processedCount := 0; outside := w |}) in *.
  match goal with
  | |- ?G =>
      assert (Cut : forall v evs e,
                Progress env a v f0 f evs -> v `sublist_of` valid ->
                answer_requests evs `sublist_of`
                  (if answer_wanted env (allExtractedText f)
                   then [answer_content (allExtractedText f)] else []) ->
                ends_with_reply false evs -> (Delivers env -> False) ->
                res = Throw e -> G)
  end.
  { intros v evs e P Hv Hask Hend Hnd ->. exists evs.
    split; [exact (progress_frame a v valid s w _ f evs P Hv)|].
    split; [exact Hask|].
    split; [discriminate|]. split; [|intros Hd; destruct (Hnd Hd)].
    intros e' _. destruct P as [[T U C S B X A N M O F] _ _ _ _]. cbn in *.
    repeat split; assumption. }
  (* the start notice *)
  unfold bind at 1 in E.
  destruct (did_reply env a (msg_start total) f0 eq_refl) as (D0 & C0 & R0).
  destruct (io (reply env (msg_start total)) f0) as [r0 f1]. cbn [fst snd] in *.
  apply progress_reply in D0.
  destruct (transport_ok env (tick (outside f0))) eqn:T0; destruct R0 as [x0 ->].
  2:{ injection E as <- <-.
      apply (Cut [] _ x0 D0);
        [apply sublist_nil_l|apply sublist_nil_l|eexists; reflexivity| |reflexivity].
      intros Hd. now rewrite Hd in T0. }
  (* the loop *)
  unfold bind at 1 in E.
  assert (Ha1 : screenshots (session f1) = a).
  { now rewrite (did_shots _ _ _ _ _ (pr_did _ _ _ _ _ _ D0)). }
  destruct (progress_items total valid a 0 f1 Ha1) as (evs1 & P1 & C1 & A1 & X1 & G1).
  destruct (process_items env total 0 valid f1) as [[[]|e1] f2]; cbn [fst snd] in *.
  2:{ injection E as <- <-.
      assert (P := progress_app _ _ _ _ _ _ _ _ D0 P1). cbn [app] in P.
      apply (Cut valid _ e1 P); [reflexivity| | | |reflexivity].
      - change (answer_requests (EReply (msg_start total) true :: evs1))
          with (answer_requests evs1). rewrite A1. apply sublist_nil_l.
      - apply (ends_with_reply_app false [_]). now apply (X1 e1).
      - intros Hd. specialize (G1 Hd). discriminate G1. }
  (* the notice that the loop is over *)
  unfold bind at 1 in E. unfold bind at 1 in E.
  destruct (did_reply env a (msg_ocr_complete (processedCount f2) total) f2 eq_refl)
    as (D2 & C2 & R2).
  destruct (io (reply env (msg_ocr_complete (processedCount f2) total)) f2) as [r2 f3].
  cbn [fst snd] in *. apply progress_reply in D2.
  assert (P2 := progress_app _ _ _ _ _ _ _ _ (progress_app _ _ _ _ _ _ _ _ D0 P1) D2).
  cbn [app] in P2. rewrite app_nil_r in P2.
  set (ok2 := transport_ok env (tick (outside f2))) in *.
  assert (A2 : answer_requests
                 (EReply (msg_start total) true
                    :: evs1 ++ [EReply (msg_ocr_complete (processedCount f2) total) ok2])
               = []).
  { change (EReply (msg_start total) true
              :: evs1 ++ [EReply (msg_ocr_complete (processedCount f2) total) ok2])
      with ([EReply (msg_start total) true]
              ++ evs1 ++ [EReply (msg_ocr_complete (processedCount f2) total) ok2]).
    destruct (observed_app [EReply (msg_start total) true]
                (evs1 ++ [EReply (msg_ocr_complete (processedCount f2) total) ok2]))
      as (_ & _ & _ & ->).
    destruct (observed_app evs1 [EReply (msg_ocr_complete (processedCount f2) total) ok2])
      as (_ & _ & _ & ->).
    now rewrite A1. }
  destruct ok2 eqn:T2; destruct R2 as [x2 ->].
  2:{ injection E as <- <-.
      apply (Cut valid _ x2 P2); [reflexivity| | | |reflexivity].
      - rewrite A2. apply sublist_nil_l.
      - apply (ends_with_reply_app false (_ :: _)). eexists; reflexivity.
      - intros Hd. subst ok2. now rewrite Hd in T2. }
  (* the answer step *)
  unfold bind at 1 in E.
  destruct (answer_any env f3 a)
    as (evs3 & D3 & R3 & K3 & Ph3 & S3 & X3 & O3 & G3).
  assert (P3 : Progress env a [] f3 (snd (answer_step env f3)) evs3).
  { constructor; [exact D3|now rewrite R3|now rewrite K3, R3|now rewrite Ph3|
                  now intros _]. }
  assert (P := progress_app _ _ _ _ _ _ _ _ P2 P3). rewrite app_nil_r in P.
  assert (Hall : allExtractedText (snd (answer_step env f3)) = allExtractedText f3).
  { rewrite (did_all _ _ _ _ _ D3), R3. cbn. apply append_empty_r. }
  assert (A3 : answer_requests
                 ((EReply (msg_start total) true
                     :: evs1 ++ [EReply (msg_ocr_complete (processedCount f2) total) true])
                    ++ evs3) = answer_requests evs3).
  { destruct (observed_app
                (EReply (msg_start total) true
                   :: evs1 ++ [EReply (msg_ocr_complete (processedCount f2) total) true])
                evs3) as (_ & _ & _ & ->).
    now rewrite A2. }
  destruct (answer_step env f3) as [[[]|e3] f4]; cbn [fst snd] in *.
  2:{ injection E as <- <-.
      apply (Cut valid _ e3 P); [reflexivity| | | |reflexivity].
      - rewrite A3, Hall. exact S3.
      - apply ends_with_reply_app. now apply (X3 e3).
      - intros Hd. specialize (G3 Hd). discriminate G3. }
  (* the summary and the reset *)
  clear Cut X3 G3.
  destruct (O3 eq_refl) as (Hlast & (more & Hmore & Hdel) & Hask). clear O3.
  unfold finish, bind, io, Date_now, modify in E.
  cbn [outside session combinedResponse allExtractedText processedCount
       append_response reset_session userId chatId startTime fst snd] in E.
  injection E as <- <-.
  match goal with
  | _ : Progress env a valid f0 f4 ?l |- _ => exists l
  end.
  assert (Hcr : combinedResponse f3 = response_header).
  { rewrite C2, C1, C0. reflexivity. }
  assert (Hst : startTime (session f4) = startTime s).
  { rewrite (did_start _ _ _ _ _ (pr_did _ _ _ _ _ _ P)). reflexivity. }
  frame_simpl. rewrite A3, Hask, Hall.
  split.
  { destruct (progress_frame a valid valid s w _ f4 _ P ltac:(reflexivity))
      as (T & R & K & Ph & A & N & O & F & U & C & M).
    rewrite <- Hall. repeat split; assumption. }
  split; [reflexivity|].
  split; [|split; [discriminate|]].
  - intros r [= <-]. split; [|split; [|split; [|auto]]].
    + destruct Hlast as [-> | H]; [|now apply ends_with_reply_app].
      rewrite app_nil_r. apply (ends_with_reply_app true (_ :: _)).
      eexists; reflexivity.
    + exists more. split; [|exact Hdel].
      rewrite Hmore, Hcr, Hst, append_assoc. reflexivity.
    + reflexivity.
  - intros Hd. split; [eauto|]. exact (pr_full _ _ _ _ _ _ P Hd).
Qed.

End AnyTransportRun.

Section AnyTransportMore.

Context (env : Env).

(** The texts found by path are the texts of the items labelled with the
    number the loop computes for them. *)
Lemma extracted_texts_of (a : array) (l : list string) :
  extracted env a l = texts_of env (map (fun p => (findIndex p a + 1, p)) l).
Proof.
  induction l as [|p l IH]; [reflexivity|].
  unfold extracted, texts_of in *. cbn [map omap list_omap].
  rewrite IH. reflexivity.
Qed.

End AnyTransportMore.

(** * The claims *)

Section Claims.

Context (env : Env).

(** C1, as the code has it.  Take a session whose slots are occupied
    exactly at 1, 3 and 5, by three screenshots [a], [b], [c] that differ.
    In every run the items are taken in ascending slot order and carry
    their slot numbers: the photos sent are, in order, among slot 1
    captioned "Screenshot 1", slot 3 captioned "Screenshot 3" and slot 5
    captioned "Screenshot 5", and the combined text consists of the
    delimiter-tagged segments, labelled with the slot numbers, of those of
    the three items whose photo was delivered and whose extraction gave a
    text.  When every chat call is delivered the run returns and processes
    exactly the three items 1, 3, 5; when moreover the three extractions
    succeed the combined text is exactly the three segments labelled 1, 3
    and 5 (not the loop positions 1, 2, 3). *)
Theorem C1_sparse_slots_keep_their_numbers
    (s : Session) (w : World) (a b c : string) :
  occupied (screenshots s) = [1; 3; 5] ->
  filter_truthy (screenshots s) = [a; b; c] ->
  NoDup [a; b; c] ->
  let out := processSessionScreenshots env s w in
  let f := snd out in
  exists evs items,
    trace (outside f) = trace w ++ evs
    /\ items `sublist_of` [(1, a); (3, b); (5, c)]
    /\ photos_delivered evs = map snd items
    /\ photos_sent evs `sublist_of`
         [(a, "Screenshot 1"); (b, "Screenshot 3"); (c, "Screenshot 5")]
    /\ allExtractedText f = delimited (texts_of env items)
    /\ (Delivers env ->
        (exists r, fst out = Ok r)
        /\ items = [(1, a); (3, b); (5, c)]
        /\ photos_sent evs =
             [(a, "Screenshot 1"); (b, "Screenshot 3"); (c, "Screenshot 5")]
        /\ forall ta tb tc,
             extraction env a = Some ta -> truthy ta = true ->
             extraction env b = Some tb -> truthy tb = true ->
             extraction env c = Some tc -> truthy tc = true ->
             allExtractedText f =
               nl +:+ nl +:+ "----- SCREENSHOT 1 -----" +:+ nl +:+ nl +:+ ta
                  +:+ nl +:+ nl +:+ "----- SCREENSHOT 3 -----" +:+ nl +:+ nl +:+ tb
                  +:+ nl +:+ nl +:+ "----- SCREENSHOT 5 -----" +:+ nl +:+ nl +:+ tc).
Proof.
  intros Hocc Hvalid Hnd. cbv zeta.
  assert (Hne : screenshots s <> []).
  { intros E. rewrite E in Hvalid. discriminate. }
  assert (Hnum := slot_numbers (screenshots s)).
  rewrite Hvalid, Hocc in Hnum. specialize (Hnum Hnd).
  cbn [map] in Hnum. injection Hnum as Na Nb Nc.
  assert (Hitems : map (fun p => (findIndex p (screenshots s) + 1, p)) [a; b; c]
                   = [(1, a); (3, b); (5, c)]).
  { cbn [map]. now rewrite Na, Nb, Nc. }
  assert (Hcaps : map (captioned (screenshots s)) [a; b; c]
                  = [(a, "Screenshot 1"); (b, "Screenshot 3"); (c, "Screenshot 5")]).
  { unfold captioned. cbn [map]. now rewrite Na, Nb, Nc. }
  destruct (processSessionScreenshots env s w) as [res f] eqn:E.
  destruct (run_any env s w res f Hne E)
    as (evs & (T & R & _ & Ph & A & _) & _ & _ & _ & HD).
  rewrite Hvalid in R, Ph, HD. rewrite Hcaps in Ph, HD.
  cbn [fst snd].
  exists evs, (map (fun p => (findIndex p (screenshots s) + 1, p)) (photos_delivered evs)).
  split; [exact T|]. split; [rewrite <- Hitems; now apply sublist_map|].
  split; [rewrite map_map; cbn [snd]; now rewrite map_id|].
  split; [exact Ph|].
  split; [rewrite A, extracted_texts_of; apply combined_delimited|].
  intros Hd. destruct (HD Hd) as (Hr & Hp & _ & Hs).
  split; [exact Hr|]. split; [now rewrite Hp, Hitems|]. split; [exact Hs|].
  intros ta tb tc Ha Hta Hb Htb Hc Htc.
  rewrite A, Hp, combined_delimited. unfold extracted. cbn [omap list_omap].
  rewrite Ha, Hb, Hc, Hta, Htb, Htc, Na, Nb, Nc. cbn [delimited].
  rewrite !append_empty_r. reflexivity.
Qed.

(** C3, as the code has it.  A run on an empty session returns the
    nothing-to-do result at once and leaves the session as it was,
    [startTime] included.  A run on a session whose array is not empty
    either returns or is cut short by the chat transport.  If it returns
    (whether the items succeeded or failed, and whatever replies were lost
    on the way) its history ends with a delivered reply, [screenshots] and
    [extractedTexts] are empty and [startTime] is the time of completion.
    If it is cut short it throws, its history ends with the lost reply, and
    the session keeps its screenshots and its [startTime].  After a run that
    returns, a run that follows at once returns the nothing-to-do result;
    and a run returns whenever every chat call is delivered. *)
Theorem C3_run_leaves_session_ready (s : Session) (w : World) :
  let out := processSessionScreenshots env s w in
  let f := snd out in
  (screenshots s = [] ->
   fst out = Ok "No screenshots to process." /\ session f = s /\ outside f = w)
  /\ (screenshots s <> [] ->
      exists evs,
        trace (outside f) = trace w ++ evs
        /\ ((exists r, fst out = Ok r
             /\ ends_with_reply true evs
             /\ screenshots (session f) = [] /\ extractedTexts (session f) = []
             /\ startTime (session f) = clock env (tick (outside f)))
            \/ (exists e, fst out = Throw e
                /\ ends_with_reply false evs
                /\ screenshots (session f) = screenshots s
                /\ startTime (session f) = startTime s)))
  /\ (forall r, fst out = Ok r ->
      fst (processSessionScreenshots env (session f) (outside f))
      = Ok "No screenshots to process.")
  /\ (Delivers env -> exists r, fst out = Ok r).
Proof.
  cbv zeta. destruct (screenshots s) as [|x rest] eqn:Hs.
  - rewrite (run_empty env s w Hs). cbn [fst snd session outside].
    split; [now intros _|]. split; [congruence|].
    split; [|eauto]. intros r _. now rewrite (run_empty env s w Hs).
  - assert (Hne : screenshots s <> []) by congruence.
    destruct (processSessionScreenshots env s w) as [res f] eqn:E.
    destruct (run_any env s w res f Hne E) as (evs & G & _ & HOk & HThrow & HD).
    cbn [fst snd]. split; [congruence|]. split; [|split].
    + intros _. exists evs. split; [apply G|].
      destruct res as [r|e].
      * left. exists r. destruct (HOk r eq_refl) as (L & _ & _ & S1 & S2 & S3). auto.
      * right. exists e. destruct (HThrow e eq_refl) as (L & S1 & S2 & _).
        rewrite <- Hs. auto.
    + intros r ->. destruct (HOk r eq_refl) as (_ & _ & _ & S1 & _).
      now rewrite run_empty.
    + intros Hd. apply (HD Hd).
Qed.

(** C5, as the code has it.  In a batch run on a session whose array is
    not empty, whatever extractions fail and whatever the chat transport
    does: the combined text is made of exactly the delimiter-tagged segments
    of the items whose photo was delivered and whose extraction gave a text,
    in order; the counter of successes is the number of delivered notices of
    an extracted text, which is the number of those items (a subsequence of
    the former) that got as far as the removal of their file.  The run
    throws only when the history ends with a lost reply: no failed
    extraction stops it.  When the run returns, the response ends with the
    summary lines reporting total = the number of occupied slots, success =
    that counter and failed = total - success, and the one answer request
    (made exactly when the answer flag is on and the combined text is not
    empty) carries the combined text.  When every chat call is delivered
    the run returns, success is the number of items whose extraction gave a
    text and the combined text holds the segments of all of them. *)
Theorem C5_failed_items_do_not_stop_the_batch (s : Session) (w : World) :
  screenshots s <> [] ->
  let a := screenshots s in
  let valid := filter_truthy a in
  let total := Z.of_nat (length (occupied a)) in
  let out := processSessionScreenshots env s w in
  let f := snd out in
  exists evs,
    let segments := extracted env a (photos_delivered evs) in
    let success := Z.of_nat (length (extracted env a (acknowledged evs))) in
    trace (outside f) = trace w ++ evs
    /\ photos_delivered evs `sublist_of` valid
    /\ acknowledged evs `sublist_of` photos_delivered evs
    /\ allExtractedText f = delimited segments
    /\ processedCount f = success
    /\ success = Z.of_nat (length (notices_delivered evs))
    /\ (forall e, fst out = Throw e -> ends_with_reply false evs)
    /\ (forall r, fst out = Ok r ->
        (exists note,
           r = header_line +:+ note +:+
               summary_lines total success (total - success)
                 (round_div (clock env (tick (outside f)) - startTime s) 1000))
        /\ answer_requests evs =
           (if answer_wanted env (delimited segments)
            then [answer_prompt (delimited segments)] else []))
    /\ (Delivers env ->
        (exists r, fst out = Ok r)
        /\ photos_delivered evs = valid /\ acknowledged evs = valid
        /\ success =
           Z.of_nat (length (List.filter (fun p => truthy_opt (extraction env p)) valid))).
Proof.
  intros Hne a valid total. cbv zeta.
  destruct (processSessionScreenshots env s w) as [res f] eqn:E.
  destruct (run_any env s w res f Hne E)
    as (evs & (T & R & K & _ & A & N & _ & _ & _ & _ & M) & _ & HOk & HThrow & HD).
  fold a in R, K, A, N, HOk, HThrow, HD. fold valid in R, HOk, HD.
  cbn [fst snd]. exists evs.
  assert (Ht : Z.of_nat (length valid) = total).
  { unfold total, occupied, valid. now rewrite (filter_truthy_occupied_length _ 1). }
  rewrite <- combined_delimited.
  split; [exact T|]. split; [exact R|]. split; [exact K|]. split; [exact A|].
  split; [exact N|]. split; [now rewrite <- N|].
  split; [intros e ->; apply (HThrow e eq_refl)|]. split.
  - intros r ->. destruct (HOk r eq_refl) as (_ & (more & Hr & _) & Hask & _).
    rewrite <- A, <- answer_content_prompt, <- N, <- session_summary_lines, <- Ht.
    split; [|exact Hask]. eexists. exact Hr.
  - intros Hd. destruct (HD Hd) as (Hr & Hp & Hk & _).
    split; [exact Hr|]. split; [exact Hp|]. split; [exact Hk|].
    rewrite Hk. now rewrite extracted_length.
Qed.

(** C6, as the code has it.  With the extraction flag off,
    [extractTextFromImage] returns its fixed sentinel and leaves the world as
    it was (no upload, no call), the extraction step of the pipeline yields
    the pipeline's own sentinel for every image, and no run makes any call to
    the OCR service, whatever else happens.  A run on an empty session
    returns at once and leaves the session as it was.  In a run on a session
    whose array is not empty every item whose photo was delivered gets the
    sentinel under its delimiter in the combined text; the run either
    returns, and then the session is reset ([screenshots] and
    [extractedTexts] empty, [startTime] the time of completion), or it is cut
    short by a lost reply, and then it throws and the session keeps its
    screenshots and its [startTime].  When every chat call is delivered the
    run returns and every occupied item got the sentinel. *)
Theorem C6_extraction_off_means_sentinel_and_no_call
    (s : Session) (w : World) (p : string) :
  enabled (gemini_ocr (CONFIG env)) = false ->
  let a := screenshots s in
  let valid := filter_truthy a in
  let out := processSessionScreenshots env s w in
  let f := snd out in
  extractTextFromImage env p w = (Ok (Some "Gemini OCR is disabled in feature flags"), w)
  /\ (forall q, extraction env q = Some "Gemini OCR is disabled")
  /\ ocr_calls (trace (outside f)) = ocr_calls (trace w)
  /\ (a = [] ->
      fst out = Ok "No screenshots to process." /\ session f = s /\ outside f = w)
  /\ (a <> [] ->
      exists evs,
        trace (outside f) = trace w ++ evs
        /\ photos_delivered evs `sublist_of` valid
        /\ allExtractedText f =
           delimited (map (fun q => (findIndex q a + 1, "Gemini OCR is disabled"))
                          (photos_delivered evs))
        /\ ((exists r, fst out = Ok r
             /\ screenshots (session f) = [] /\ extractedTexts (session f) = []
             /\ startTime (session f) = clock env (tick (outside f)))
            \/ (exists e, fst out = Throw e
                /\ ends_with_reply false evs
                /\ screenshots (session f) = a
                /\ startTime (session f) = startTime s))
        /\ (Delivers env -> (exists r, fst out = Ok r) /\ photos_delivered evs = valid)).
Proof.
  intros Hoff a valid. cbv zeta. split; [|split].
  - unfold extractTextFromImage. now rewrite Hoff.
  - intros q. unfold extraction. now rewrite Hoff.
  - assert (Hdec : screenshots s = [] \/ screenshots s <> []).
    { destruct (screenshots s); [now left|now right]. }
    destruct Hdec as [Hs|Hne].
    + rewrite (run_empty env s w Hs). cbn [fst snd session outside].
      split; [reflexivity|]. split; [now intros _|]. intros H. now destruct H.
    + destruct (processSessionScreenshots env s w) as [res f] eqn:E.
      destruct (run_any env s w res f Hne E)
        as (evs & (T & R & _ & _ & A & _ & O & _) & _ & HOk & HThrow & HD).
      rewrite (ocr_calls_disabled env _ Hoff) in O.
      fold a in R, A, HOk, HThrow, HD. fold valid in R, HD.
      cbn [fst snd]. split; [|split; [unfold a; congruence|]].
      * rewrite T. unfold ocr_calls in *. now rewrite omap_app, O, app_nil_r.
      * intros _. exists evs. split; [exact T|]. split; [exact R|].
        split; [rewrite A, (extracted_disabled env _ _ Hoff); apply combined_delimited|].
        split.
        -- destruct res as [r|e].
           ++ left. exists r. destruct (HOk r eq_refl) as (_ & _ & _ & S1 & S2 & S3). auto.
           ++ right. exists e. destruct (HThrow e eq_refl) as (L & S1 & S2 & _). auto.
        -- intros Hd. destruct (HD Hd) as (Hr & Hp & _). auto.
Qed.

(** C10, as the code has it.  With the extraction flag off the sentinel of
    the pipeline is truthy, so the loop stores it in [extractedTexts] at the
    slot of every item whose photo was delivered and appends its segment to
    the combined text; it counts the item as processed once the notice of
    its extracted text was delivered too (the counter is the number of
    such notices delivered, and of items that got as far as the removal of
    their file).  When a run on a session with an occupied slot returns, the
    summary reports total, success = the number of items so counted and
    failed = total - success, and when the answer flag is on and
    at least one photo was delivered one real answer request is issued over
    the concatenation of the sentinel segments.  When every chat call is
    delivered the run returns, every item is counted (success = total,
    failed = 0) and the request is issued whenever the answer flag is on. *)
Theorem C10_sentinel_counts_as_extracted (s : Session) (w : World) :
  enabled (gemini_ocr (CONFIG env)) = false ->
  filter_truthy (screenshots s) <> [] ->
  let a := screenshots s in
  let valid := filter_truthy a in
  let total := Z.of_nat (length valid) in
  let sentinel := "Gemini OCR is disabled" in
  let text_of items := delimited (map (fun p => (findIndex p a + 1, sentinel)) items) in
  let out := processSessionScreenshots env s w in
  let f := snd out in
  truthy sentinel = true
  /\ (forall (cr text : string) (count : Z) (w0 : World),
      let f1 := snd (process_items env total 0 valid
                       {| session := s; combinedResponse := cr; allExtractedText := text;
                          processedCount := count; outside := w0 |}) in
      exists evs1,
        trace (outside f1) = trace w0 ++ evs1
        /\ forall p, In p (photos_delivered evs1) ->
             extractedTexts (session f1) !! Z.to_nat (findIndex p a) = Some (Some sentinel))
  /\ exists evs,
       trace (outside f) = trace w ++ evs
       /\ photos_delivered evs `sublist_of` valid
       /\ acknowledged evs `sublist_of` photos_delivered evs
       /\ allExtractedText f = text_of (photos_delivered evs)
       /\ processedCount f = Z.of_nat (length (acknowledged evs))
       /\ processedCount f = Z.of_nat (length (notices_delivered evs))
       /\ (forall r, fst out = Ok r ->
           (exists note,
              r = header_line +:+ note +:+
                  summary_lines total (processedCount f) (total - processedCount f)
                    (round_div (clock env (tick (outside f)) - startTime s) 1000))
           /\ answer_requests evs =
              (if enabled (chatgpt_answer (CONFIG env))
                  && negb (length (photos_delivered evs) =? 0)%nat
               then [answer_prompt (text_of (photos_delivered evs))] else []))
       /\ (Delivers env ->
           (exists r, fst out = Ok r)
           /\ photos_delivered evs = valid /\ acknowledged evs = valid
           /\ processedCount f = total /\ total - processedCount f = 0
           /\ answer_requests evs =
              (if enabled (chatgpt_answer (CONFIG env))
               then [answer_prompt (text_of valid)] else [])).
Proof.
  intros Hoff Hvalid a valid total sentinel text_of. cbv zeta.
  split; [reflexivity|split].
  - intros cr text count w0.
    destruct (items_any env total valid a 0
                {| session := s; combinedResponse := cr; allExtractedText := text;
                   processedCount := count; outside := w0 |} eq_refl)
      as (evs1 & D & _ & _ & R & _).
    exists evs1. split; [apply (did_trace _ _ _ _ _ D)|]. intros p Hp.
    rewrite (did_texts _ _ _ _ _ D), (extracted_disabled env _ _ Hoff).
    replace (Z.to_nat (findIndex p a)) with (Z.to_nat (findIndex p a + 1 - 1))
      by (f_equal; lia).
    apply stored_lookup.
    + intros n t H. apply in_map_iff in H as (q & Hq & _).
      injection Hq as _ <-. reflexivity.
    + apply in_map_iff. exists p. now split.
    + assert (Hin : In p valid).
      { apply list_elem_of_In. eapply sublist_subseteq; [exact R|].
        now apply list_elem_of_In. }
      assert (H := findIndex_from_ge p a 0 Hin). unfold findIndex. lia.
  - assert (Hne : screenshots s <> []).
    { intros E. apply Hvalid. now rewrite E. }
    destruct (processSessionScreenshots env s w) as [res f] eqn:E.
    destruct (run_any env s w res f Hne E)
      as (evs & (T & R & K & _ & A & N & _ & _ & _ & _ & M) & _ & HOk & HThrow & HD).
    fold a in R, K, A, N, HOk, HThrow, HD. fold valid in R, HOk, HD. fold total in HOk.
    rewrite !(extracted_disabled env _ _ Hoff) in *. rewrite length_map in N.
    rewrite combined_delimited in *.
    cbn [fst snd]. exists evs.
    assert (Hw : forall l,
               answer_wanted env (text_of l) =
               enabled (chatgpt_answer (CONFIG env)) && negb (length l =? 0)%nat).
    { intros l. unfold answer_wanted, text_of.
      rewrite <- combined_delimited, truthy_combined, length_map. reflexivity. }
    assert (A' : allExtractedText f = text_of (photos_delivered evs)) by exact A.
    clear A.
    split; [exact T|]. split; [exact R|]. split; [exact K|]. split; [exact A'|].
    split; [exact N|]. split; [exact M|]. split.
    + intros r ->. destruct (HOk r eq_refl) as (_ & (more & Hr & _) & Hask & _).
      rewrite <- session_summary_lines.
      split; [eexists; exact Hr|].
      rewrite Hask, A', Hw, (answer_content_prompt (text_of (photos_delivered evs))).
      reflexivity.
    + intros Hd. destruct (HD Hd) as ((r & ->) & Hp & Hk & _).
      destruct (HOk r eq_refl) as (_ & _ & Hask & _).
      split; [eauto|]. split; [exact Hp|]. split; [exact Hk|].
      assert (Hc : processedCount f = total).
      { rewrite N, Hk. reflexivity. }
      split; [exact Hc|]. split; [lia|].
      rewrite Hask, A', Hp, Hw, (answer_content_prompt (text_of valid)).
      assert (Hlen : (length valid =? 0)%nat = false).
      { unfold valid, a. destruct (filter_truthy (screenshots s));
          [congruence|reflexivity]. }
      now rewrite Hlen, andb_true_r.
Qed.

End Claims.

Section RouterClaims.

Context (env : Env).

(** C4, as the code has it: in a sweep, for every session older than the
    timeout, the removal of every screenshot it holds is asked for before
    the session is deleted from the map; the session is deleted whether or
    not the removals succeed, and a removal that fails stops nothing: all
    expired sessions go, all others stay as they were, and afterwards the
    files that are gone are exactly the removable screenshots of the expired
    sessions. *)
Theorem C4_sweep_unlinks_then_deletes (b : Bot) :
  let now := clock env (S (tick (world b))) in
  let b' := cleanupSessions env b in
  userSessions b' =
    List.filter (fun e => negb (expired env now (snd e))) (userSessions b)
  /\ (forall uid s p,
        In (uid, s) (userSessions b) -> expired env now s = true ->
        In p (elements_of (screenshots s)) ->
        exists t1 t2 t3 ok,
          trace (world b') =
          trace (world b) ++ t1 ++ [EUnlink p ok] ++ t2 ++ [ESessionDelete uid] ++ t3)
  /\ (forall q,
        q ∈ files (world b') <->
        q ∈ files (world b) /\
        ~ (unlink_ok env q = true /\
           exists uid s, In (uid, s) (userSessions b) /\ expired env now s = true
                         /\ In q (elements_of (screenshots s)))).
Proof.
  cbv zeta. unfold cleanupSessions, expired. cbn [turn tick].
  set (now := clock env (S (tick (world b)))).
  set (t := session_timeout (CONFIG env) * 60 * 1000).
  set (w := turn (world b)).
  assert (K := sweep_kept env now t (userSessions b) w).
  destruct (sweep_trace env now t (userSessions b) w) as (evs & T & O).
  assert (F := sweep_files env now t (userSessions b) w).
  destruct (sweep env now t (userSessions b) w) as [kept w'].
  cbn [fst snd world userSessions] in *. split; [exact K|split].
  - intros uid s p Hin He Hp.
    destruct (O uid s p Hin He Hp) as (t1 & t2 & t3 & ok & ->).
    exists t1, t2, t3, ok. exact T.
  - exact F.
Qed.

(** C7: a text message from a chat that is not in the allow-list is
    dropped: the handler returns without sending anything and without
    touching the session map (nor the files); the history is as before. *)
Theorem C7_unauthorized_message_is_dropped (msg : Message) (b : Bot) :
  chat_id msg ∉ CHAT_IDS env ->
  let '(r, b') := on_text env msg b in
  r = Ok tt
  /\ userSessions b' = userSessions b
  /\ trace (world b') = trace (world b)
  /\ outbound (trace (world b')) = outbound (trace (world b))
  /\ files (world b') = files (world b).
Proof.
  intros Hout. unfold on_text.
  rewrite (bool_decide_eq_false_2 _ Hout). cbn. auto.
Qed.

(** C8: an authorized message whose lower-cased text has [ss] anywhere in
    it runs the single-shot flow and nothing else: the handler is the
    single-shot branch, its first act is the notice of that branch, the
    session map is not touched and no session is created; the digit branch
    is not reached. *)
Theorem C8_any_ss_triggers_single_shot (msg : Message) (b : Bot) (pre post : string) :
  chat_id msg ∈ CHAT_IDS env ->
  toLowerCase (text msg) = pre +:+ "ss" +:+ post ->
  on_text env msg b =
    (fst (single_shot env (turn (world b))),
     {| world := snd (single_shot env (turn (world b)));
        userSessions := userSessions b |})
  /\ userSessions (snd (on_text env msg b)) = userSessions b
  /\ exists ok rest,
       trace (world (snd (on_text env msg b))) =
         trace (world b) ++ EReply "Processing your request..." ok :: rest
       /\ Forall (fun e => ~ session_event e) rest.
Proof.
  intros Hin Hss.
  assert (E : on_text env msg b =
    (fst (single_shot env (turn (world b))),
     {| world := snd (single_shot env (turn (world b)));
        userSessions := userSessions b |})).
  { unfold on_text. rewrite (bool_decide_eq_true_2 _ Hin), Hss, includes_intro.
    cbn [negb world userSessions]. now destruct (single_shot env _). }
  rewrite E. cbn [snd world userSessions]. split; [reflexivity|split; [reflexivity|]].
  exact (single_shot_trace env (turn (world b))).
Qed.

(** C9: when an authorized user who has no session sends [0], the handler
    first puts a fresh empty session into the map and only then finds
    nothing to process: after the "no screenshots" reply the map holds the
    new entry (last), the entry outlives every later text message, and a
    sweep removes it exactly when it has become older than the timeout. *)
Theorem C9_process_command_creates_a_session (msg : Message) (b : Bot) :
  chat_id msg ∈ CHAT_IDS env ->
  text msg = "0" ->
  map_get (from_id msg) (userSessions b) = None ->
  let b' := snd (on_text env msg b) in
  let fresh :=
    {| userId := from_id msg; chatId := chat_id msg; screenshots := [];
       extractedTexts := []; startTime := clock env (S (tick (world b))) |} in
  userSessions b' = userSessions b ++ [(from_id msg, fresh)]
  /\ (exists ok rest,
        trace (world b') =
        trace (world b) ++ ESessionSet (from_id msg) :: EReply msg_no_screenshots ok :: rest
        /\ Forall (fun e => exists t ok', e = EReply t ok') rest)
  /\ (forall inputs, only_texts inputs ->
        map_has (from_id msg) (userSessions (run env b' inputs)) = true)
  /\ map_has (from_id msg) (userSessions (cleanupSessions env b')) =
     negb (expired env (clock env (S (tick (world b')))) fresh).
Proof.
  intros Hin Htext Hnone. cbv zeta.
  assert (E : exists w',
    snd (on_text env msg b) =
      {| world := w';
         userSessions :=
           userSessions b ++
           [(from_id msg,
             {| userId := from_id msg; chatId := chat_id msg; screenshots := [];
                extractedTexts := [];
                startTime := clock env (S (tick (world b))) |})] |}
    /\ exists ok rest,
         trace w' =
         trace (world b) ++ ESessionSet (from_id msg) :: EReply msg_no_screenshots ok :: rest
         /\ Forall (fun e => exists t ok', e = EReply t ok') rest).
  { unfold on_text. rewrite (bool_decide_eq_true_2 _ Hin), Htext.
    change (includes (toLowerCase "0") "ss") with false.
    change (single_digit "0") with (Some 0).
    cbn [negb]. unfold getOrCreateSession, createSession.
    cbn [userSessions world]. rewrite Hnone.
    unfold stack_command.
    change ((1 <=? 0) && (0 <=? 9)) with false. change (0 =? 0) with true.
    cbv iota.
    unfold try_catch, bind, hio, reply, transport, ret.
    cbn [current around screenshots filter_truthy length Z.of_nat
         turn note tick files trace interact].
    change (Z.of_nat 0 =? 0) with true. cbv beta iota.
    cbn [current around screenshots filter_truthy length Z.of_nat
         world userSessions turn note tick files trace interact].
    destruct (transport_ok env (S (tick (world b)))) eqn:T1;
      cbn [snd current around tick interact note turn].
    2: destruct (transport_ok env (S (S (tick (world b))))) eqn:T2;
      cbn [snd current around].
    all: rewrite map_set_again, (map_set_fresh _ _ _ Hnone);
      (eexists; split; [reflexivity|]); cbn [trace interact note turn].
    - exists true, []. rewrite <- app_assoc. split; [reflexivity|constructor].
    - eexists false, [_]. rewrite <- !app_assoc. split; [reflexivity|].
      constructor; [eauto|constructor].
    - eexists false, [_]. rewrite <- !app_assoc. split; [reflexivity|].
      constructor; [eauto|constructor]. }
  destruct E as (w' & E & T). rewrite E. cbn [userSessions world].
  split; [reflexivity|]. split; [exact T|]. split.
  - intros inputs Ht. apply run_texts_keep_keys; [exact Ht|].
    cbn [userSessions]. apply map_has_app_r.
  - rewrite cleanupSessions_keeps. cbn [world userSessions].
    now rewrite (map_has_filter_last _ _ _ _ Hnone).
Qed.

End RouterClaims.

(** * The claims on concrete runs *)

(** C2: two capture commands for digit 1 from the same user.  Afterwards
    slot 1 holds the second screenshot, as the claim says; but the file of
    the first, overwritten one is still on disk and its removal was never
    asked for, neither by the overwrite nor by what can follow it: a batch
    run and an expiry sweep each remove the second file only.  The
    overwritten screenshot is leaked. *)
Theorem C2_overwritten_screenshot_is_never_unlinked :
  let first := "screenshots/screenshot-6000000.png" in
  let second := "screenshots/screenshot-21000000.png" in
  let b2 := run Sample.env_slow Sample.bot0
              [Text (Sample.from "1"); Text (Sample.from "1")] in
  let after_batch := run Sample.env_slow b2 [Text (Sample.from "0")] in
  let after_sweep := run Sample.env_slow b2 [Sweep] in
  (screenshots <$> map_get "7" (userSessions b2)) = Some [Some second]
  /\ In (ECapture first true) (trace (world b2))
  /\ unlink_calls (trace (world b2)) = []
  /\ first ∈ files (world b2)
  /\ unlink_calls (trace (world after_batch)) = [(second, true)]
  /\ first ∈ files (world after_batch)
  /\ userSessions after_sweep = []
  /\ unlink_calls (trace (world after_sweep)) = [(second, true)]
  /\ first ∈ files (world after_sweep).
Proof.
  cbv zeta. repeat split.
  all: try (vm_compute; reflexivity).
  all: try (compute_done).
  vm_compute. tauto.
Qed.

(** C1, where the claim fails.  By design, an item whose extraction fails
    leaves no segment: with the OCR service failing on slot 3 (every chat
    call delivered) the combined text has two segments, not three; and a
    run whose start notice is lost processes no item at all.  And when two
    slots hold the same file, the second of them is labelled with the
    number of the first: slots 1, 3, 5 are processed as 1, 1, 5. *)
Lemma C1_fewer_or_mislabelled_segments :
  occupied (screenshots Sample.session135) = [1; 3; 5]
  /\ allExtractedText
       (snd (processSessionScreenshots Sample.env_b_fails Sample.session135
               Sample.world135))
     = nl +:+ nl +:+ "----- SCREENSHOT 1 -----" +:+ nl +:+ nl +:+ "text of a.png"
          +:+ nl +:+ nl +:+ "----- SCREENSHOT 5 -----" +:+ nl +:+ nl +:+ "text of c.png"
  /\ (let '(r, f) := processSessionScreenshots (Lossy.fail_at 10 Sample.env)
                       Sample.session135 Sample.world135 in
      r = Throw "ETIMEDOUT"
      /\ photos_sent (trace (outside f)) = []
      /\ allExtractedText f = EmptyString)
  /\ occupied (screenshots Lossy.session_twice) = [1; 3; 5]
  /\ (let '(r, f) := processSessionScreenshots Sample.env Lossy.session_twice
                       Sample.world135 in
      photos_sent (trace (outside f))
      = [("a.png", "Screenshot 1"); ("a.png", "Screenshot 1"); ("c.png", "Screenshot 5")]
      /\ allExtractedText f
         = nl +:+ nl +:+ "----- SCREENSHOT 1 -----" +:+ nl +:+ nl +:+ "text of a.png"
              +:+ nl +:+ nl +:+ "----- SCREENSHOT 1 -----" +:+ nl +:+ nl +:+ "text of a.png"
              +:+ nl +:+ nl +:+ "----- SCREENSHOT 5 -----" +:+ nl +:+ nl +:+ "text of c.png").
Proof. vm_compute. repeat split. Qed.

(** C3, where the claim fails.  A run on an empty session returns the
    nothing-to-do result and leaves [startTime] at its old value 0, although
    the run completes at time 10000.  And a run whose start notice is lost
    throws: the session still holds its three screenshots and its old
    [startTime]. *)
Lemma C3_runs_that_leave_the_session_as_it_was :
  (let '(r, f) :=
     processSessionScreenshots Sample.env Sample.session_empty Sample.world135 in
   r = Ok "No screenshots to process."
   /\ startTime (session f) = 0
   /\ clock Sample.env (tick (outside f)) = 10000)
  /\ (let '(r, f) :=
        processSessionScreenshots (Lossy.fail_at 10 Sample.env) Sample.session135
          Sample.world135 in
      r = Throw "ETIMEDOUT"
      /\ screenshots (session f) = [Some "a.png"; None; Some "b.png"; None; Some "c.png"]
      /\ startTime (session f) = 0
      /\ clock Sample.env (tick (outside f)) = 11000).
Proof. vm_compute. repeat split. Qed.

(** C5, where the claim fails.  Extraction fails at slot 3 and succeeds at
    slots 1 and 5, but the notice that follows the extraction of slot 1 is
    lost: the item is handled by the [catch] of the loop.  The run returns;
    two extractions succeeded and the combined text sent to the answer
    service holds their two segments, yet the summary reports one success
    and two failures. *)
Lemma C5_lost_notice_counts_as_failure :
  let env := Lossy.fail_at 15 Sample.env_b_fails in
  map (extraction env) ["a.png"; "b.png"; "c.png"]
    = [Some "text of a.png"; None; Some "text of c.png"]
  /\ (let '(r, f) := processSessionScreenshots env Sample.session135 Sample.world135 in
      r = Ok (header_line +:+ nl +:+ nl +:+ "the answer" +:+ nl +:+ nl
                +:+ summary_lines 3 1 2 34)
      /\ processedCount f = 1
      /\ allExtractedText f
         = nl +:+ nl +:+ "----- SCREENSHOT 1 -----" +:+ nl +:+ nl +:+ "text of a.png"
              +:+ nl +:+ nl +:+ "----- SCREENSHOT 5 -----" +:+ nl +:+ nl +:+ "text of c.png"
      /\ answer_requests (trace (outside f)) = [answer_prompt (allExtractedText f)]).
Proof. vm_compute. repeat split. Qed.

(** C6, where the claim fails.  With the extraction flag off, a run whose
    start notice is lost does not complete: it throws, and the session keeps
    its three screenshots and its [startTime].  And a run on an empty
    session returns at once without resetting anything: [startTime] stays
    0 at time 10000. *)
Lemma C6_run_that_does_not_reset :
  enabled (gemini_ocr (CONFIG Sample.env_no_ocr)) = false
  /\ (let '(r, f) :=
        processSessionScreenshots (Lossy.fail_at 10 Sample.env_no_ocr)
          Sample.session135 Sample.world135 in
      r = Throw "ETIMEDOUT"
      /\ screenshots (session f) = [Some "a.png"; None; Some "b.png"; None; Some "c.png"]
      /\ startTime (session f) = 0)
  /\ (let '(r, f) :=
        processSessionScreenshots Sample.env_no_ocr Sample.session_empty
          Sample.world135 in
      r = Ok "No screenshots to process."
      /\ startTime (session f) = 0
      /\ clock Sample.env_no_ocr (tick (outside f)) = 10000).
Proof. vm_compute. repeat split. Qed.

(** C10, where the claim fails.  With the extraction flag off and the
    notice of the first item lost, the sentinel of all three items is in the
    combined text, but the run counts two of three: the summary reports
    success = 2 and failed = 1.  And a run on an empty session has no
    summary and issues no answer request. *)
Lemma C10_lost_notice_is_not_counted :
  let env := Lossy.fail_at 13 Sample.env_no_ocr in
  enabled (gemini_ocr (CONFIG env)) = false
  /\ (let '(r, f) := processSessionScreenshots env Sample.session135 Sample.world135 in
      r = Ok (header_line +:+ nl +:+ nl +:+ "the answer" +:+ nl +:+ nl
                +:+ summary_lines 3 2 1 28)
      /\ processedCount f = 2
      /\ allExtractedText f
         = delimited [(1, "Gemini OCR is disabled"); (3, "Gemini OCR is disabled");
                      (5, "Gemini OCR is disabled")])
  /\ (let '(r, f) :=
        processSessionScreenshots Sample.env_no_ocr Sample.session_empty
          Sample.world135 in
      r = Ok "No screenshots to process."
      /\ answer_requests (trace (outside f)) = []).
Proof. vm_compute. repeat split. Qed.

(** C4, where the claim fails: the only session is stale and holds one
    screenshot that the system refuses to remove.  The sweep asks for the
    removal, logs the failure, and deletes the session all the same: the
    session is gone from the map while its file is still on disk. *)
Lemma C4_session_deleted_with_file_left :
  let b' := cleanupSessions Sample.env_locked Sample.bot_stale in
  "a.png" ∈ files (world Sample.bot_stale)
  /\ userSessions b' = []
  /\ trace (world b') = [EUnlink "a.png" false; ESessionDelete "7"]
  /\ "a.png" ∈ files (world b').
Proof.
  cbv zeta. repeat split.
  all: try (vm_compute; reflexivity).
  all: compute_done.
Qed.

Lemma C1_witness :
  occupied (screenshots Sample.session135) = [1; 3; 5]
  /\ NoDup ["a.png"; "b.png"; "c.png"]
  /\ photos_sent
       (trace (outside (snd (processSessionScreenshots Sample.env Sample.session135
                               Sample.world135))))
     = [("a.png", "Screenshot 1"); ("b.png", "Screenshot 3"); ("c.png", "Screenshot 5")]
  /\ allExtractedText
       (snd (processSessionScreenshots Sample.env Sample.session135 Sample.world135))
     = nl +:+ nl +:+ "----- SCREENSHOT 1 -----" +:+ nl +:+ nl +:+ "text of a.png"
          +:+ nl +:+ nl +:+ "----- SCREENSHOT 3 -----" +:+ nl +:+ nl +:+ "text of b.png"
          +:+ nl +:+ nl +:+ "----- SCREENSHOT 5 -----" +:+ nl +:+ nl +:+ "text of c.png".
Proof.
  assert (Hnd : NoDup ["a.png"; "b.png"; "c.png"]) by compute_done.
  split; [reflexivity|]. split; [exact Hnd|].
  destruct (C1_sparse_slots_keep_their_numbers Sample.env Sample.session135
              Sample.world135 "a.png" "b.png" "c.png" eq_refl eq_refl Hnd)
    as (evs & items & T & _ & _ & _ & _ & D).
  destruct (D (fun n => eq_refl)) as (_ & _ & P & L).
  split.
  - rewrite T. exact P.
  - apply (L "text of a.png" "text of b.png" "text of c.png"); reflexivity.
Defined.

(** A run that loses the notice of its first item still returns and resets
    the session. *)
Lemma C3_witness :
  exists r,
    fst (processSessionScreenshots (Lossy.fail_at 15 Sample.env) Sample.session135
           Sample.world135) = Ok r
    /\ screenshots
         (session (snd (processSessionScreenshots (Lossy.fail_at 15 Sample.env)
                          Sample.session135 Sample.world135))) = []
    /\ extractedTexts
         (session (snd (processSessionScreenshots (Lossy.fail_at 15 Sample.env)
                          Sample.session135 Sample.world135))) = []
    /\ startTime
         (session (snd (processSessionScreenshots (Lossy.fail_at 15 Sample.env)
                          Sample.session135 Sample.world135))) = 34000.
Proof.
  assert (Hne : screenshots Sample.session135 <> []) by discriminate.
  destruct (proj1 (proj2 (C3_run_leaves_session_ready (Lossy.fail_at 15 Sample.env)
                            Sample.session135 Sample.world135)) Hne)
    as (evs & _ & [(r & E & _ & S1 & S2 & S3)|(e & E & _)]).
  - exists r. split; [exact E|]. split; [exact S1|]. split; [exact S2|].
    rewrite S3. vm_compute. reflexivity.
  - vm_compute in E. discriminate E.
Defined.

Lemma C5_witness :
  extraction Sample.env_b_fails "b.png" = None
  /\ exists r note,
       fst (processSessionScreenshots Sample.env_b_fails Sample.session135
              Sample.world135) = Ok r
       /\ r = header_line +:+ note +:+ summary_lines 3 2 1 34
       /\ allExtractedText
            (snd (processSessionScreenshots Sample.env_b_fails Sample.session135
                    Sample.world135))
          = delimited [(1, "text of a.png"); (5, "text of c.png")]
       /\ answer_requests
            (trace (outside (snd (processSessionScreenshots Sample.env_b_fails
                                    Sample.session135 Sample.world135))))
          = [answer_prompt (delimited [(1, "text of a.png"); (5, "text of c.png")])].
Proof.
  split; [reflexivity|].
  destruct (C5_failed_items_do_not_stop_the_batch Sample.env_b_fails
              Sample.session135 Sample.world135) as (evs & T & _ & _ & A & _ & _ & _ & HOk & HD).
  - discriminate.
  - destruct (HD (fun n => eq_refl)) as ((r & E) & Hp & Hk & _).
    destruct (HOk r E) as ((note & Hr) & Hask).
    rewrite Hp in A, Hask. rewrite Hk in Hr.
    exists r, note. split; [exact E|]. split; [exact Hr|]. split; [exact A|].
    rewrite T. exact Hask.
Defined.

Lemma C6_witness :
  extractTextFromImage Sample.env_no_ocr "a.png" Sample.world135
    = (Ok (Some "Gemini OCR is disabled in feature flags"), Sample.world135)
  /\ ocr_calls
       (trace (outside (snd (processSessionScreenshots Sample.env_no_ocr
                               Sample.session135 Sample.world135)))) = []
  /\ exists r,
       fst (processSessionScreenshots Sample.env_no_ocr Sample.session135
              Sample.world135) = Ok r
       /\ allExtractedText
            (snd (processSessionScreenshots Sample.env_no_ocr Sample.session135
                    Sample.world135))
          = delimited [(1, "Gemini OCR is disabled"); (3, "Gemini OCR is disabled");
                       (5, "Gemini OCR is disabled")]
       /\ screenshots
            (session (snd (processSessionScreenshots Sample.env_no_ocr
                             Sample.session135 Sample.world135))) = [].
Proof.
  destruct (C6_extraction_off_means_sentinel_and_no_call Sample.env_no_ocr
              Sample.session135 Sample.world135 "a.png" eq_refl)
    as (A & _ & O & _ & H).
  split; [exact A|]. split; [exact O|].
  destruct H as (evs & _ & _ & B & C & D); [discriminate|].
  destruct (D (fun n => eq_refl)) as ((r & E) & Hp).
  exists r. split; [exact E|]. split; [rewrite B, Hp; reflexivity|].
  destruct C as [(r' & _ & S1 & _)|(e & E' & _)]; [exact S1|].
  rewrite E in E'. discriminate E'.
Defined.

Lemma C7_witness :
  ("666" ∉ CHAT_IDS Sample.env)
  /\ (let '(r, b') := on_text Sample.env (Sample.stranger "1") Sample.bot0 in
      r = Ok tt
      /\ userSessions b' = userSessions Sample.bot0
      /\ trace (world b') = trace (world Sample.bot0)
      /\ outbound (trace (world b')) = outbound (trace (world Sample.bot0))
      /\ files (world b') = files (world Sample.bot0)).
Proof.
  assert (H : "666" ∉ CHAT_IDS Sample.env).
  { compute_done. }
  split; [exact H|].
  exact (C7_unauthorized_message_is_dropped Sample.env (Sample.stranger "1")
           Sample.bot0 H).
Defined.

(** The word "passport" has [ss] in its middle. *)
Lemma C8_witness :
  includes (toLowerCase "passport") "ss" = true
  /\ userSessions (snd (on_text Sample.env (Sample.from "passport") Sample.bot0))
     = userSessions Sample.bot0
  /\ exists ok rest,
       trace (world (snd (on_text Sample.env (Sample.from "passport") Sample.bot0))) =
         trace (world Sample.bot0) ++ EReply "Processing your request..." ok :: rest
       /\ Forall (fun e => ~ session_event e) rest.
Proof.
  split; [reflexivity|].
  destruct (C8_any_ss_triggers_single_shot Sample.env (Sample.from "passport")
              Sample.bot0 "pa" "port") as (_ & A & B).
  - compute_done.
  - reflexivity.
  - split; [exact A|exact B].
Defined.

Lemma C9_witness :
  map_get "7" (userSessions Sample.bot0) = None
  /\ userSessions (snd (on_text Sample.env (Sample.from "0") Sample.bot0)) =
     [("7", {| userId := "7"; chatId := "42"; screenshots := [];
               extractedTexts := []; startTime := 1000 |})]
  /\ forall inputs, only_texts inputs ->
       map_has "7" (userSessions
                      (run Sample.env (snd (on_text Sample.env (Sample.from "0") Sample.bot0))
                         inputs)) = true.
Proof.
  split; [reflexivity|].
  destruct (C9_process_command_creates_a_session Sample.env (Sample.from "0")
              Sample.bot0) as (A & _ & B & _).
  - compute_done.
  - reflexivity.
  - reflexivity.
  - split; [exact A|exact B].
Defined.

Lemma C10_witness :
  exists r note,
    fst (processSessionScreenshots Sample.env_no_ocr Sample.session135
           Sample.world135) = Ok r
    /\ r = header_line +:+ note +:+ summary_lines 3 3 0 28
    /\ answer_requests
         (trace (outside (snd (processSessionScreenshots Sample.env_no_ocr
                                 Sample.session135 Sample.world135))))
       = [answer_prompt
            (delimited [(1, "Gemini OCR is disabled"); (3, "Gemini OCR is disabled");
                        (5, "Gemini OCR is disabled")])].
Proof.
  destruct (C10_sentinel_counts_as_extracted Sample.env_no_ocr
              Sample.session135 Sample.world135 eq_refl) as (_ & _ & evs & T & _ & _ & _ & _ & _ & HOk & HD).
  - discriminate.
  - destruct (HD (fun n => eq_refl)) as ((r & E) & _ & _ & Hc & _ & Hask).
    destruct (HOk r E) as ((note & Hr) & _).
    rewrite Hc in Hr.
    exists r, note. split; [exact E|]. split; [exact Hr|].
    rewrite T. exact Hask.
Defined.

(** ** Further checks on concrete runs *)

(** The summary of the run in which slot 3 fails, as the user reads it. *)
Example partial_failure_summary :
  match fst (processSessionScreenshots Sample.env_b_fails Sample.session135
               Sample.world135) with
  | Ok r =>
      includes r "Total screenshots: 3" && includes r "Successfully processed: 2"
      && includes r "Failed: 1"
  | Throw _ => false
  end = true.
Proof. vm_compute. reflexivity. Qed.

(** The word "Assess" triggers the single-shot flow as well; a lone digit
    does not. *)
Example ss_examples :
  includes (toLowerCase "Assess") "ss" = true
  /\ includes (toLowerCase "SS") "ss" = true
  /\ includes (toLowerCase "s s") "ss" = false
  /\ includes (toLowerCase "5") "ss" = false.
Proof. repeat split; reflexivity. Qed.

(** The slot number of an item is found by looking its path up in the
    session's array.  Were two slots to hold the same path (two captures
    named after the same millisecond), both items would carry the number of
    the first of them; this is why the statement on slot numbers asks for
    screenshots that differ. *)
Example same_path_in_two_slots :
  let s := {| userId := "7"; chatId := "42";
              screenshots := [Some "a.png"; None; Some "a.png"; None; Some "c.png"];
              extractedTexts := []; startTime := 0 |} in
  photos_sent (trace (outside (snd (processSessionScreenshots Sample.env s Sample.world135))))
  = [("a.png", "Screenshot 1"); ("a.png", "Screenshot 1"); ("c.png", "Screenshot 5")].
Proof. vm_compute. reflexivity. Qed.

(** After any capture command the slot of its digit holds what was written
    there last, and no other slot inside the array changes. *)
Lemma capture_overwrites_only_its_slot (a : array) (digit : Z) (path : string) (j : nat) :
  1 <= digit <= 9 ->
  array_set a (digit - 1) path !! Z.to_nat (digit - 1) = Some (Some path)
  /\ (j <> Z.to_nat (digit - 1) -> (j < length a)%nat ->
      array_set a (digit - 1) path !! j = a !! j).
Proof.
  intros Hd. split.
  - apply array_set_lookup. lia.
  - apply array_set_other.
Qed.

(** * Further properties of the program *)

(** ** Start-up *)

Lemma split_on_nonempty (sep : ascii) (s : string) : split_on sep s <> [].
Proof.
  destruct s as [|c s]; cbn [split_on]; [discriminate|].
  destruct (Ascii.eqb c sep); [discriminate|].
  destruct (split_on sep s); discriminate.
Qed.

Lemma parse_chat_ids_inhabited (v : option string) :
  exists id, id ∈ parse_chat_ids v.
Proof.
  unfold parse_chat_ids.
  set (raw := match v with
              | Some s => if truthy s then s else EmptyString
              | None => EmptyString
              end).
  destruct (split_on "," raw) as [|piece rest] eqn:E.
  - now apply split_on_nonempty in E.
  - exists (trim piece). cbn [map list_to_set]. set_solver.
Qed.

(** X1: the allow-list built from CHAT_IDS is never empty, so the start-up
    check on its size never fires: whether the configuration is rejected
    depends on the three keys only, and a missing or empty CHAT_IDS is not
    detected. *)
Theorem startup_check_ignores_chat_ids
    (bot_token chat_ids gemini_key anthropic_key : option string) :
  size (parse_chat_ids chat_ids) <> 0%nat
  /\ config_rejected bot_token chat_ids gemini_key anthropic_key =
     (falsy_var bot_token || falsy_var gemini_key || falsy_var anthropic_key)%bool.
Proof.
  assert (H : size (parse_chat_ids chat_ids) <> 0%nat).
  { destruct (parse_chat_ids_inhabited chat_ids) as [id Hid].
    intros Hs. apply size_empty_inv in Hs. set_solver. }
  split; [exact H|]. unfold config_rejected.
  apply Nat.eqb_neq in H. rewrite H, orb_false_r. reflexivity.
Qed.

(** X2: with CHAT_IDS missing or empty the allow-list is the set of the
    empty string alone, and the handler drops every message of a chat whose
    id is not the empty string: nothing is sent, no session is touched. *)
Theorem empty_chat_ids_drop_every_message
    (env : Env) (v : option string) (msg : Message) (b : Bot) :
  v = None \/ v = Some EmptyString ->
  CHAT_IDS env = parse_chat_ids v ->
  chat_id msg <> EmptyString ->
  parse_chat_ids v = {[EmptyString]}
  /\ on_text env msg b =
     (Ok tt, {| world := turn (world b); userSessions := userSessions b |}).
Proof.
  intros Hv Hids Hchat.
  assert (E : parse_chat_ids v = {[EmptyString]}).
  { destruct Hv as [-> | ->]; unfold parse_chat_ids; cbn; set_solver. }
  split; [exact E|]. unfold on_text. rewrite Hids, E.
  rewrite bool_decide_eq_false_2 by set_solver. reflexivity.
Qed.

Lemma empty_chat_ids_witness :
  on_text Cases.env_no_ids (Sample.from "1") Sample.bot0 =
  (Ok tt, {| world := turn (world Sample.bot0); userSessions := [] |}).
Proof.
  refine (proj2 (empty_chat_ids_drop_every_message Cases.env_no_ids None
                   (Sample.from "1") Sample.bot0 _ _ _)).
  - left. reflexivity.
  - reflexivity.
  - discriminate.
Defined.

Section Launch.

Context (launch_ok : nat -> bool) (retries delay : Z).

(** The history of the loop from attempt [i] on: failed attempts, each
    followed by one wait, then a last attempt [n] below [retries] with
    nothing after it; the last attempt is the first one that succeeds, or
    attempt [retries - 1] when none does. *)
Lemma launch_loop_history :
  forall (left i : nat),
  (0 < left)%nat ->
  Z.of_nat i + Z.of_nat left = retries ->
  exists n,
    (i <= n)%nat /\ Z.of_nat n < retries
    /\ (forall j, (i <= j < n)%nat -> launch_ok j = false)
    /\ let failed := flat_map (fun j => [ELaunch j false; EWait delay]) (seq i (n - i)) in
       (launch_ok n = true
        /\ launch_loop launch_ok retries delay left i
           = (Launched, failed ++ [ELaunch n true]))
       \/ (launch_ok n = false /\ Z.of_nat n = retries - 1
           /\ launch_loop launch_ok retries delay left i
              = (LaunchFailed n, failed ++ [ELaunch n false])).
Proof.
  induction left as [|left IH]; intros i Hpos Hr; [lia|]. cbn [launch_loop].
  destruct (launch_ok i) eqn:Hi.
  - exists i. split; [lia|]. split; [lia|]. split; [intros j Hj; lia|].
    left. rewrite Nat.sub_diag. split; [exact Hi|reflexivity].
  - destruct (Z.of_nat i <? retries - 1) eqn:Hlt.
    + apply Z.ltb_lt in Hlt.
      destruct (IH (S i) ltac:(lia) ltac:(lia)) as (n & Hn & Hb & Hf & H).
      exists n. split; [lia|]. split; [exact Hb|]. split.
      { intros j Hj. destruct (Nat.eq_dec j i) as [->|Hne]; [exact Hi|].
        apply Hf. lia. }
      replace (n - i)%nat with (S (n - S i)) by lia. cbn [seq flat_map app].
      cbv zeta in H. destruct H as [(Hok & ->)|(Hno & Hlast & ->)].
      * left. split; [exact Hok|reflexivity].
      * right. split; [exact Hno|]. split; [exact Hlast|reflexivity].
    + apply Z.ltb_ge in Hlt.
      exists i. split; [lia|]. split; [lia|]. split; [intros j Hj; lia|].
      right. rewrite Nat.sub_diag. split; [exact Hi|]. split; [lia|reflexivity].
Qed.

(** X3: [launchBot] succeeds at the first attempt that goes through, if
    there is one among the first [retries]; its history is then exactly:
    each earlier attempt, failed and followed by one wait of [delay], in
    order, and then the successful attempt, after which nothing happens. *)
Theorem launchBot_stops_at_first_success (k : nat) :
  Z.of_nat k < retries ->
  (forall j, (j < k)%nat -> launch_ok j = false) ->
  launch_ok k = true ->
  launchBot launch_ok retries delay =
    (Launched,
     flat_map (fun j => [ELaunch j false; EWait delay]) (seq 0 k) ++ [ELaunch k true]).
Proof.
  intros Hk Hfail Hok. unfold launchBot.
  destruct (launch_loop_history (Z.to_nat retries) 0%nat ltac:(lia) ltac:(lia))
    as (n & _ & Hb & Hf & H).
  assert (Hn : n = k).
  { destruct (Nat.lt_trichotomy n k) as [Hlt|[->|Hgt]]; [|reflexivity|].
    - destruct H as [(Hon & _)|(_ & Hlast & _)]; [|lia].
      rewrite (Hfail n Hlt) in Hon. discriminate.
    - rewrite (Hf k ltac:(lia)) in Hok. discriminate. }
  subst n. rewrite Nat.sub_0_r in H.
  destruct H as [(_ & ->)|(Hno & _)]; [reflexivity|congruence].
Qed.

(** X4: when every one of the [retries] attempts fails (at least one is
    made), [launchBot] rejects with the error of the last attempt; its
    history is exactly: each attempt but the last, failed and followed by
    one wait of [delay], and then the last failed attempt with no wait after
    it. *)
Theorem launchBot_gives_up_after_retries :
  1 <= retries ->
  (forall j, Z.of_nat j < retries -> launch_ok j = false) ->
  launchBot launch_ok retries delay =
    (LaunchFailed (Z.to_nat retries - 1),
     flat_map (fun j => [ELaunch j false; EWait delay]) (seq 0 (Z.to_nat retries - 1))
       ++ [ELaunch (Z.to_nat retries - 1) false]).
Proof.
  intros Hr Hfail. unfold launchBot.
  destruct (launch_loop_history (Z.to_nat retries) 0%nat ltac:(lia) ltac:(lia))
    as (n & _ & Hb & _ & H).
  rewrite Nat.sub_0_r in H.
  destruct H as [(Hon & _)|(_ & Hlast & ->)].
  - rewrite (Hfail n Hb) in Hon. discriminate.
  - replace (Z.to_nat retries - 1)%nat with n by lia. reflexivity.
Qed.

(** X5: whatever the outcomes of the attempts, the history of [launchBot]
    has one shape.  When [retries] is not positive nothing is tried and the
    promise settles with [undefined], not with an error.  Otherwise there is
    a last attempt [n] below [retries]; every attempt before it failed and
    was followed by exactly one wait of [delay]; nothing follows the last
    attempt; and the last attempt is either the first that succeeds
    ([launchBot] resolves) or attempt [retries - 1] failing ([launchBot]
    rejects). *)
Theorem launchBot_attempts_are_bounded :
  let out := launchBot launch_ok retries delay in
  (retries <= 0 -> out = (NotAttempted, []))
  /\ (0 < retries ->
      exists n,
        Z.of_nat n < retries
        /\ (forall j, (j < n)%nat -> launch_ok j = false)
        /\ let failed := flat_map (fun j => [ELaunch j false; EWait delay]) (seq 0 n) in
           (launch_ok n = true /\ out = (Launched, failed ++ [ELaunch n true]))
           \/ (launch_ok n = false /\ Z.of_nat n = retries - 1
               /\ out = (LaunchFailed n, failed ++ [ELaunch n false]))).
Proof.
  cbv zeta. unfold launchBot. split.
  - intros Hle. replace (Z.to_nat retries) with 0%nat by lia. reflexivity.
  - intros Hpos.
    destruct (launch_loop_history (Z.to_nat retries) 0%nat ltac:(lia) ltac:(lia))
      as (n & _ & Hb & Hf & H).
    rewrite Nat.sub_0_r in H. exists n. split; [exact Hb|].
    split; [intros j Hj; apply Hf; lia|exact H].
Qed.

End Launch.

(** X6: the process exits with code 1 at start-up exactly when the first
    five attempts to launch all fail, and it has then waited four times five
    seconds; otherwise it does not exit. *)
Theorem startup_exits_only_after_five_failures (launch_ok : nat -> bool) :
  let '(code, events) := startup launch_ok in
  code =
    (if launch_ok 0%nat || launch_ok 1%nat || launch_ok 2%nat
        || launch_ok 3%nat || launch_ok 4%nat
     then None else Some 1)
  /\ (code = Some 1 -> waits events = [5000; 5000; 5000; 5000]).
Proof.
  unfold startup, launchBot.
  change (Z.to_nat 5) with 5%nat. cbn [launch_loop].
  destruct (launch_ok 0%nat), (launch_ok 1%nat), (launch_ok 2%nat),
    (launch_ok 3%nat), (launch_ok 4%nat);
    cbn; split; try reflexivity; try discriminate; intros _; reflexivity.
Qed.

Lemma launchBot_success_witness :
  launchBot Cases.third_time_lucky 5 5000 =
    (Launched,
     [ELaunch 0 false; EWait 5000; ELaunch 1 false; EWait 5000; ELaunch 2 true]).
Proof.
  apply (launchBot_stops_at_first_success Cases.third_time_lucky 5 5000 2).
  - lia.
  - intros j Hj. destruct j as [|[|j]]; [reflexivity|reflexivity|lia].
  - reflexivity.
Defined.

Lemma launchBot_failure_witness :
  launchBot Cases.never 5 5000 =
    (LaunchFailed 4,
     [ELaunch 0 false; EWait 5000; ELaunch 1 false; EWait 5000; ELaunch 2 false;
      EWait 5000; ELaunch 3 false; EWait 5000; ELaunch 4 false]).
Proof.
  apply (launchBot_gives_up_after_retries Cases.never 5 5000).
  - lia.
  - intros j _. reflexivity.
Defined.

(** ** The adapters *)

Section Adapters.

Context (env : Env).

(** X7: [extractTextFromImage] never throws and never touches a file.  With
    the flag on it makes one upload and, only if that succeeded, one chat
    call; its result is [null] exactly when the upload or the chat call
    failed.  With the flag off it returns its sentinel without any call.
    ([uploadToGemini] is the upload step: it turns a failure into [null].) *)
Theorem extractTextFromImage_contains_failures (p : string) (w : World) :
  exists r w',
    extractTextFromImage env p w = (Ok r, w')
    /\ files w' = files w
    /\ trace w' =
       trace w ++
       (if enabled (gemini_ocr (CONFIG env)) then
          EUpload p (upload_ok env p)
            :: (if upload_ok env p then [EGemini p (gemini env p)] else [])
        else [])
    /\ r = (if enabled (gemini_ocr (CONFIG env)) then
              if upload_ok env p then gemini env p else None
            else Some ocr_disabled_in_flags).
Proof.
  unfold extractTextFromImage, uploadToGemini, sendMessage, try_catch, bind, throw, ret.
  destruct (enabled (gemini_ocr (CONFIG env))); cbn [negb].
  - destruct (upload_ok env p); cbn [interact files trace tick].
    + destruct (gemini env p); eexists _, _; (split; [reflexivity|]);
        cbn [interact files trace]; rewrite <- ?app_assoc; auto.
    + eexists _, _. split; [reflexivity|]. cbn [interact files trace]. auto.
  - eexists _, _. split; [reflexivity|]. rewrite app_nil_r. auto.
Qed.

(** X8: [getAnswerFromChatGPT] never throws and never touches a file.  With
    the flag on it makes exactly one request and returns the answer, or the
    fixed failure text when the request fails; with the flag off it returns
    its sentinel and makes no request. *)
Theorem getAnswerFromChatGPT_contains_failures (promptText : string) (w : World) :
  exists w',
    getAnswerFromChatGPT env promptText w =
      (Ok (if enabled (chatgpt_answer (CONFIG env))
           then answer_for env promptText else claude_disabled_in_flags), w')
    /\ files w' = files w
    /\ trace w' =
       trace w ++
       (if enabled (chatgpt_answer (CONFIG env))
        then [EAnthropic (answer_content promptText)
                (anthropic env (answer_content promptText))]
        else []).
Proof.
  unfold getAnswerFromChatGPT, answer_for, try_catch, ret.
  destruct (enabled (chatgpt_answer (CONFIG env))); cbn [negb].
  - destruct (anthropic env (answer_content promptText));
      eexists; (split; [reflexivity|]); cbn [interact files trace]; auto.
  - eexists. split; [reflexivity|]. rewrite app_nil_r. auto.
Qed.

End Adapters.

(** ** File names *)







(** ** The single-shot flow *)

Section SingleShot.

Context (env : Env).

(** X11: the single-shot flow when the transport delivers and the capture
    succeeds.  It never throws.  It asks for an answer exactly when the
    answer flag is on and the text at hand is not the failure text: so it
    does ask, over the literal "No text extracted", when extraction is
    switched off, and it does not ask when extraction failed.  The
    screenshot file is removed at the end when the system allows it and is
    left on disk otherwise; nothing else is removed. *)
Theorem single_shot_on_success (w : World) :
  Delivers env ->
  capture_ok env (S (tick w)) = true ->
  let path := screenshot_path env (S (tick w)) in
  let extractedText := single_shot_text env path in
  let '(r, w') := single_shot env w in
  r = Ok tt
  /\ answer_requests (trace w') =
     answer_requests (trace w) ++
     (if enabled (chatgpt_answer (CONFIG env))
         && negb (String.eqb extractedText "Failed to extract text")
      then [answer_content extractedText] else [])
  /\ unlink_calls (trace w') = unlink_calls (trace w) ++ [(path, unlink_ok env path)]
  /\ files w' = (if unlink_ok env path then files w ∖ {[path]}
                 else {[path]} ∪ files w).
Proof.
  intros Hd Hc. cbv zeta. destruct w as [tk fs tr]. cbn [tick] in *.
  unfold single_shot, single_shot_text, screenshot_path.
  unfold try_catch, bind, reply, replyWithPhoto, replyWithDocument, deleteMessage,
    takeScreenshot, bind, Date_now, when, ret, getAnswerFromChatGPT,
    extractTextFromImage, uploadToGemini, sendMessage, try_catch, bind, throw, ret, unlink.
  rewrite !(transport_delivers _ _ _ Hd). cbn [interact tick files trace]. rewrite Hc.
  cbn [interact tick files trace]. rewrite !(transport_delivers _ _ _ Hd).
  cbn [interact tick files trace].
  set (path := path_join (IMAGES_DIR env) ("screenshot-" +:+ num (clock env (S tk)) +:+ ".png")).
  assert (Hin : bool_decide (path ∈ ({[path]} ∪ fs : gset string)) = true).
  { apply bool_decide_eq_true_2, elem_of_union_l, elem_of_singleton. reflexivity. }
  destruct (enabled (chatgpt_answer (CONFIG env))) eqn:Hans;
    (destruct (enabled (gemini_ocr (CONFIG env))) eqn:Hocr; cbn [negb];
     [destruct (upload_ok env path) eqn:Hup;
      [destruct (gemini env path) as [t|] eqn:Hg; [destruct (truthy t) eqn:Ht|]|]|]).
  all: repeat first
         [ progress cbn [interact tick files trace negb andb when]
         | rewrite (transport_delivers _ _ _ Hd)
         | rewrite Hin | rewrite Hans | rewrite Ht
         | rewrite String.eqb_refl
         | progress change (truthy "Failed to extract text") with true
         | progress change (truthy "No text extracted") with true
         | progress change (String.eqb "No text extracted" "Failed to extract text")
             with false
         | match goal with
           | |- context [String.eqb ?a "Failed to extract text"] =>
               is_var a; destruct (String.eqb a "Failed to extract text") eqn:?
           end
         | match goal with
           | |- context [anthropic env ?c] => destruct (anthropic env c) eqn:?
           end
         | match goal with
           | |- context [unlink_ok env ?p] => destruct (unlink_ok env p) eqn:?
           end ].
  all: unfold answer_requests, unlink_calls; rewrite ?obs_snoc;
       cbn [app]; rewrite ?app_nil_r.
  all: repeat split; try reflexivity.
  all: try (apply set_eq; intros x; rewrite elem_of_difference, elem_of_union,
              elem_of_difference; tauto).
Qed.

(** X12: the single-shot flow when the capture fails (the transport
    delivering): the user gets the notice and then the fixed failure reply,
    nothing else happens (no OCR, no answer request, no file written or
    removed), the handler returns normally, and the notice is not deleted. *)
Theorem single_shot_on_capture_failure (w : World) :
  Delivers env ->
  capture_ok env (S (tick w)) = false ->
  exists w',
    single_shot env w = (Ok tt, w')
    /\ trace w' =
       trace w ++
       [EReply "Processing your request..." true;
        ECapture (screenshot_path env (S (tick w))) false;
        EReply "Failed to process screenshot." true]
    /\ files w' = files w.
Proof.
  intros Hd Hc. destruct w as [tk fs tr]. cbn [tick] in *.
  unfold single_shot, screenshot_path.
  unfold try_catch, bind at 1, reply at 1.
  rewrite (transport_delivers _ _ _ Hd). cbn [interact tick files trace].
  unfold bind at 1, takeScreenshot, bind, Date_now.
  cbn [interact tick files trace]. rewrite Hc.
  unfold bind, reply, ret. rewrite (transport_delivers _ _ _ Hd).
  cbn [interact tick files trace].
  eexists. split; [reflexivity|]. cbn [interact trace files].
  rewrite <- !app_assoc. split; reflexivity.
Qed.

End SingleShot.

Lemma single_shot_success_witness :
  let '(r, w') := single_shot Sample.env_no_ocr Sample.world0 in
  r = Ok tt
  /\ answer_requests (trace w') = [answer_content "No text extracted"]
  /\ unlink_calls (trace w') = [("screenshots/screenshot-1000.png", true)]
  /\ files w' = ∅.
Proof.
  assert (H := single_shot_on_success Sample.env_no_ocr Sample.world0
                 ltac:(intros n; reflexivity) ltac:(reflexivity)).
  cbv zeta in H. destruct (single_shot Sample.env_no_ocr Sample.world0) as [r w'].
  destruct H as (R & A & U & F). repeat split; [exact R|exact A|exact U|].
  rewrite F. compute_done.
Defined.

Lemma single_shot_capture_failure_witness :
  exists w',
    single_shot Cases.env_no_capture Sample.world0 = (Ok tt, w')
    /\ trace w' =
       [EReply "Processing your request..." true;
        ECapture "screenshots/screenshot-1000.png" false;
        EReply "Failed to process screenshot." true]
    /\ files w' = ∅.
Proof.
  apply (single_shot_on_capture_failure Cases.env_no_capture Sample.world0).
  - intros n. reflexivity.
  - reflexivity.
Defined.

(** ** More on the batch pipeline *)

Section Batch.

Context (env : Env).

Lemma process_item_files (total i : Z) (p : string) (f : Frame) (q : string) :
  Delivers env ->
  q ∈ files (outside (snd (process_item env total i p f))) <->
  q ∈ files (outside f) /\ ~ (q = p /\ unlink_ok env q = true).
Proof.
  intros Hd. destruct f as [[uid cid shots texts st] cr all pc w].
  unfold process_item, screenshotNumber_of.
  unfold try_catch, bind, io, modify, reply, replyWithPhoto, ret.
  frame_simpl.
  rewrite !(transport_delivers _ _ _ Hd).
  frame_simpl.
  unfold extractTextFromImage, uploadToGemini, sendMessage, try_catch, bind,
    throw, ret, unlink.
  destruct (enabled (gemini_ocr (CONFIG env))) eqn:Hon; cbn [negb];
    [destruct (upload_ok env p) eqn:Hup; [destruct (gemini env p) as [t|] eqn:Hg|]|];
    frame_simpl.
  all: try (destruct (truthy t) eqn:Ht).
  all: try (rewrite truthy_ocr_disabled).
  all: frame_simpl; rewrite ?(transport_delivers _ _ _ Hd); frame_simpl.
  all: destruct (bool_decide (p ∈ files w)) eqn:Hin;
       [apply bool_decide_eq_true in Hin|apply bool_decide_eq_false in Hin];
       destruct (unlink_ok env p) eqn:Hok; cbn [andb].
  all: frame_simpl; rewrite ?(transport_delivers _ _ _ Hd); frame_simpl.
  all: rewrite ?elem_of_difference, ?elem_of_singleton.
  all: split; [intros H; split; [tauto|]; intros [-> Hq]; first [congruence|tauto]
              |intros [H Hn]; try split; try exact H; intros ->; apply Hn; now split].
Qed.

Lemma process_items_files (total : Z) (valid : list string) (q : string) :
  Delivers env ->
  forall (i : Z) (f : Frame),
  q ∈ files (outside (snd (process_items env total i valid f))) <->
  q ∈ files (outside f) /\ ~ (In q valid /\ unlink_ok env q = true).
Proof.
  intros Hd. induction valid as [|p rest IH]; intros i f.
  - cbn. tauto.
  - cbn [process_items]. unfold bind at 1.
    destruct (item_spec env total i p f Hd) as (w1 & E1 & _).
    assert (F := process_item_files total i p f q Hd). rewrite E1 in *. cbn [snd] in F.
    rewrite IH, F. cbn [In]. split.
    + intros [[Hq Hn] Hn']. split; [exact Hq|].
      intros [[<-|Hi] Hu]; [apply Hn; now split|apply Hn'; now split].
    + intros [Hq Hn]. split; [split; [exact Hq|]|].
      * intros [-> Hu]. apply Hn. split; [now left|exact Hu].
      * intros [Hi Hu]. apply Hn. split; [now right|exact Hu].
Qed.

Lemma batch_files (s : Session) (w : World) (q : string) :
  Delivers env -> screenshots s <> [] ->
  q ∈ files (outside (snd (processSessionScreenshots env s w))) <->
  q ∈ files w /\ ~ (In q (filter_truthy (screenshots s)) /\ unlink_ok env q = true).
Proof.
  intros Hd Hne. destruct s as [uid cid shots texts st]. cbn [screenshots] in *.
  unfold processSessionScreenshots, processSessionScreenshots_from. frame_simpl.
  assert (Hlen : (length shots =? 0)%nat = false)
    by (destruct shots; [congruence|reflexivity]).
  rewrite Hlen.
  unfold bind at 1. unfold io at 1, reply at 1.
  rewrite (transport_delivers _ _ _ Hd). frame_simpl.
  unfold bind at 1.
  match goal with
  | |- context [process_items env ?t ?i ?v ?f] =>
      destruct (items_spec env t v Hd i f) as (w1 & E1 & _);
      assert (F1 := process_items_files t v q Hd i f);
      rewrite E1 in F1 |- *
  end.
  cbn [snd outside interact files] in F1.
  unfold after_items. frame_simpl.
  unfold bind at 1. unfold bind at 1. unfold io at 1, reply at 1.
  rewrite (transport_delivers _ _ _ Hd). frame_simpl.
  unfold bind at 1.
  match goal with
  | |- context [answer_step env ?f] =>
      destruct (answer_step_spec env f Hd) as (w2 & E2 & _ & _ & _ & _ & F2);
      rewrite E2
  end.
  cbn [outside interact files] in F2.
  unfold finish, bind, io, Date_now, modify. frame_simpl.
  rewrite F2. exact F1.
Qed.

(** X13: in a batch run (the transport delivering) every occupied slot's
    screenshot is sent as a photo once, goes through the extraction step
    once and has its removal asked for once, all in slot order, whatever
    the extraction gave; afterwards the files that are gone are exactly the
    processed screenshots that the system allowed to remove. *)
Theorem run_handles_each_screenshot_once (s : Session) (w : World) :
  Delivers env ->
  screenshots s <> [] ->
  let valid := filter_truthy (screenshots s) in
  exists r f,
    processSessionScreenshots env s w = (Ok r, f)
    /\ photos_sent (trace (outside f)) =
       photos_sent (trace w) ++
       map (fun p => (p, caption (findIndex p (screenshots s) + 1))) valid
    /\ ocr_calls (trace (outside f)) =
       ocr_calls (trace w) ++ flat_map (ocr_calls_for env) valid
    /\ map fst (unlink_calls (trace (outside f))) =
       map fst (unlink_calls (trace w)) ++ valid
    /\ forall q,
         q ∈ files (outside f) <->
         q ∈ files w /\ ~ (In q valid /\ unlink_ok env q = true).
Proof.
  intros Hd Hne valid.
  destruct (run_spec env s w Hd Hne) as (w' & E & [A P O U F]). cbv zeta in E.
  eexists _, _. split; [exact E|]. frame_simpl.
  split; [exact P|]. split; [exact O|]. split; [exact U|].
  intros q. assert (R := batch_files s w q Hd Hne). rewrite E in R. exact R.
Qed.

(** X14: when the start notice of a batch run cannot be sent, the run is
    abandoned at once: the call throws the transport's error, the session
    keeps its screenshots (it is not reset), and no photo, OCR call or file
    removal has happened. *)
Theorem run_aborts_when_start_notice_fails (s : Session) (w : World) :
  screenshots s <> [] ->
  transport_ok env (tick w) = false ->
  exists f,
    processSessionScreenshots env s w = (Throw (error_message env (tick w)), f)
    /\ session f = s
    /\ files (outside f) = files w
    /\ trace (outside f) =
       trace w ++
       [EReply (msg_start (Z.of_nat (length (filter_truthy (screenshots s))))) false].
Proof.
  intros Hne Hfail.
  unfold processSessionScreenshots, processSessionScreenshots_from. frame_simpl.
  assert (Hlen : (length (screenshots s) =? 0)%nat = false)
    by (destruct (screenshots s); [congruence|reflexivity]).
  rewrite Hlen. unfold bind at 1. unfold io at 1, reply at 1, transport.
  frame_simpl. rewrite Hfail. eexists. split; [reflexivity|]. frame_simpl. auto.
Qed.

Lemma extracted_none (a : array) (valid : list string) :
  (forall p, In p valid -> truthy_opt (extraction env p) = false) ->
  extracted env a valid = [].
Proof.
  induction valid as [|p valid IH]; intros H; [reflexivity|].
  rewrite extracted_cons, IH by (intros q Hq; apply H; now right).
  unfold extracted. cbn [omap list_omap].
  assert (Hp := H p (or_introl eq_refl)).
  destruct (extraction env p) as [t|]; [|reflexivity].
  cbn [truthy_opt] in Hp. now rewrite Hp.
Qed.

(** X15: when no extraction of a batch run gives a text, no answer is
    asked for, with the answer flag on or off and whatever the chat
    transport does: the combined text stays empty and no item is counted.
    When the run returns (as it does when every chat call is delivered) its
    response is the header followed at once by the summary lines with zero
    successes, and the session is reset: no screenshots, no extracted texts,
    and the start time set to the time of completion. *)
Theorem run_without_text_asks_no_answer (s : Session) (w : World) :
  screenshots s <> [] ->
  (forall p, In p (filter_truthy (screenshots s)) ->
             truthy_opt (extraction env p) = false) ->
  let total := Z.of_nat (length (filter_truthy (screenshots s))) in
  let out := processSessionScreenshots env s w in
  let f := snd out in
  answer_requests (trace (outside f)) = answer_requests (trace w)
  /\ allExtractedText f = EmptyString
  /\ processedCount f = 0
  /\ (forall r, fst out = Ok r ->
      r = header_line +:+
          summary_lines total 0 total
            (round_div (clock env (tick (outside f)) - startTime s) 1000)
      /\ screenshots (session f) = [] /\ extractedTexts (session f) = []
      /\ startTime (session f) = clock env (tick (outside f)))
  /\ (Delivers env -> exists r, fst out = Ok r).
Proof.
  intros Hne Hnone total. cbv zeta.
  destruct (processSessionScreenshots env s w) as [res f] eqn:E.
  destruct (run_any env s w res f Hne E)
    as (evs & (T & R & K & _ & A & N & _) & Hsub & HOk & _ & HD).
  cbn [fst snd].
  assert (Hnil : forall l, l `sublist_of` filter_truthy (screenshots s) ->
                           extracted env (screenshots s) l = []).
  { intros l Hl. apply extracted_none. intros p Hp. apply Hnone.
    apply list_elem_of_In. eapply sublist_subseteq; [exact Hl|].
    now apply list_elem_of_In. }
  rewrite (Hnil _ R) in A. cbn [combined] in A.
  rewrite (Hnil _ (transitivity K R)) in N. cbn [length Z.of_nat] in N.
  unfold answer_wanted in Hsub, HOk. rewrite A in Hsub, HOk.
  change (truthy EmptyString) with false in Hsub, HOk.
  rewrite andb_false_r in Hsub, HOk. apply sublist_nil_r in Hsub.
  split; [rewrite T; unfold answer_requests in *; now rewrite omap_app, Hsub, app_nil_r|].
  split; [exact A|]. split; [exact N|]. split.
  - intros r ->. destruct (HOk r eq_refl) as (_ & (more & Hr & _) & _ & S1 & S2 & S3).
    rewrite N, session_summary_lines, Z.sub_0_r in Hr. auto.
  - intros Hd. apply (HD Hd).
Qed.

(** X16: a failure of the answer service does not fail the batch run.  In a
    run that returns (as it does when every chat call is delivered) and
    that wanted an answer (the answer flag on, the combined text not empty),
    when the answer service fails on the request, the response is the
    header, then the fixed failure text in the place of the answer, then
    the summary lines (with, in between, the note of a lost reply if the
    reply carrying the failure text was lost; nothing when every chat call
    is delivered); the one request was made, over the combined text, and the
    session is reset. *)
Theorem run_survives_answer_failure (s : Session) (w : World) :
  screenshots s <> [] ->
  let total := Z.of_nat (length (filter_truthy (screenshots s))) in
  let out := processSessionScreenshots env s w in
  let f := snd out in
  answer_wanted env (allExtractedText f) = true ->
  anthropic env (answer_prompt (allExtractedText f)) = None ->
  (forall r, fst out = Ok r ->
     (exists more,
        r = header_line +:+ nl +:+ nl +:+ "Failed to get the answer from Claude."
              +:+ nl +:+ nl +:+ more +:+
            summary_lines total (processedCount f) (total - processedCount f)
              (round_div (clock env (tick (outside f)) - startTime s) 1000)
        /\ (Delivers env -> more = EmptyString))
     /\ answer_requests (trace (outside f)) =
        answer_requests (trace w) ++ [answer_prompt (allExtractedText f)]
     /\ screenshots (session f) = [] /\ extractedTexts (session f) = []
     /\ startTime (session f) = clock env (tick (outside f)))
  /\ (Delivers env -> exists r, fst out = Ok r).
Proof.
  intros Hne total. cbv zeta.
  destruct (processSessionScreenshots env s w) as [res f] eqn:E.
  destruct (run_any env s w res f Hne E)
    as (evs & (T & _) & _ & HOk & _ & HD).
  cbn [fst snd]. intros Hw Hfail. split; [|intros Hd; apply (HD Hd)].
  intros r ->. destruct (HOk r eq_refl) as (_ & (more & Hr & Hm) & Hask & S1 & S2 & S3).
  rewrite Hw in Hr, Hask. unfold answer_for in Hr.
  rewrite answer_content_prompt in Hr, Hask. rewrite Hfail in Hr.
  split; [|split; [rewrite T; unfold answer_requests in *; now rewrite omap_app, Hask|auto]].
  exists more. split; [|exact Hm].
  rewrite Hr, session_summary_lines, !append_assoc. reflexivity.
Qed.

End Batch.

Lemma run_once_witness :
  exists r f,
    processSessionScreenshots Sample.env_locked Sample.session135 Sample.world135
      = (Ok r, f)
    /\ map fst (unlink_calls (trace (outside f))) = ["a.png"; "b.png"; "c.png"]
    /\ files (outside f) = files Sample.world135.
Proof.
  destruct (run_handles_each_screenshot_once Sample.env_locked Sample.session135
              Sample.world135) as (r & f & E & _ & _ & U & F).
  - intros n. reflexivity.
  - discriminate.
  - exists r, f. split; [exact E|]. split; [exact U|].
    apply set_eq. intros q. rewrite F. split; [tauto|].
    intros H. split; [exact H|]. intros [_ Hu]. discriminate Hu.
Defined.

Lemma run_abort_witness :
  exists f,
    processSessionScreenshots Cases.env_offline Sample.session135 Sample.world135
      = (Throw "ETIMEDOUT", f)
    /\ session f = Sample.session135
    /\ files (outside f) = files Sample.world135.
Proof.
  destruct (run_aborts_when_start_notice_fails Cases.env_offline Sample.session135
              Sample.world135) as (f & E & S & F & _).
  - discriminate.
  - reflexivity.
  - exists f. auto.
Defined.

Lemma run_without_text_witness :
  processedCount
    (snd (processSessionScreenshots Cases.env_all_fail Sample.session135 Sample.world135))
  = 0
  /\ answer_requests
       (trace (outside (snd (processSessionScreenshots Cases.env_all_fail
                               Sample.session135 Sample.world135)))) = []
  /\ exists r,
       fst (processSessionScreenshots Cases.env_all_fail Sample.session135
              Sample.world135) = Ok r
       /\ r = header_line +:+ summary_lines 3 0 3 27.
Proof.
  destruct (run_without_text_asks_no_answer Cases.env_all_fail Sample.session135
              Sample.world135) as (A & _ & P & HOk & HD).
  - discriminate.
  - intros p _. reflexivity.
  - split; [exact P|]. split; [exact A|].
    destruct (HD (fun n => eq_refl)) as (r & E).
    exists r. split; [exact E|]. destruct (HOk r E) as (Hr & _).
    rewrite Hr. vm_compute. reflexivity.
Defined.

Lemma run_answer_failure_witness :
  exists r,
    fst (processSessionScreenshots Cases.env_no_answer Sample.session135
           Sample.world135) = Ok r
    /\ r = header_line +:+ nl +:+ nl +:+ "Failed to get the answer from Claude."
             +:+ nl +:+ nl +:+ summary_lines 3 3 0 34
    /\ screenshots
         (session (snd (processSessionScreenshots Cases.env_no_answer
                          Sample.session135 Sample.world135))) = [].
Proof.
  destruct (run_survives_answer_failure Cases.env_no_answer Sample.session135
              Sample.world135) as (HOk & HD).
  - discriminate.
  - vm_compute. reflexivity.
  - vm_compute. reflexivity.
  - destruct (HD (fun n => eq_refl)) as (r & E).
    destruct (HOk r E) as ((more & Hr & Hm) & _ & S1 & _).
    exists r. split; [exact E|]. split; [|exact S1].
    rewrite Hr, (Hm (fun n => eq_refl)). vm_compute. reflexivity.
Defined.

(** ** More on the session store and the command router *)

Lemma map_get_map_set_eq (k : string) (v : Session) (m : SessionMap) :
  map_get k (map_set k v m) = Some v.
Proof.
  induction m as [|[k' v'] m IH]; cbn [map_set map_get].
  - now rewrite String.eqb_refl.
  - destruct (String.eqb k' k) eqn:E; cbn [map_get]; rewrite E; [reflexivity|exact IH].
Qed.

Lemma map_get_map_set_ne (k k' : string) (v : Session) (m : SessionMap) :
  k <> k' -> map_get k' (map_set k v m) = map_get k' m.
Proof.
  intros Hne. induction m as [|[k0 v0] m IH]; cbn [map_set map_get].
  - destruct (String.eqb_spec k k'); [contradiction|reflexivity].
  - destruct (String.eqb_spec k0 k) as [->|_]; cbn [map_get].
    + destruct (String.eqb_spec k k'); [contradiction|reflexivity].
    + destruct (String.eqb k0 k'); [reflexivity|exact IH].
Qed.

Lemma map_set_keys (k : string) (v : Session) (m : SessionMap) :
  map fst (map_set k v m) =
  if map_has k m then map fst m else map fst m ++ [k].
Proof.
  unfold map_has. induction m as [|[k' v'] m IH]; cbn [map_set map_get map fst app].
  - reflexivity.
  - destruct (String.eqb k' k); cbn [map fst]; [reflexivity|].
    rewrite IH. destruct (map_get k m); reflexivity.
Qed.

Lemma map_get_none_keys (k : string) (m : SessionMap) :
  map_get k m = None -> ~ In k (map fst m).
Proof.
  induction m as [|[k' v'] m IH]; cbn [map_get map fst In]; [tauto|].
  destruct (String.eqb_spec k' k); [discriminate|]. intros H [E|Hin]; [contradiction|].
  now apply IH.
Qed.

Lemma map_get_in (k : string) (s : Session) (m : SessionMap) :
  map_get k m = Some s -> In (k, s) m.
Proof.
  induction m as [|[k' v'] m IH]; cbn [map_get In]; [discriminate|].
  destruct (String.eqb_spec k' k) as [->|_].
  - intros [= ->]. now left.
  - intros H. right. now apply IH.
Qed.

Lemma in_map_set (k k0 : string) (v s : Session) (m : SessionMap) :
  In (k0, s) (map_set k v m) -> (k0 = k /\ s = v) \/ In (k0, s) m.
Proof.
  induction m as [|[k' v'] m IH]; cbn [map_set In].
  - intros [[= <- <-]|[]]. now left.
  - destruct (String.eqb_spec k' k) as [->|_]; cbn [In].
    + intros [[= <- <-]|H]; [now left|right; now right].
    + intros [E|H]; [right; now left|]. destruct (IH H) as [L|R]; [now left|right; now right].
Qed.

Lemma single_digit_spec (message : string) (digit : Z) :
  single_digit message = Some digit ->
  0 <= digit <= 9 /\ includes (toLowerCase message) "ss" = false.
Proof.
  destruct message as [|c [|c' rest]]; cbn [single_digit]; try discriminate.
  destruct ((48 <=? nat_of_ascii c)%nat && (nat_of_ascii c <=? 57)%nat) eqn:E;
    [|discriminate].
  intros [= <-]. apply andb_true_iff in E as [A B].
  apply Nat.leb_le in A, B. split; [lia|].
  cbn [toLowerCase includes String.prefix].
  destruct (ascii_dec "s" (lower_ascii c)); reflexivity.
Qed.

Section Store.

Context (env : Env).

(** X17: [getOrCreateSession] gives the session the map holds for the user
    afterwards; an existing session is returned as it is (its chat id is not
    replaced by the one of the call) and nothing changes; asking again
    gives the same session and changes nothing; the sessions of other users
    are not touched. *)
Theorem getOrCreateSession_lookup (userId chatId chatId' : string) (b : Bot) :
  let '(s, b') := getOrCreateSession env userId chatId b in
  map_get userId (userSessions b') = Some s
  /\ (forall s0, map_get userId (userSessions b) = Some s0 -> s = s0 /\ b' = b)
  /\ getOrCreateSession env userId chatId' b' = (s, b')
  /\ (forall k, k <> userId ->
        map_get k (userSessions b') = map_get k (userSessions b)).
Proof.
  unfold getOrCreateSession, createSession.
  destruct (map_get userId (userSessions b)) as [s0|] eqn:E.
  - split; [exact E|]. split; [intros s1 [= <-]; now split|].
    split; [now rewrite E|]. reflexivity.
  - cbn [userSessions world]. rewrite map_get_map_set_eq.
    split; [reflexivity|]. split; [discriminate|]. split; [reflexivity|].
    intros k Hk. apply map_get_map_set_ne. congruence.
Qed.

(** X18: a text message changes no session but the sender's: whatever the
    message and whatever fails, the map holds for every other user what it
    held before. *)
Theorem on_text_leaves_other_users_alone (msg : Message) (b : Bot) (k : string) :
  k <> from_id msg ->
  map_get k (userSessions (snd (on_text env msg b))) = map_get k (userSessions b).
Proof.
  intros Hk. unfold on_text.
  destruct (negb _); [reflexivity|].
  destruct (includes _ _).
  { cbn [world userSessions]. now destruct (single_shot env _). }
  destruct (single_digit _) as [digit|]; [|reflexivity].
  unfold getOrCreateSession, createSession. cbn [userSessions world].
  destruct (map_get (from_id msg) (userSessions b)) as [s|];
    destruct (stack_command env digit _) as [r h]; cbn [snd userSessions];
    rewrite ?map_get_map_set_ne by congruence; reflexivity.
Qed.

(** X19: a capture command whose notice is delivered and whose capture
    succeeds: afterwards the sender has a session in the map whose slot of
    that digit holds the path of the new file, and the file is on disk,
    whatever becomes of the replies that follow. *)
Theorem capture_command_then_lookup (msg : Message) (b : Bot) (digit : Z) :
  chat_id msg ∈ CHAT_IDS env ->
  single_digit (text msg) = Some digit ->
  1 <= digit ->
  transport_ok env (S (tick (world b))) = true ->
  capture_ok env (S (S (tick (world b)))) = true ->
  let path := screenshot_path env (S (S (tick (world b)))) in
  let b' := snd (on_text env msg b) in
  exists s',
    map_get (from_id msg) (userSessions b') = Some s'
    /\ screenshots s' !! Z.to_nat (digit - 1) = Some (Some path)
    /\ path ∈ files (world b').
Proof.
  intros Hin Hdigit Hpos Ht Hc. cbv zeta.
  destruct (single_digit_spec _ _ Hdigit) as [Hrange Hss].
  unfold on_text. rewrite (bool_decide_eq_true_2 _ Hin), Hss, Hdigit. cbn [negb].
  destruct (getOrCreateSession env (from_id msg) (chat_id msg)
              {| world := turn (world b); userSessions := userSessions b |})
    as [s b1] eqn:G.
  assert (Hw : tick (world b1) = S (tick (world b))).
  { unfold getOrCreateSession, createSession in G. cbn [userSessions world] in G.
    destruct (map_get _ _); injection G as <- <-; reflexivity. }
  assert (W := capture_command_writes_slot env digit
                 {| current := s; around := world b1 |} ltac:(lia)).
  cbn [around current] in W. rewrite Hw in W. specialize (W Ht Hc). cbv zeta in W.
  destruct (stack_command env digit _) as [r h]. cbn [snd] in *.
  destruct W as [Wslot Wfile]. cbn [world userSessions].
  exists (current h). rewrite map_get_map_set_eq. split; [reflexivity|].
  split; [|exact Wfile]. rewrite Wslot. apply array_set_lookup. lia.
Qed.

Lemma stack_command_capture_fails (digit : Z) (h : Handling) :
  1 <= digit <= 9 ->
  Delivers env ->
  capture_ok env (S (tick (around h))) = false ->
  exists w',
    stack_command env digit h = (Ok tt, {| current := current h; around := w' |})
    /\ files w' = files (around h)
    /\ trace w' =
       trace (around h) ++
       [EReply (msg_taking digit) true;
        ECapture (screenshot_path env (S (tick (around h)))) false;
        EReply (msg_command_failed digit
                  ("Failed to take or optimize screenshot: "
                   +:+ error_message env (S (tick (around h))))) true].
Proof.
  intros Hd Hdel Hc. destruct h as [s [tk fs tr]]. cbn [around tick] in *.
  unfold stack_command, screenshot_path.
  replace ((1 <=? digit) && (digit <=? 9)) with true
    by (symmetry; apply andb_true_iff; lia).
  unfold try_catch, bind at 1, hio at 1, reply at 1.
  rewrite (transport_delivers _ _ _ Hdel). cbn [around current interact tick files trace].
  unfold bind at 1, hio at 1, takeScreenshot, bind, Date_now.
  cbn [around current interact tick files trace]. rewrite Hc.
  unfold bind, hio, reply, ret. rewrite (transport_delivers _ _ _ Hdel).
  cbn [around current interact tick files trace].
  eexists. split; [reflexivity|]. cbn [interact files trace].
  rewrite <- !app_assoc. split; reflexivity.
Qed.

(** X20: a capture command whose capture fails (the transport delivering)
    leaves the slots of the sender's session as they were and writes no
    file; the user gets the notice and then the failure reply carrying the
    error text; the handler returns normally.  (A user without a session
    has an empty one afterwards.) *)
Theorem capture_command_failure_changes_no_slot (msg : Message) (b : Bot) (digit : Z) :
  chat_id msg ∈ CHAT_IDS env ->
  single_digit (text msg) = Some digit ->
  1 <= digit ->
  Delivers env ->
  capture_ok env (S (S (tick (world b)))) = false ->
  let '(r, b') := on_text env msg b in
  r = Ok tt
  /\ files (world b') = files (world b)
  /\ (exists s', map_get (from_id msg) (userSessions b') = Some s'
        /\ screenshots s' =
           match map_get (from_id msg) (userSessions b) with
           | Some s => screenshots s
           | None => []
           end)
  /\ outbound (trace (world b')) =
     outbound (trace (world b)) ++
     [EReply (msg_taking digit) true;
      EReply (msg_command_failed digit
                ("Failed to take or optimize screenshot: "
                 +:+ error_message env (S (S (tick (world b)))))) true].
Proof.
  intros Hin Hdigit Hpos Hdel Hc.
  destruct (single_digit_spec _ _ Hdigit) as [Hrange Hss].
  unfold on_text. rewrite (bool_decide_eq_true_2 _ Hin), Hss, Hdigit. cbn [negb].
  unfold getOrCreateSession, createSession. cbn [userSessions world].
  destruct (map_get (from_id msg) (userSessions b)) as [s|] eqn:G;
    cbn [userSessions world].
  - destruct (stack_command_capture_fails digit
                {| current := s; around := turn (world b) |} ltac:(lia) Hdel Hc)
      as (w' & E & F & T).
    rewrite E. cbn [world userSessions current around turn files trace] in *.
    split; [reflexivity|]. split; [exact F|]. split.
    + exists s. now rewrite map_get_map_set_eq.
    + rewrite T. unfold outbound. rewrite omap_app. reflexivity.
  - destruct (stack_command_capture_fails digit
                {| current :=
                     {| userId := from_id msg; chatId := chat_id msg; screenshots := [];
                        extractedTexts := [];
                        startTime := clock env (tick (turn (world b))) |};
                   around := note (ESessionSet (from_id msg)) (turn (world b)) |}
                ltac:(lia) Hdel Hc)
      as (w' & E & F & T).
    rewrite E. cbn [world userSessions current around turn note files trace] in *.
    split; [reflexivity|]. split; [exact F|]. split.
    + eexists. rewrite map_get_map_set_eq. split; reflexivity.
    + rewrite T. unfold outbound. rewrite !omap_app. cbn. now rewrite app_nil_r.
Qed.

Lemma process_command_runs (h : Handling) :
  Delivers env ->
  filter_truthy (screenshots (current h)) <> [] ->
  exists w' pre n,
    stack_command env 0 h =
      (Ok tt,
       {| current :=
            {| userId := userId (current h); chatId := chatId (current h);
               screenshots := []; extractedTexts := []; startTime := clock env n |};
          around := w' |})
    /\ trace w' = pre ++ [EReply msg_complete true; EDeleteMessage (tick (around h)) true]
    /\ tick w' = S (S n).
Proof.
  intros Hdel Hvalid. destruct h as [s w]. cbn [current around] in *.
  assert (Hne : screenshots s <> []).
  { intros E. apply Hvalid. now rewrite E. }
  unfold stack_command.
  change ((1 <=? 0) && (0 <=? 9)) with false. change (0 =? 0) with true.
  cbv iota. unfold try_catch, bind at 1. cbn [current around].
  assert (Hc : (Z.of_nat (length (filter_truthy (screenshots s))) =? 0) = false).
  { destruct (filter_truthy (screenshots s)); [congruence|reflexivity]. }
  rewrite Hc. unfold bind at 1, hio at 1, reply at 1.
  rewrite (transport_delivers _ _ _ Hdel). cbn [current around interact tick files trace].
  unfold bind at 1, call_pipeline. cbn [current around].
  match goal with
  | |- context [processSessionScreenshots env s ?w0] =>
      destruct (run_spec env s w0 Hdel Hne) as (w1 & E & _)
  end.
  cbv zeta in E. rewrite E. frame_simpl.
  unfold bind, hio, reply, deleteMessage, ret.
  repeat (rewrite (transport_delivers _ _ _ Hdel);
          cbn [current around interact tick files trace]).
  eexists _, _, _. split; [reflexivity|].
  cbn [interact trace tick]. rewrite <- app_assoc. split; reflexivity.
Qed.

(** X21: the process command on a session that holds screenshots (the
    transport delivering): the batch runs, the handler returns normally,
    and afterwards the sender's entry is still in the map, at its place,
    holding the same session emptied, its start time set to the time of the
    end of the batch: the clock as it stood before the last two things
    sent, which are the completion notice and the deletion of the handler's
    own "starting" message. *)
Theorem process_command_empties_the_session_in_place
    (msg : Message) (b : Bot) (s : Session) :
  chat_id msg ∈ CHAT_IDS env ->
  text msg = "0" ->
  Delivers env ->
  map_get (from_id msg) (userSessions b) = Some s ->
  filter_truthy (screenshots s) <> [] ->
  let '(r, b') := on_text env msg b in
  r = Ok tt
  /\ map fst (userSessions b') = map fst (userSessions b)
  /\ (exists n,
        tick (world b') = S (S n)
        /\ map_get (from_id msg) (userSessions b') =
           Some {| userId := userId s; chatId := chatId s; screenshots := [];
                   extractedTexts := []; startTime := clock env n |})
  /\ exists pre,
       trace (world b') =
       pre ++ [EReply msg_complete true; EDeleteMessage (S (tick (world b))) true].
Proof.
  intros Hin Htext Hdel Hget Hvalid.
  unfold on_text. rewrite (bool_decide_eq_true_2 _ Hin), Htext.
  change (includes (toLowerCase "0") "ss") with false.
  change (single_digit "0") with (Some 0). cbn [negb].
  unfold getOrCreateSession. cbn [userSessions world]. rewrite Hget.
  cbn [userSessions world].
  destruct (process_command_runs {| current := s; around := turn (world b) |}
              Hdel Hvalid) as (w' & pre & n & E & T & K).
  rewrite E. cbn [current around world userSessions turn tick] in *.
  split; [reflexivity|]. split.
  - rewrite map_set_keys. unfold map_has. now rewrite Hget.
  - split; [exists n; split; [exact K|now rewrite map_get_map_set_eq]|].
    exists pre. exact T.
Qed.

End Store.

Lemma other_users_witness :
  "7" <> from_id Cases.bob
  /\ map_get "7" (userSessions (snd (on_text Sample.env Cases.bob Cases.bot_two_shots)))
     = map_get "7" (userSessions Cases.bot_two_shots).
Proof.
  split; [discriminate|].
  apply (on_text_leaves_other_users_alone Sample.env). discriminate.
Defined.

Lemma capture_then_lookup_witness :
  exists s',
    map_get "7" (userSessions (snd (on_text Sample.env (Sample.from "4")
                                      Cases.bot_two_shots))) = Some s'
    /\ screenshots s' !! 3%nat
       = Some (Some (screenshot_path Sample.env
                       (S (S (tick (world Cases.bot_two_shots))))))
    /\ screenshot_path Sample.env (S (S (tick (world Cases.bot_two_shots))))
       ∈ files (world (snd (on_text Sample.env (Sample.from "4")
                              Cases.bot_two_shots))).
Proof.
  apply (capture_command_then_lookup Sample.env (Sample.from "4")
           Cases.bot_two_shots 4).
  - compute_done.
  - reflexivity.
  - lia.
  - reflexivity.
  - reflexivity.
Defined.

Lemma capture_failure_witness :
  exists r b',
    on_text Cases.env_no_capture (Sample.from "2") Cases.bot_two_shots = (r, b')
    /\ r = Ok tt
    /\ files (world b') = files (world Cases.bot_two_shots)
    /\ exists s s', map_get "7" (userSessions Cases.bot_two_shots) = Some s
         /\ map_get "7" (userSessions b') = Some s'
         /\ screenshots s' = screenshots s.
Proof.
  generalize (capture_command_failure_changes_no_slot Cases.env_no_capture
                (Sample.from "2") Cases.bot_two_shots 2).
  destruct (on_text Cases.env_no_capture (Sample.from "2") Cases.bot_two_shots)
    as [r b'].
  intros H. exists r, b'. split; [reflexivity|].
  destruct H as (R & F & (s' & G & Sh) & _).
  - compute_done.
  - reflexivity.
  - lia.
  - intros n. reflexivity.
  - reflexivity.
  - split; [exact R|]. split; [exact F|].
    change (from_id (Sample.from "2")) with "7" in G, Sh.
    destruct (map_get "7" (userSessions Cases.bot_two_shots)) as [s|] eqn:E;
      [|discriminate E].
    exists s, s'. auto.
Defined.

Lemma process_command_witness :
  fst (on_text Sample.env (Sample.from "0") Cases.bot_two_shots) = Ok tt
  /\ userSessions (snd (on_text Sample.env (Sample.from "0") Cases.bot_two_shots))
     = [("7", {| userId := "7"; chatId := "42"; screenshots := [];
                 extractedTexts := []; startTime := 30000 |})]
  /\ tick (world (snd (on_text Sample.env (Sample.from "0") Cases.bot_two_shots)))
     = 32%nat.
Proof.
  split; [|split; vm_compute; reflexivity].
  generalize (fun s => process_command_empties_the_session_in_place Sample.env
                (Sample.from "0") Cases.bot_two_shots s).
  destruct (on_text Sample.env (Sample.from "0") Cases.bot_two_shots) as [r b'].
  destruct (map_get (from_id (Sample.from "0")) (userSessions Cases.bot_two_shots))
    as [s|] eqn:E; [|discriminate E].
  intros H. destruct (H s) as (R & _).
  - compute_done.
  - reflexivity.
  - intros n. reflexivity.
  - reflexivity.
  - injection E as <-. discriminate.
  - exact R.
Defined.

(** ** What the store always satisfies *)

Lemma array_set_length (a : array) (i : Z) (v : string) (n : nat) :
  (length a <= n)%nat -> i < Z.of_nat n -> (length (array_set a i v) <= n)%nat.
Proof.
  intros Ha Hi. unfold array_set.
  destruct (i <? 0) eqn:Hneg; [exact Ha|]. apply Z.ltb_ge in Hneg.
  destruct (Z.to_nat i <? length a)%nat eqn:Hlt.
  - now rewrite length_insert.
  - apply Nat.ltb_ge in Hlt.
    rewrite !length_app, length_replicate. cbn [length]. lia.
Qed.

Lemma findIndex_from_lt (p : string) (a : array) (i : Z) :
  0 <= i -> findIndex_from p a i < i + Z.of_nat (length a).
Proof.
  revert i. induction a as [|[x|] a IH]; intros i Hi; cbn [findIndex_from length].
  - lia.
  - destruct (String.eqb x p); [lia|]. specialize (IH (i + 1)). lia.
  - specialize (IH (i + 1)). lia.
Qed.

Section Keeps.

Context {S : Type} (I : S -> Prop).

Lemma keeps_ret {A} (a : A) : Keeps I (ret a).
Proof. now intros s. Qed.

Lemma keeps_throw {A} (e : string) : Keeps I (@throw S A e).
Proof. now intros s. Qed.

Lemma keeps_get : Keeps I (fun s : S => (Ok s, s)).
Proof. now intros s. Qed.

Lemma keeps_modify (g : S -> S) : (forall s, I s -> I (g s)) -> Keeps I (modify g).
Proof. intros Hg s. apply Hg. Qed.

Lemma keeps_bind {A B} (m : M S A) (k : A -> M S B) :
  Keeps I m -> (forall a, Keeps I (k a)) -> Keeps I (bind m k).
Proof.
  intros Hm Hk s Hs. unfold bind. specialize (Hm s Hs).
  destruct (m s) as [[a|e] s1]; cbn [snd] in *; [now apply Hk|exact Hm].
Qed.

Lemma keeps_try {A} (m : M S A) (h : string -> M S A) :
  Keeps I m -> (forall e, Keeps I (h e)) -> Keeps I (try_catch m h).
Proof.
  intros Hm Hh s Hs. unfold try_catch. specialize (Hm s Hs).
  destruct (m s) as [[a|e] s1]; cbn [snd] in *; [exact Hm|now apply Hh].
Qed.

Lemma keeps_when (b : bool) (m : M S unit) : Keeps I m -> Keeps I (when b m).
Proof. destruct b; [trivial|intros _; apply keeps_ret]. Qed.

Lemma keeps_self {A} (k : S -> M S A) :
  (forall s0, I s0 -> Keeps I (k s0)) -> Keeps I (fun s => k s s).
Proof. intros H s Hs. now apply (H s Hs s). Qed.

End Keeps.

Lemma keeps_io {A} (J : Session -> Prop) (m : M World A) :
  Keeps (fun f => J (session f)) (io m).
Proof. intros f Hf. unfold io. now destruct (m (outside f)). Qed.

Lemma keeps_hio {A} (J : Session -> Prop) (m : M World A) :
  Keeps (fun h => J (current h)) (hio m).
Proof. intros h Hh. unfold hio. now destruct (m (around h)). Qed.

Ltac keeps :=
  repeat first
    [ apply keeps_ret | apply keeps_throw | apply keeps_get
    | apply keeps_io | apply keeps_hio | apply keeps_when
    | apply keeps_bind; [|intros ?] | apply keeps_try; [|intros ?]
    | match goal with |- Keeps _ (if ?b then _ else _) => destruct b end
    | match goal with |- Keeps _ (match ?x with _ => _ end) => destruct x end ].

Ltac keeps_from f0 H :=
  match goal with
  | |- ?J (session (snd (?m f0))) =>
      cut (Keeps (fun f => J (session f)) m); [intros K; exact (K f0 H)|]
  end.

Section Invariant.

Context (env : Env) (k : string).

Lemma process_item_keeps (total i : Z) (p : string) :
  Keeps (fun f => session_ok k (session f)) (process_item env total i p).
Proof.
  intros f0 H0. unfold process_item. cbv zeta. keeps_from f0 H0.
  destruct H0 as (_ & Hshots0 & _).
  keeps; apply keeps_modify; intros f (Hu & Hs & He); try (repeat split; assumption).
  unfold session_ok. cbn [set_extractedText session userId screenshots extractedTexts].
  repeat split; try assumption.
  apply array_set_length; [exact He|]. unfold screenshotNumber_of, findIndex.
  assert (H := findIndex_from_lt p (screenshots (session f0)) 0 ltac:(lia)). lia.
Qed.

Lemma process_items_keeps (total : Z) (valid : list string) :
  forall i, Keeps (fun f => session_ok k (session f)) (process_items env total i valid).
Proof.
  induction valid as [|p rest IH]; intros i; cbn [process_items].
  - apply keeps_ret.
  - apply keeps_bind; [apply process_item_keeps|intros _; apply IH].
Qed.

Lemma answer_step_keeps :
  Keeps (fun f => session_ok k (session f)) (answer_step env).
Proof.
  intros f0 H0. unfold answer_step. keeps_from f0 H0.
  keeps; apply keeps_modify; intros f Hf; exact Hf.
Qed.

Lemma finish_keeps (total : Z) :
  Keeps (fun f => session_ok k (session f)) (finish env total).
Proof.
  intros f0 H0. unfold finish. keeps_from f0 H0.
  keeps; try apply keeps_modify; intros f Hf;
    first [exact Hf
          |destruct Hf as (Hu & _ & _); unfold session_ok; cbn;
           repeat split; [exact Hu|lia|lia]].
Qed.

Lemma pipeline_keeps :
  Keeps (fun f => session_ok k (session f)) (processSessionScreenshots_from env).
Proof.
  intros f0 H0. unfold processSessionScreenshots_from.
  destruct (length (screenshots (session f0)) =? 0)%nat; [exact H0|].
  keeps_from f0 H0.
  apply keeps_bind; [apply keeps_io|intros _].
  apply keeps_bind; [apply process_items_keeps|intros _].
  apply keeps_bind; [apply keeps_get|intros f1].
  apply keeps_bind; [apply keeps_io|intros _].
  apply keeps_bind; [apply answer_step_keeps|intros _; apply finish_keeps].
Qed.

Lemma stack_command_keeps (digit : Z) :
  Keeps (fun h => session_ok k (current h)) (stack_command env digit).
Proof.
  unfold stack_command. apply keeps_try; [|intros e; keeps].
  destruct ((1 <=? digit) && (digit <=? 9)) eqn:Hd.
  - apply andb_true_iff in Hd as [A B]. apply Z.leb_le in A, B.
    keeps. apply keeps_modify. intros h (Hu & Hs & He).
    unfold session_ok. cbn [set_screenshot current userId screenshots extractedTexts].
    repeat split; try assumption. apply array_set_length; [exact Hs|lia].
  - destruct (digit =? 0); [|apply keeps_ret].
    apply keeps_bind; [apply keeps_get|intros h].
    destruct (_ =? 0); keeps.
    intros h0 Hh. unfold call_pipeline, processSessionScreenshots.
    match goal with
    | |- context [processSessionScreenshots_from env ?f0] =>
        assert (P := pipeline_keeps f0 Hh);
        destruct (processSessionScreenshots_from env f0) as [r f]
    end.
    exact P.
Qed.

End Invariant.

Lemma store_ok_map_set (k : string) (v : Session) (m : SessionMap) :
  store_ok m -> session_ok k v -> store_ok (map_set k v m).
Proof.
  intros [Hnd Hall] Hv. split.
  - rewrite map_set_keys. unfold map_has.
    destruct (map_get k m) eqn:G; [exact Hnd|].
    apply NoDup_app. split; [exact Hnd|]. split.
    + intros x Hx Hin. apply list_elem_of_In in Hx. apply list_elem_of_In in Hin.
      destruct Hin as [<-|[]]. now apply (map_get_none_keys _ _ G).
    + apply NoDup_singleton.
  - intros k0 s Hin. destruct (in_map_set _ _ _ _ _ Hin) as [[-> ->]|H];
      [exact Hv|now apply Hall].
Qed.

Lemma store_ok_filter (P : string * Session -> bool) (m : SessionMap) :
  store_ok m -> store_ok (List.filter P m).
Proof.
  intros [Hnd Hall]. split.
  - clear Hall. induction m as [|[k v] m IH]; cbn [List.filter]; [constructor|].
    cbn [map fst] in Hnd. apply NoDup_cons in Hnd as [Hnotin Hnd].
    destruct (P (k, v)); [|now apply IH].
    cbn [map fst]. apply NoDup_cons. split; [|now apply IH].
    intros Hin. apply Hnotin. apply list_elem_of_In in Hin. apply list_elem_of_In.
    apply in_map_iff in Hin as ([k' v'] & E & Hf). cbn in E. subst k'.
    apply filter_In in Hf as [Hf _]. apply in_map_iff. now exists (k, v').
  - intros k s Hin. apply filter_In in Hin as [Hin _]. now apply Hall.
Qed.

Section StoreInvariant.

Context (env : Env).

Lemma on_text_store_ok (msg : Message) (b : Bot) :
  store_ok (userSessions b) -> store_ok (userSessions (snd (on_text env msg b))).
Proof.
  intros Hok. unfold on_text.
  destruct (negb _); [exact Hok|].
  destruct (includes _ _).
  { cbn [world userSessions]. now destruct (single_shot env _). }
  destruct (single_digit _) as [digit|]; [|exact Hok].
  unfold getOrCreateSession, createSession. cbn [userSessions world].
  destruct (map_get (from_id msg) (userSessions b)) as [s|] eqn:G.
  - assert (Hs : session_ok (from_id msg) s).
    { apply (proj2 Hok). now apply map_get_in. }
    assert (K := stack_command_keeps env (from_id msg) digit
                   {| current := s; around := turn (world b) |} Hs).
    destruct (stack_command env digit _) as [r h]. cbn [snd userSessions] in *.
    now apply store_ok_map_set.
  - set (fresh := {| userId := from_id msg; chatId := chat_id msg; screenshots := [];
                     extractedTexts := [];
                     startTime := clock env (tick (turn (world b))) |}).
    assert (Hs : session_ok (from_id msg) fresh).
    { unfold session_ok. cbn. repeat split; lia. }
    assert (K := stack_command_keeps env (from_id msg) digit
                   {| current := fresh;
                      around := note (ESessionSet (from_id msg)) (turn (world b)) |} Hs).
    destruct (stack_command env digit _) as [r h]. cbn [snd userSessions] in *.
    apply store_ok_map_set; [|exact K]. now apply store_ok_map_set.
Qed.

(** X22: the store keeps its shape through every run of the process: from
    a store in which every user has at most one entry, each entry holds a
    session carrying that user's id, and no session has more than nine
    slots (of screenshots or of extracted texts), any sequence of text
    messages and sweeps, whatever fails on the way, leads to such a store
    again. *)
Theorem store_stays_well_formed (b : Bot) (inputs : list Input) :
  store_ok (userSessions b) -> store_ok (userSessions (run env b inputs)).
Proof.
  revert b. induction inputs as [|i inputs IH]; intros b Hok; [exact Hok|].
  cbn [run fold_left]. apply IH. destruct i as [msg|]; cbn [step].
  - now apply on_text_store_ok.
  - rewrite cleanupSessions_keeps. now apply store_ok_filter.
Qed.

End StoreInvariant.

Lemma store_well_formed_witness :
  store_ok (userSessions Sample.bot0)
  /\ store_ok (userSessions
                 (run Sample.env Sample.bot0
                    [Text (Sample.from "1"); Text (Sample.from "9"); Sweep;
                     Text (Sample.from "0")])).
Proof.
  assert (H : store_ok (userSessions Sample.bot0)).
  { split; [constructor|intros k s []]. }
  split; [exact H|].
  exact (store_stays_well_formed Sample.env Sample.bot0 _ H).
Defined.
